(** * anki-kashikoi-mcp: semantic field mapping and deck analysis

    A shallow embedding of [src/services/field-mapper.ts] (class
    [FieldMapper]) and of the deck analyzer (class [DeckAnalyzer]),
    followed by the properties of the specification that were checked
    against them.

    The configuration manager, the AnkiConnect client and the tool
    methods of the server are embedded as well; Part III holds further
    properties of the code, read off the source.

    Conventions of the embedding.
    - A JavaScript string is the list of its UTF-16 code units
      ([jsstring]); [length], [includes], [substring] and [trim] work on
      code units, as they do in the language.
    - [String.prototype.toLowerCase] is a built-in driven by the Unicode
      case tables; the development is parametric in it (class [Host]).
    - A plain object used as a dictionary ([Record<string, V>]) is the
      list of its own properties in insertion order, which is the order
      [Object.entries] and [Object.keys] enumerate string keys in.
    - Indexing such an object with a computed key ([o[k]]) is what the
      language makes of it (module [PlainObject]): reading a key that
      is not an own property finds the member of [Object.prototype] of
      that name, when there is one; assigning a string to [__proto__]
      creates no property; and a new key that is an array index is
      enumerated before the other keys, in numeric order.  The texts of
      the built-in functions and of the [TypeError] are those of V8,
      the engine of Node.
    - A [Set<string>] is a [gset jsstring].
    - The confidences are the rationals written in the source
      ([1.0], [0.8], [0.6], [0.3]) and the thresholds [0.8] and [0.5];
      only comparisons and [Math.max] are applied to them.
    - [if (x)] on a string is JavaScript truthiness: defined and not
      empty.
    - Numbers that hold identifiers, counts and sizes are integers.
    - A collaborator of a class (the client, the configuration manager,
      the transport) is a record of functions; a request either is
      fulfilled with a value or is rejected with an [Error]. *)

From stdpp Require Import gmap list strings.
From Stdlib Require Import QArith Lqa.

Close Scope Q_scope.

(* ================================================================== *)
(** * Part I: the embedding *)
(* ================================================================== *)

Abbreviation jsstring := (list N).

Module JsString.

(** ** String literals

    The literals of the source are written as Rocq strings, which
    hold the UTF-8 bytes of this file; [js] decodes them to UTF-16
    code units. *)

Definition bytes (s : string) : list N :=
  map Ascii.N_of_ascii (String.list_ascii_of_string s).

Fixpoint utf8_decode (bs : list N) : list N :=
  match bs with
  | [] => []
  | b0 :: r0 =>
    if (b0 <? 0x80)%N then b0 :: utf8_decode r0
    else
      match r0 with
      | [] => []
      | b1 :: r1 =>
        if (b0 <? 0xE0)%N
        then ((b0 - 0xC0) * 0x40 + (b1 - 0x80))%N :: utf8_decode r1
        else
          match r1 with
          | [] => []
          | b2 :: r2 =>
            if (b0 <? 0xF0)%N
            then ((b0 - 0xE0) * 0x1000 + (b1 - 0x80) * 0x40
                  + (b2 - 0x80))%N :: utf8_decode r2
            else
              match r2 with
              | [] => []
              | b3 :: r3 =>
                ((b0 - 0xF0) * 0x40000 + (b1 - 0x80) * 0x1000
                 + (b2 - 0x80) * 0x40 + (b3 - 0x80))%N :: utf8_decode r3
              end
          end
      end
  end.

Definition utf16_encode (cp : N) : list N :=
  if (cp <? 0x10000)%N then [cp]
  else [(0xD800 + (cp - 0x10000) / 0x400)%N;
        (0xDC00 + (cp - 0x10000) mod 0x400)%N].

Definition js (s : string) : jsstring :=
  concat (map utf16_encode (utf8_decode (bytes s))).

(** ** Truthiness of [string], and of [string | undefined | null] *)

Definition truthy (s : jsstring) : bool :=
  match s with [] => false | _ :: _ => true end.

Definition truthyO (o : option jsstring) : bool :=
  match o with Some s => truthy s | None => false end.

(** ** [String.prototype.includes] *)

Fixpoint startsWith (s p : jsstring) : bool :=
  match p, s with
  | [], _ => true
  | _ :: _, [] => false
  | c :: p', d :: s' => bool_decide (c = d) && startsWith s' p'
  end.

Fixpoint includes (s p : jsstring) : bool :=
  startsWith s p ||
  match s with
  | [] => false
  | _ :: s' => includes s' p
  end.

(** ** [String.prototype.trim]

    The code units removed are ECMAScript's WhiteSpace and
    LineTerminator: TAB, VT, FF, SP, NBSP, ZWNBSP, the Unicode space
    separators, and LF, CR, LS, PS. *)

Definition isLineTerminator (c : N) : bool :=
  bool_decide (c ∈ [0x0A; 0x0D; 0x2028; 0x2029]%N).

Definition isWhiteSpace (c : N) : bool :=
  bool_decide (c ∈ [0x09; 0x0B; 0x0C; 0x20; 0xA0; 0xFEFF; 0x1680;
                    0x202F; 0x205F; 0x3000]%N)
  || ((0x2000 <=? c)%N && (c <=? 0x200A)%N)
  || isLineTerminator c.

Fixpoint trimStart (s : jsstring) : jsstring :=
  match s with
  | [] => []
  | c :: s' => if isWhiteSpace c then trimStart s' else s
  end.

Definition trimEnd (s : jsstring) : jsstring :=
  rev (trimStart (rev s)).

Definition trim (s : jsstring) : jsstring := trimEnd (trimStart s).

(** A string is blank when it is empty or made of white space only. *)
Definition isBlank (s : jsstring) : bool := forallb isWhiteSpace s.

(** ** [substring(0, n)], [Array.prototype.join], number to string *)

Definition substring0 (s : jsstring) (n : nat) : jsstring := take n s.

Fixpoint join (sep : jsstring) (l : list jsstring) : jsstring :=
  match l with
  | [] => []
  | [s] => s
  | s :: rest => s ++ sep ++ join sep rest
  end.

Definition digit (d : N) : N := (0x30 + d)%N.

Fixpoint digitsN (fuel : nat) (n : N) (acc : jsstring) : jsstring :=
  match fuel with
  | O => acc
  | S fuel' =>
    let acc' := digit (n mod 10)%N :: acc in
    if (n <? 10)%N then acc' else digitsN fuel' (n / 10)%N acc'
  end.

(** Decimal rendering of an integer-valued number, as template
    interpolation does it for magnitudes below [1e21]. *)
Definition numberToString (z : Z) : jsstring :=
  let n := Z.abs_N z in
  let ds := digitsN (S (N.to_nat (N.log2 n))) n [] in
  if (z <? 0)%Z then 0x2D%N :: ds else ds.

End JsString.

(** [Record<string, V>] *)
Abbreviation dict V := (list (jsstring * V)).

Module JsObject.

(** ** Plain objects as dictionaries

    The own properties in insertion order.  Assigning to an existing
    key keeps its position; assigning to a new key appends it. *)

Section Dict.
Context {V : Type}.

Definition empty : list (jsstring * V) := [].

Fixpoint get (k : jsstring) (o : list (jsstring * V)) : option V :=
  match o with
  | [] => None
  | (k', v) :: o' => if bool_decide (k' = k) then Some v else get k o'
  end.

Fixpoint set (k : jsstring) (v : V) (o : list (jsstring * V))
  : list (jsstring * V) :=
  match o with
  | [] => [(k, v)]
  | (k', v') :: o' =>
    if bool_decide (k' = k) then (k, v) :: o' else (k', v') :: set k v o'
  end.

Definition entries (o : list (jsstring * V)) : list (jsstring * V) := o.

Definition keys (o : list (jsstring * V)) : list jsstring := map fst o.

End Dict.

End JsObject.

(* ------------------------------------------------------------------ *)
(** ** Plain objects as the language has them *)
(* ------------------------------------------------------------------ *)

Module PlainObject.
Import JsString.

(** The property names of [Object.prototype]. *)
Definition memberNames : list jsstring :=
  map js ["constructor"; "__defineGetter__"; "__defineSetter__";
          "hasOwnProperty"; "__lookupGetter__"; "__lookupSetter__";
          "isPrototypeOf"; "propertyIsEnumerable"; "toString"; "valueOf";
          "__proto__"; "toLocaleString"].

Definition proto : jsstring := js "__proto__".

(** What [o[k]] finds: an own property, or the member of
    [Object.prototype] named [k] (a built-in function or, for
    [__proto__], [Object.prototype] itself). *)
Inductive Slot (V : Type) : Type :=
| Own (v : V)
| Inherited (name : jsstring).

Arguments Own {V} v.
Arguments Inherited {V} name.

(** [o[k]]; [None] is [undefined]. *)
Definition read {V : Type} (k : jsstring) (o : dict V) : option (Slot V) :=
  match JsObject.get k o with
  | Some v => Some (Own v)
  | None =>
    if bool_decide (k ∈ memberNames) then Some (Inherited k) else None
  end.

(** [String(Object.prototype[name])]. *)
Definition memberText (name : jsstring) : jsstring :=
  if bool_decide (name = proto) then js "[object Object]"
  else if bool_decide (name = js "constructor")
       then js "function Object() { [native code] }"
       else js "function " ++ name ++ js "() { [native code] }".

(** Truthiness of what was read from an object of strings: a function
    or an object is truthy. *)
Definition truthySlot (slot : Slot jsstring) : bool :=
  match slot with
  | Own s => truthy s
  | Inherited _ => true
  end.

(** The slot as a string: in a concatenation, and as a property key. *)
Definition text (slot : Slot jsstring) : jsstring :=
  match slot with
  | Own s => s
  | Inherited name => memberText name
  end.

(** *** Array indices

    A key is an array index when it is the decimal rendering, without
    leading zeros, of an integer from 0 to 2^32 - 2. *)

Definition isDigit (c : N) : bool := ((0x30 <=? c) && (c <=? 0x39))%N.

Definition digitsValue (k : jsstring) : N :=
  fold_left (fun n c => (n * 10 + (c - 0x30))%N) k 0%N.

Definition arrayIndex (k : jsstring) : option N :=
  match k with
  | [] => None
  | c :: rest =>
    if forallb isDigit k
       && (negb (bool_decide (c = 0x30%N)) || bool_decide (rest = []))
       && (digitsValue k <? 4294967295)%N
    then Some (digitsValue k)
    else None
  end.

(** *** Assignment

    [o[k] = v] for a value [v] that is not an object, or a key other
    than [__proto__].  An own property keeps its position.  A new key
    is enumerated after the existing ones, except that an array index
    goes among the array indices, in ascending numeric order, before
    all other keys.  The setter of [__proto__] ignores a value that is
    not an object, so no property appears. *)

Section Assign.
Context {V : Type}.

Fixpoint place (n : N) (k : jsstring) (v : V) (o : list (jsstring * V))
    : list (jsstring * V) :=
  match o with
  | [] => [(k, v)]
  | (k', v') :: o' =>
    match arrayIndex k' with
    | Some m => if (m <? n)%N then (k', v') :: place n k v o'
                else (k, v) :: o
    | None => (k, v) :: o
    end
  end.

Definition assign (k : jsstring) (v : V) (o : list (jsstring * V))
    : list (jsstring * V) :=
  match JsObject.get k o with
  | Some _ => JsObject.set k v o
  | None =>
    if bool_decide (k = proto) then o
    else
      match arrayIndex k with
      | Some n => place n k v o
      | None => o ++ [(k, v)]
      end
  end.

End Assign.

End PlainObject.

(** The host's [String.prototype.toLowerCase]. *)
Class Host := { toLowerCase : jsstring -> jsstring }.

(** ASCII lower-casing: what [toLowerCase] does on strings whose cased
    characters are all ASCII.  It is the instance used to evaluate the
    embedding on concrete inputs. *)
Definition asciiLower (c : N) : N :=
  if ((0x41 <=? c) && (c <=? 0x5A))%N then (c + 0x20)%N else c.

Definition asciiHost : Host := {| toLowerCase := map asciiLower |}.

Module Types.

(** [src/types]: the interfaces the two services exchange. *)

Record AnkiNoteType := {
  name : jsstring;
  fields : list jsstring;
}.

Record FieldMappingSuggestion := {
  semantic : jsstring;
  field : jsstring;
  confidence : Q;
}.

(** A card's field datum [{ value: string; order: number }]. *)
Record FieldData := {
  value : jsstring;
  order : Z;
}.

(** Of an [AnkiCard], the properties the analyzer reads. *)
Record AnkiCard := {
  cardId : Z;
  cardFields : dict FieldData;
  modelName : jsstring;
}.

Record DeckAnalysisResult := {
  deckName : jsstring;
  sampleSize : Z;
  primaryNoteType : jsstring;
  fieldAnalysis : dict jsstring;
  suggestedMappings : dict jsstring;
}.

End Types.

Module FieldMapper.
Import JsString JsObject Types.

Record SemanticPattern := {
  semantic : jsstring;
  keywords : list jsstring;
}.

Definition patterns : list SemanticPattern := [
  {| semantic := js "primary";
     keywords := map js ["front"; "question"; "word"; "term"; "kanji"; "表"; "問題"] |};
  {| semantic := js "secondary";
     keywords := map js ["back"; "answer"; "meaning"; "definition"; "裏"; "答え"] |};
  {| semantic := js "reading";
     keywords := map js ["reading"; "pronunciation"; "phonetic"; "kana"; "読み"; "発音"] |};
  {| semantic := js "example";
     keywords := map js ["example"; "sentence"; "usage"; "context"; "例文"; "使用例"] |};
  {| semantic := js "notes";
     keywords := map js ["notes"; "memo"; "hint"; "extra"; "remarks"; "メモ"; "ヒント"] |};
  {| semantic := js "source";
     keywords := map js ["source"; "reference"; "origin"; "出典"; "参考"] |};
  {| semantic := js "image";
     keywords := map js ["image"; "picture"; "photo"; "visual"; "画像"; "写真"] |};
  {| semantic := js "audio";
     keywords := map js ["audio"; "sound"; "voice"; "音声"] |};
  {| semantic := js "category";
     keywords := map js ["category"; "type"; "class"; "group"; "分類"; "カテゴリ"] |};
  {| semantic := js "difficulty";
     keywords := map js ["difficulty"; "level"; "grade"; "難易度"; "レベル"] |}
].

(** [a > b] and [Math.max] on the confidences. *)
Definition gtb (a b : Q) : bool := negb (Qle_bool a b).

Definition Math_max (a b : Q) : Q := if Qle_bool a b then b else a.

(** ** [findBestFieldMatch] *)

Record BestMatch := {
  bestField : option jsstring;
  bestConfidence : Q;
}.

(** The inner loop over the keywords, for one field; [confidence] is
    the loop's variable.  An exact match leaves the loop ([break]). *)
Fixpoint keywordLoop `{Host} (fieldLower : jsstring)
    (keywords : list jsstring) (confidence : Q) : Q :=
  match keywords with
  | [] => confidence
  | keyword :: rest =>
    let keywordLower := toLowerCase keyword in
    if bool_decide (fieldLower = keywordLower) then 1.0%Q
    else if includes fieldLower keywordLower
            && (2 <? length keywordLower)%nat
    then keywordLoop fieldLower rest (Math_max confidence 0.8%Q)
    else if includes keywordLower fieldLower
            && (4 <=? length fieldLower)%nat
            && (Z.of_nat (length keywordLower)
                - Z.of_nat (length fieldLower) <=? 3)%Z
    then keywordLoop fieldLower rest (Math_max confidence 0.6%Q)
    else keywordLoop fieldLower rest confidence
  end.

(** The confidence the outer loop computes for one field. *)
Definition fieldConfidence `{Host} (field : jsstring)
    (keywords : list jsstring) : Q :=
  keywordLoop (toLowerCase field) keywords 0%Q.

(** The outer loop over the fields; [best] holds [bestField] and
    [bestConfidence]. *)
Fixpoint fieldLoop `{Host} (fields keywords : list jsstring)
    (usedFields : gset jsstring) (best : BestMatch) : BestMatch :=
  match fields with
  | [] => best
  | field :: rest =>
    if bool_decide (field ∈ usedFields)
    then fieldLoop rest keywords usedFields best
    else
      let confidence := fieldConfidence field keywords in
      if gtb confidence (bestConfidence best)
      then fieldLoop rest keywords usedFields
             {| bestField := Some field; bestConfidence := confidence |}
      else fieldLoop rest keywords usedFields best
  end.

Definition findBestFieldMatch `{Host} (fields keywords : list jsstring)
    (usedFields : gset jsstring) : BestMatch :=
  fieldLoop fields keywords usedFields
    {| bestField := None; bestConfidence := 0%Q |}.

(** ** [suggestMappings] *)

(** The state of the loops: [mappings] and [usedFields]. *)
Definition MapState : Type := dict jsstring * gset jsstring.

Definition assign (label f : jsstring) (st : MapState) : MapState :=
  (set label f (fst st), {[ f ]} ∪ snd st).

Definition firstPassStep `{Host} (noteType : AnkiNoteType)
    (st : MapState) (pattern : SemanticPattern) : MapState :=
  let bestMatch :=
    findBestFieldMatch (fields noteType) (keywords pattern) (snd st) in
  match bestField bestMatch with
  | Some f =>
    if truthy f && gtb (bestConfidence bestMatch) 0.8%Q
    then assign (semantic pattern) f st
    else st
  | None => st
  end.

Definition secondPassStep `{Host} (noteType : AnkiNoteType)
    (st : MapState) (pattern : SemanticPattern) : MapState :=
  if truthyO (get (semantic pattern) (fst st)) then st
  else
    let bestMatch :=
      findBestFieldMatch (fields noteType) (keywords pattern) (snd st) in
    match bestField bestMatch with
    | Some f =>
      if truthy f && gtb (bestConfidence bestMatch) 0.5%Q
      then assign (semantic pattern) f st
      else st
    | None => st
    end.

(** [if (!mappings[label] && fields.length > i && !usedFields.has(fields[i]))] *)
Definition fallbackAt (label : jsstring) (i : nat)
    (noteType : AnkiNoteType) (st : MapState) : MapState :=
  if negb (truthyO (get label (fst st)))
     && (i <? length (fields noteType))%nat
  then
    match fields noteType !! i with
    | Some f => if bool_decide (f ∈ snd st) then st else assign label f st
    | None => st
    end
  else st.

Definition suggestState `{Host} (noteType : AnkiNoteType) : MapState :=
  let st1 := fold_left (firstPassStep noteType) patterns (empty, ∅) in
  let st2 := fold_left (secondPassStep noteType) patterns st1 in
  let st3 := fallbackAt (js "primary") 0 noteType st2 in
  fallbackAt (js "secondary") 1 noteType st3.

Definition suggestMappings `{Host} (noteType : AnkiNoteType)
    : dict jsstring :=
  fst (suggestState noteType).

(** ** [getSuggestionDetails] *)

(** The state of the loop: [suggestions] and [usedFields]. *)
Definition SugState : Type :=
  list FieldMappingSuggestion * gset jsstring.

Definition detailsStep `{Host} (noteType : AnkiNoteType)
    (st : SugState) (pattern : SemanticPattern) : SugState :=
  let bestMatch :=
    findBestFieldMatch (fields noteType) (keywords pattern) (snd st) in
  match bestField bestMatch with
  | Some f =>
    if truthy f
    then (fst st ++ [ {| Types.semantic := semantic pattern;
                         field := f;
                         confidence := bestConfidence bestMatch |} ],
          {[ f ]} ∪ snd st)
    else st
  | None => st
  end.

(** [noteType.fields.find(f => !usedFields.has(f))] *)
Definition findUnused (fields : list jsstring)
    (usedFields : gset jsstring) : option jsstring :=
  List.find (fun f => negb (bool_decide (f ∈ usedFields))) fields.

(** One of the two fallback blocks: [minLength] is the bound
    [fields.length] is compared with, [markUsed] tells whether the
    block ends with [usedFields.add(field)]. *)
Definition detailsFallback (label : jsstring) (minLength : nat)
    (markUsed : bool) (mappedSemantics : gset jsstring)
    (noteType : AnkiNoteType) (st : SugState) : SugState :=
  if negb (bool_decide (label ∈ mappedSemantics))
     && (minLength <? length (fields noteType))%nat
  then
    match findUnused (fields noteType) (snd st) with
    | Some f =>
      if truthy f
      then (fst st ++ [ {| Types.semantic := label; field := f;
                           confidence := 0.3%Q |} ],
            if markUsed then {[ f ]} ∪ snd st else snd st)
      else st
    | None => st
    end
  else st.

Definition detailsPass `{Host} (noteType : AnkiNoteType) : SugState :=
  fold_left (detailsStep noteType) patterns ([], ∅).

(** The part of the method after the loop: [mappedSemantics] is
    computed once, then the two fallback blocks run. *)
Definition detailsFallbacks (noteType : AnkiNoteType) (st : SugState)
    : list FieldMappingSuggestion :=
  let mappedSemantics : gset jsstring :=
    list_to_set (map Types.semantic (fst st)) in
  let st1 :=
    detailsFallback (js "primary") 0 true mappedSemantics noteType st in
  let st2 :=
    detailsFallback (js "secondary") 1 false mappedSemantics noteType st1 in
  fst st2.

Definition getSuggestionDetails `{Host} (noteType : AnkiNoteType)
    : list FieldMappingSuggestion :=
  detailsFallbacks noteType (detailsPass noteType).

(** ** [validateMapping] *)

Fixpoint validateLoop (availableFields : gset jsstring)
    (entries : list (jsstring * jsstring)) (usedFields : gset jsstring)
    : bool :=
  match entries with
  | [] => true
  | (_, field) :: rest =>
    if negb (bool_decide (field ∈ availableFields)) then false
    else if bool_decide (field ∈ usedFields) then false
    else validateLoop availableFields rest ({[ field ]} ∪ usedFields)
  end.

Definition validateMapping (noteType : AnkiNoteType)
    (mapping : dict jsstring) : bool :=
  validateLoop (list_to_set (fields noteType)) (entries mapping) ∅.

(** ** [applyMapping] *)

(** The text the template literal puts between merged contents: the
    source spells it with an escaped backslash, so it is the two code
    units backslash and n. *)
Definition mergeSeparator : jsstring := [0x5C; 0x6E]%N.

(** One turn of the loop.  Both [mapping] and [result] are indexed as
    plain objects: [mapping[semantic]] may be a member of
    [Object.prototype], which is truthy and, used as a key, is its
    text; and so may [result[actualField]], to which [+=] then appends
    as to its text. *)
Definition applyStep (mapping : dict jsstring) (result : dict jsstring)
    (entry : jsstring * jsstring) : dict jsstring :=
  let '(semantic, content) := entry in
  match PlainObject.read semantic mapping with
  | Some actualField =>
    if PlainObject.truthySlot actualField && truthy content
       && negb (bool_decide (trim content = []))
    then
      let key := PlainObject.text actualField in
      match PlainObject.read key result with
      | Some current =>
        if PlainObject.truthySlot current
        then PlainObject.assign key
               (PlainObject.text current ++ mergeSeparator ++ content) result
        else PlainObject.assign key content result
      | None => PlainObject.assign key content result
      end
    else result
  | None => result
  end.

Definition applyMapping (mapping semanticContent : dict jsstring)
    : dict jsstring :=
  fold_left (applyStep mapping) (entries semanticContent) empty.

(** ** [getSemanticKeywords] *)

Definition getSemanticKeywords : dict (list jsstring) :=
  fold_left (fun kw pattern => set (semantic pattern) (keywords pattern) kw)
    patterns empty.

End FieldMapper.

Module DeckAnalyzer.
Import JsString JsObject Types.

(** ** The collaborators handed to the constructor *)

(** Everything the client throws is an [Error] with a message. *)
Inductive JsError := Error (message : jsstring).

(** [ankiClient]: the two requests the analyzer awaits.  Each is
    either fulfilled with a value or rejected with an error. *)
Record AnkiConnectClient := {
  findCards : jsstring -> JsError + list Z;
  getCardsInfo : list Z -> JsError + list AnkiCard;
}.

(** [fieldMapper]: of the mapper, [analyzeDeck] uses one method. *)
Record FieldMapperPort := {
  suggestMappings : AnkiNoteType -> dict jsstring;
}.

Definition fieldMapperOf `{Host} : FieldMapperPort :=
  {| suggestMappings := FieldMapper.suggestMappings |}.

(** ** Asynchronous computations over the client

    An [async] body is a tree: it settles ([Resolve], [Reject]) or
    awaits one request of the client and continues with the answer. *)
Inductive Async (A : Type) : Type :=
| Resolve (a : A)
| Reject (e : JsError)
| AwaitFindCards (query : jsstring) (k : list Z -> Async A)
| AwaitGetCardsInfo (cards : list Z) (k : list AnkiCard -> Async A).

Arguments Resolve {A} a.
Arguments Reject {A} e.
Arguments AwaitFindCards {A} query k.
Arguments AwaitGetCardsInfo {A} cards k.

(** The requests a run sent to the client, oldest first. *)
Inductive Call :=
| CalledFindCards (query : jsstring)
| CalledGetCardsInfo (cards : list Z).

(** Running a computation against a client: the calls made, and the
    way the promise settled.  A rejected request rejects the whole
    computation with the same error. *)
Fixpoint run {A : Type} (client : AnkiConnectClient) (p : Async A)
    (log : list Call) : list Call * (JsError + A) :=
  match p with
  | Resolve a => (log, inr a)
  | Reject e => (log, inl e)
  | AwaitFindCards query k =>
    match findCards client query with
    | inl e => (log ++ [CalledFindCards query], inl e)
    | inr ids => run client (k ids) (log ++ [CalledFindCards query])
    end
  | AwaitGetCardsInfo cards k =>
    match getCardsInfo client cards with
    | inl e => (log ++ [CalledGetCardsInfo cards], inl e)
    | inr infos => run client (k infos) (log ++ [CalledGetCardsInfo cards])
    end
  end.

(** ** [getPrimaryNoteType] *)

(** A count is a number until the note type is named like a member of
    [Object.prototype]: the inherited function plus 1 is a string. *)
Inductive Count :=
| Number (n : Z)
| Text (s : jsstring).

(** [(noteTypeCounts[card.modelName] || 0) + 1] *)
Definition increment (current : option (PlainObject.Slot Count)) : Count :=
  match current with
  | Some (PlainObject.Own (Number n)) =>
    if (n =? 0)%Z then Number (0 + 1) else Number (n + 1)
  | Some (PlainObject.Own (Text s)) =>
    if truthy s then Text (s ++ js "1") else Number (0 + 1)
  | Some (PlainObject.Inherited name) =>
    Text (PlainObject.memberText name ++ js "1")
  | None => Number (0 + 1)
  end.

Definition countStep (noteTypeCounts : dict Count) (card : AnkiCard)
    : dict Count :=
  PlainObject.assign (modelName card)
    (increment (PlainObject.read (modelName card) noteTypeCounts))
    noteTypeCounts.

(** [count > maxCount]: a text that starts with the text of a built-in
    is not a number, and the comparison with [NaN] is false. *)
Definition maxStep (acc : jsstring * Z) (entry : jsstring * Count)
    : jsstring * Z :=
  let '(noteType, count) := entry in
  match count with
  | Number n => if (snd acc <? n)%Z then (noteType, n) else acc
  | Text _ => acc
  end.

Definition getPrimaryNoteType (cards : list AnkiCard) : jsstring :=
  let noteTypeCounts := fold_left countStep cards empty in
  fst (fold_left maxStep (entries noteTypeCounts) ([], 0%Z)).

(** ** [getFieldSamples] *)

Definition truncate (value : jsstring) : jsstring :=
  if (50 <? length value)%nat then substring0 value 50 else value.

(** The [TypeError] of calling [push] on a built-in function. *)
Definition pushIsNotAFunction : JsError :=
  Error (js "fieldSamples[fieldName].push is not a function").

(** The [TypeError] of reading [push] from [undefined]. *)
Definition pushOfUndefined : JsError :=
  Error (js "Cannot read properties of undefined (reading 'push')").

Definition sampleStep (fieldSamples : dict (list jsstring))
    (entry : jsstring * FieldData) : JsError + dict (list jsstring) :=
  let '(fieldName, fieldData) := entry in
  let fieldSamples1 :=
    match PlainObject.read fieldName fieldSamples with
    | Some _ => fieldSamples
    | None => PlainObject.assign fieldName [] fieldSamples
    end in
  if truthy (value fieldData)
     && negb (bool_decide (trim (value fieldData) = []))
  then
    match PlainObject.read fieldName fieldSamples1 with
    | Some (PlainObject.Own samples) =>
      inr (set fieldName (samples ++ [truncate (value fieldData)])
             fieldSamples1)
    | Some (PlainObject.Inherited _) => inl pushIsNotAFunction
    | None => inl pushOfUndefined
    end
  else inr fieldSamples1.

(** A loop that an exception leaves. *)
Definition forEach {A S : Type} (body : S -> A -> JsError + S)
    (items : list A) (start : S) : JsError + S :=
  fold_left
    (fun state item =>
       match state with
       | inl thrown => inl thrown
       | inr st => body st item
       end)
    items (inr start).

Definition cardStep (fieldSamples : dict (list jsstring))
    (card : AnkiCard) : JsError + dict (list jsstring) :=
  forEach sampleStep (entries (cardFields card)) fieldSamples.

Definition getFieldSamples (cards : list AnkiCard)
    : JsError + dict (list jsstring) :=
  forEach cardStep cards empty.

(** ** [analyzeFieldContent] *)

Definition slash : N := 0x2F%N.

(** Is there a slash ahead with no line terminator before it? *)
Fixpoint slashAhead (s : jsstring) : bool :=
  match s with
  | [] => false
  | c :: s' =>
    if bool_decide (c = slash) then true
    else if isLineTerminator c then false
    else slashAhead s'
  end.

(** The regular expression: a slash, any run of characters other than
    line terminators, a slash; tested anywhere in the string. *)
Fixpoint slashDelimited (s : jsstring) : bool :=
  match s with
  | [] => false
  | c :: s' => (bool_decide (c = slash) && slashAhead s') || slashDelimited s'
  end.

Definition analyzeFieldContent `{Host} (fieldName : jsstring)
    (samples : list jsstring) : jsstring :=
  let fieldLower := toLowerCase fieldName in
  let contentSample := toLowerCase (join (js " ") samples) in
  if includes fieldLower (js "expression")
     || includes fieldLower (js "pronunciation")
  then js "English expressions or pronunciation"
  else if includes fieldLower (js "phonetic")
          || includes fieldLower (js "pronunciation")
  then js "Pronunciation or phonetic information"
  else if includes fieldLower (js "example")
          || includes fieldLower (js "sentence")
  then js "Usage examples or sample sentences"
  else if includes fieldLower (js "meaning")
          || includes fieldLower (js "translation")
  then js "Meaning or translation"
  else if includes fieldLower (js "explanation")
          || includes fieldLower (js "description")
  then js "Detailed explanation or description"
  else if includes fieldLower (js "grammar")
  then js "Grammar information"
  else if includes fieldLower (js "synonym")
          || includes fieldLower (js "related")
  then js "Synonyms or related words"
  else if includes fieldLower (js "collocation")
  then js "Word collocations"
  else if slashDelimited contentSample
  then js "Likely pronunciation symbols"
  else if includes contentSample (js "example:")
          || includes contentSample (js "usage:")
  then js "Examples or usage demonstrations"
  else if existsb (fun s => (100 <? length s)%nat) samples
  then js "Long detailed explanations"
  else if existsb (fun s => (length s <? 20)%nat) samples
  then js "Short words or phrases"
  else js "General content (purpose unclear)".

(** [analysis[fieldName] = ...] for the keys of [fieldSamples] in their
    enumeration order.  The keys of an object never repeat and come
    with the array indices first, in ascending order, and the sample
    sets [getFieldSamples] builds never have the key [__proto__]; so
    each assignment adds its key after the keys that are there. *)
Definition analyzeFields `{Host} (fieldSamples : dict (list jsstring))
    : dict jsstring :=
  fold_left
    (fun analysis '(fieldName, samples) =>
       set fieldName (analyzeFieldContent fieldName samples) analysis)
    (entries fieldSamples) empty.

(** ** [generateReport] *)

(** What the template literals of the report end their lines with:
    an escaped backslash followed by n, that is, two code units. *)
Definition lineEnd : jsstring := [0x5C; 0x6E]%N.

(** The connective of a mapping line as the source file holds it: the
    code units U+00E2, U+2020, U+2019. *)
Definition mappingArrow : jsstring := [0xE2; 0x2020; 0x2019]%N.

Definition fieldLineStep (report : jsstring)
    (entry : jsstring * jsstring) : jsstring :=
  let '(field, analysis) := entry in
  report ++ (js "- " ++ field ++ js ": " ++ analysis ++ lineEnd).

Definition mappingLineStep (report : jsstring)
    (entry : jsstring * jsstring) : jsstring :=
  let '(semantic, field) := entry in
  report ++ (js "- " ++ semantic ++ js " " ++ mappingArrow ++ js " "
             ++ field ++ lineEnd).

Definition generateReport (analysisResult : DeckAnalysisResult)
    : jsstring :=
  let report := js "=== Deck Analysis Report ===" ++ lineEnd ++ lineEnd in
  let report := report ++ (js "Deck: " ++ deckName analysisResult ++ lineEnd) in
  let report :=
    report ++ (js "Sample size: "
               ++ numberToString (sampleSize analysisResult) ++ lineEnd) in
  let report :=
    report ++ (js "Primary note type: "
               ++ primaryNoteType analysisResult ++ lineEnd ++ lineEnd) in
  let report := report ++ (js "Field Analysis:" ++ lineEnd) in
  let report :=
    fold_left fieldLineStep (entries (fieldAnalysis analysisResult)) report in
  let report :=
    report ++ (lineEnd ++ js "Suggested Semantic Mappings:" ++ lineEnd) in
  if (length (keys (suggestedMappings analysisResult)) =? 0)%nat
  then report ++ (js "No semantic mappings suggested" ++ lineEnd)
  else fold_left mappingLineStep
         (entries (suggestedMappings analysisResult)) report.

(** ** [analyzeDeck] *)

Definition quote : N := 0x22%N.

Definition deckQuery (deckName : jsstring) : jsstring :=
  js "deck:" ++ [quote] ++ deckName ++ [quote].

(** [new Error(`Deck "${deckName}" contains no cards`)] *)
Definition CollectionEmpty (deckName : jsstring) : JsError :=
  Error (js "Deck " ++ [quote] ++ deckName ++ [quote]
         ++ js " contains no cards").

(** [ids.slice(0, n)] for an integer [n]; a negative [n] counts from
    the end of the array. *)
Definition slice0 {A : Type} (ids : list A) (n : Z) : list A :=
  let len := Z.of_nat (length ids) in
  let stop := if (n <? 0)%Z then Z.max (len + n) 0 else Z.min n len in
  take (Z.to_nat stop) ids.

Definition analyzeDeck `{Host} (fieldMapper : FieldMapperPort)
    (deckName : jsstring) (sampleSizeArg : option Z)
    : Async DeckAnalysisResult :=
  let sampleSize := default 5%Z sampleSizeArg in
  AwaitFindCards (deckQuery deckName) (fun cardIds =>
    if (length cardIds =? 0)%nat
    then Reject (CollectionEmpty deckName)
    else
      let actualSampleSize :=
        Z.min sampleSize (Z.of_nat (length cardIds)) in
      let sampleCardIds := slice0 cardIds actualSampleSize in
      AwaitGetCardsInfo sampleCardIds (fun cardsInfo =>
        let primaryNoteType := getPrimaryNoteType cardsInfo in
        match getFieldSamples cardsInfo with
        | inl thrown => Reject thrown
        | inr fieldSamples =>
          let fieldAnalysis := analyzeFields fieldSamples in
          let mockNoteType :=
            {| name := primaryNoteType; fields := keys fieldSamples |} in
          let suggestedMappings :=
            suggestMappings fieldMapper mockNoteType in
          Resolve {| Types.deckName := deckName;
                     Types.sampleSize := actualSampleSize;
                     Types.primaryNoteType := primaryNoteType;
                     Types.fieldAnalysis := fieldAnalysis;
                     Types.suggestedMappings := suggestedMappings |}
        end)).

End DeckAnalyzer.

(* ------------------------------------------------------------------ *)
(** ** The statements the embedding is compared with

    Definitions that follow the wording of the specification rather than
    the source; the separators and the treatment of an empty field name
    are parameters or are spelled out, so that both the specification's
    reading and the behaviour of the code can be stated with them. *)
(* ------------------------------------------------------------------ *)

Module Spec.
Import JsString JsObject Types.

(** *** ContentApplier *)

(** A pair of the content map contributes to the target [f] when its
    label is mapped to [f], [f] is a field name the applier can
    address (not the empty string) and its text is not blank. *)
Definition contributes (mapping : dict jsstring) (f : jsstring)
    (entry : jsstring * jsstring) : bool :=
  truthy f
  && bool_decide (get (fst entry) mapping = Some f)
  && negb (isBlank (snd entry)).

Definition contributions (mapping content : dict jsstring)
    (f : jsstring) : list jsstring :=
  map snd (List.filter (contributes mapping f) content).

(** The value of the target [f]: absent without contributions,
    otherwise the contributions in content order, [sep] between two
    consecutive ones. *)
Definition mergedText (sep : jsstring) (mapping content : dict jsstring)
    (f : jsstring) : option jsstring :=
  match contributions mapping content f with
  | [] => None
  | texts => Some (join sep texts)
  end.

(** The line feed, U+000A. *)
Definition newline : jsstring := [0x0A]%N.

(** *** ReportFormatter *)

(** The rightwards arrow, U+2192. *)
Definition arrow : jsstring := [0x2192]%N.

Definition fieldLine (entry : jsstring * jsstring) : jsstring :=
  js "- " ++ fst entry ++ js ": " ++ snd entry.

Definition mappingLine (connective : jsstring)
    (entry : jsstring * jsstring) : jsstring :=
  js "- " ++ fst entry ++ js " " ++ connective ++ js " " ++ snd entry.

(** The lines of the report, section after section. *)
Definition reportLines (connective : jsstring) (r : DeckAnalysisResult)
    : list jsstring :=
  [ js "=== Deck Analysis Report ==="; [];
    js "Deck: " ++ deckName r;
    js "Sample size: " ++ numberToString (sampleSize r);
    js "Primary note type: " ++ primaryNoteType r; [];
    js "Field Analysis:" ]
  ++ map fieldLine (fieldAnalysis r)
  ++ [ []; js "Suggested Semantic Mappings:" ]
  ++ match suggestedMappings r with
     | [] => [ js "No semantic mappings suggested" ]
     | m => map (mappingLine connective) m
     end.

(** A document: every line followed by the line terminator. *)
Definition document (terminator : jsstring) (lines : list jsstring)
    : jsstring :=
  concat (map (fun line => line ++ terminator) lines).

Definition reportLayout (terminator connective : jsstring)
    (r : DeckAnalysisResult) : jsstring :=
  document terminator (reportLines connective r).

(** *** FieldMatcher *)

Import FieldMapper.

(** The candidate confidence one keyword gives a field, exact
    equality apart: [0.8] when the field contains a keyword longer
    than two, [0.6] when the keyword contains a field of four or more
    that is at most three shorter. *)
Definition candidate (fieldLower keywordLower : jsstring) : Q :=
  Math_max
    (if includes fieldLower keywordLower
        && (2 <? length keywordLower)%nat
     then 0.8%Q else 0%Q)
    (if includes keywordLower fieldLower
        && (4 <=? length fieldLower)%nat
        && (length keywordLower <=? length fieldLower + 3)%nat
     then 0.6%Q else 0%Q).

Definition fieldConfidence_spec `{Host} (field : jsstring)
    (keywords : list jsstring) : Q :=
  if existsb
       (fun keyword =>
          bool_decide (toLowerCase field = toLowerCase keyword))
       keywords
  then 1.0%Q
  else foldr Math_max 0%Q
         (map (fun keyword =>
                 candidate (toLowerCase field) (toLowerCase keyword))
              keywords).

(** The fields the matcher looks at: those not used, in declared
    order. *)
Definition unusedFields (fields : list jsstring)
    (usedFields : gset jsstring) : list jsstring :=
  List.filter (fun f => negb (bool_decide (f ∈ usedFields))) fields.

(** [f] with confidence [c] is the best match: [c] is positive, no
    unused field does better, and every unused field declared before
    [f] does strictly worse. *)
Definition isBestMatch `{Host} (fields keywords : list jsstring)
    (usedFields : gset jsstring) (f : jsstring) (c : Q) : Prop :=
  c = fieldConfidence f keywords /\ (0 < c)%Q /\
  exists before after,
    unusedFields fields usedFields = before ++ f :: after /\
    Forall (fun g => (fieldConfidence g keywords < c)%Q) before /\
    Forall (fun g => (fieldConfidence g keywords <= c)%Q) after.

(** No keyword of any pattern matches any field of the schema. *)
Definition noKeywordMatches `{Host} (noteType : AnkiNoteType) : Prop :=
  forall pattern f,
    pattern ∈ patterns -> f ∈ fields noteType ->
    fieldConfidence f (keywords pattern) = 0%Q.

(** *** SuggestionRanker *)

Definition labels (suggestions : list FieldMappingSuggestion)
    : list jsstring :=
  map Types.semantic suggestions.

(** The fallback rule: when [label] has no entry and a field is
    unused, the first unused field in declared order is assigned with
    confidence [0.3].  With [nonEmptyOnly], the rule does nothing when
    that field is the empty string. *)
Definition fallbackRule (nonEmptyOnly : bool) (label : jsstring)
    (noteType : AnkiNoteType) (st : SugState) : SugState :=
  if bool_decide (label ∈ labels (fst st)) then st
  else
    match findUnused (fields noteType) (snd st) with
    | Some f =>
      if nonEmptyOnly && negb (truthy f) then st
      else (fst st ++ [ {| Types.semantic := label; field := f;
                           confidence := 0.3%Q |} ],
            {[ f ]} ∪ snd st)
    | None => st
    end.

Definition suggestionDetailsRule `{Host} (nonEmptyOnly : bool)
    (noteType : AnkiNoteType) : list FieldMappingSuggestion :=
  fst (fallbackRule nonEmptyOnly (js "secondary") noteType
         (fallbackRule nonEmptyOnly (js "primary") noteType
            (detailsPass noteType))).

(** *** MappingValidator *)

Definition targetMissing (noteType : AnkiNoteType)
    (mapping : dict jsstring) : Prop :=
  exists label f, (label, f) ∈ mapping /\ f ∉ fields noteType.

Definition targetShared (mapping : dict jsstring) : Prop :=
  exists (i j : nat) label1 label2 f,
    i <> j /\ mapping !! i = Some (label1, f)
    /\ mapping !! j = Some (label2, f).

(** *** DeckSampler: the field samples *)

Definition declares (fieldName : jsstring) (card : AnkiCard) : bool :=
  existsb (fun entry => bool_decide (fst entry = fieldName))
          (cardFields card).

(** The values of [fieldName] in one card that are not blank. *)
Definition nonBlankValues (fieldName : jsstring) (card : AnkiCard)
    : list jsstring :=
  map (fun entry => value (snd entry))
      (List.filter
         (fun entry => bool_decide (fst entry = fieldName)
                       && negb (isBlank (value (snd entry))))
         (cardFields card)).

Definition first50 (v : jsstring) : jsstring :=
  if (50 <? length v)%nat then take 50 v else v.

Definition samplesOf (fieldName : jsstring) (cards : list AnkiCard)
    : list jsstring :=
  map first50 (flat_map (nonBlankValues fieldName) cards).

End Spec.

(* ------------------------------------------------------------------ *)
(** ** Loop invariants and accumulators used by the proofs *)
(* ------------------------------------------------------------------ *)

Module Loops.
Import JsString JsObject Types FieldMapper DeckAnalyzer Spec.

(** The accumulated value of one target after more contributions. *)
Definition mergeInto (previous : option jsstring) (texts : list jsstring)
    : option jsstring :=
  fold_left
    (fun acc text =>
       match acc with
       | Some current =>
         if truthy current
         then Some (current ++ mergeSeparator ++ text)
         else Some text
       | None => Some text
       end)
    texts previous.

(** What [result[f]] reads as a string. *)
Definition readText (f : jsstring) (result : dict jsstring)
    : option jsstring :=
  option_map PlainObject.text (PlainObject.read f result).

(** The values [confidence] takes while the keyword loop has not met
    an exact match. *)
Definition tier (q : Q) : Prop := q = 0%Q \/ q = 0.6%Q \/ q = 0.8%Q.

(** *** The invariant of the resolver's loops

    Every assigned field is a field of the schema and is marked used,
    and no field is assigned twice. *)
Definition resolverInv (noteType : AnkiNoteType) (st : MapState) : Prop :=
  Forall (fun f => f ∈ fields noteType /\ f ∈ snd st) (map snd (fst st))
  /\ NoDup (map snd (fst st)).

(** Every suggested field is marked used. *)
Definition rankerInv (st : SugState) : Prop :=
  Forall (fun s => field s ∈ snd st) (fst st).

(** The sample set never holds a key that names a member of
    [Object.prototype]. *)
Definition ordinaryKeys {V : Type} (o : dict V) : Prop :=
  forall k, k ∈ PlainObject.memberNames -> get k o = None.

(** What one field of a card does to the sample list of [k]. *)
Definition sampleInto (k : jsstring) (samples : option (list jsstring))
    (entry : jsstring * FieldData) : option (list jsstring) :=
  if bool_decide (fst entry = k)
  then Some (default [] samples
             ++ if isBlank (value (snd entry)) then []
                else [first50 (value (snd entry))])
  else samples.

(** What one card does to the count of [noteType]. *)
Definition countInto (noteType : jsstring) (current : option Count)
    (card : AnkiCard) : option Count :=
  if bool_decide (modelName card = noteType)
  then Some (increment
               (match current with
                | Some count => Some (PlainObject.Own count)
                | None =>
                  if bool_decide (noteType ∈ PlainObject.memberNames)
                  then Some (PlainObject.Inherited noteType) else None
                end))
  else current.

End Loops.

(* ------------------------------------------------------------------ *)
(** ** Inputs the properties are evaluated on *)
(* ------------------------------------------------------------------ *)

Definition frontTwice : dict jsstring :=
  [ (JsString.js "primary", JsString.js "Front");
    (JsString.js "secondary", JsString.js "Front") ].

Definition twoTexts : dict jsstring :=
  [ (JsString.js "primary", JsString.js "P");
    (JsString.js "secondary", JsString.js "S") ].

(** Two labels mapped to the empty field name. *)
Definition emptyTargets : dict jsstring :=
  [ (JsString.js "primary", []); (JsString.js "secondary", []) ].

(** A note type whose first field has the empty name. *)
Definition unnamedField : Types.AnkiNoteType :=
  {| Types.name := JsString.js "Custom";
     Types.fields := [ []; JsString.js "Zzz" ] |}.

Definition resultWithoutMappings : Types.DeckAnalysisResult :=
  {| Types.deckName := JsString.js "TestDeck";
     Types.sampleSize := 1;
     Types.primaryNoteType := JsString.js "Basic";
     Types.fieldAnalysis :=
       [ (JsString.js "Field1", JsString.js "Unknown content") ];
     Types.suggestedMappings := [] |}.

Definition cardsWithBlankBack : list Types.AnkiCard :=
  [ {| Types.cardId := 1;
       Types.cardFields :=
         [ (JsString.js "Front",
            {| Types.value := JsString.js "Question"; Types.order := 0 |});
           (JsString.js "Back",
            {| Types.value := JsString.js "  "; Types.order := 1 |}) ];
       Types.modelName := JsString.js "Basic" |} ].

(** A card with a field named [constructor], its value blank. *)
Definition cardsWithConstructor : list Types.AnkiCard :=
  [ {| Types.cardId := 1;
       Types.cardFields :=
         [ (JsString.js "Front",
            {| Types.value := JsString.js "Question"; Types.order := 0 |});
           (JsString.js "constructor",
            {| Types.value := []; Types.order := 1 |}) ];
       Types.modelName := JsString.js "Basic" |} ].

(** The same card with a text in that field. *)
Definition cardsWithConstructorText : list Types.AnkiCard :=
  [ {| Types.cardId := 1;
       Types.cardFields :=
         [ (JsString.js "Front",
            {| Types.value := JsString.js "Question"; Types.order := 0 |});
           (JsString.js "constructor",
            {| Types.value := JsString.js "x"; Types.order := 1 |}) ];
       Types.modelName := JsString.js "Basic" |} ].

Definition emptyDeckClient : DeckAnalyzer.AnkiConnectClient :=
  {| DeckAnalyzer.findCards := fun _ => inr [];
     DeckAnalyzer.getCardsInfo := fun _ => inr [] |}.


(* ------------------------------------------------------------------ *)
(** ** Parsed JSON documents *)
(* ------------------------------------------------------------------ *)

Module Json.
Import JsString.

(** The values [JSON.parse] produces.  The members of an object are in
    insertion order and their keys are distinct. *)
#[warnings="-register-all"] Inductive JsonValue : Type :=
| JNull
| JBool (b : bool)
| JNumber (q : Q)
| JString (s : jsstring)
| JArray (items : list JsonValue)
| JObject (members : list (jsstring * JsonValue)).

(** [!!v] *)
Definition truthy (v : JsonValue) : bool :=
  match v with
  | JNull => false
  | JBool b => b
  | JNumber q => negb (Qeq_bool q 0)
  | JString s => JsString.truthy s
  | JArray _ | JObject _ => true
  end.

(** [typeof v], where [None] stands for [undefined]. *)
Definition typeof (v : option JsonValue) : jsstring :=
  match v with
  | None => js "undefined"
  | Some JNull => js "object"
  | Some (JBool _) => js "boolean"
  | Some (JNumber _) => js "number"
  | Some (JString _) => js "string"
  | Some (JArray _) | Some (JObject _) => js "object"
  end.

Definition isNull (v : option JsonValue) : bool :=
  match v with Some JNull => true | _ => false end.

(** [Array.isArray(v)] *)
Definition isArray (v : option JsonValue) : bool :=
  match v with Some (JArray _) => true | _ => false end.

(** [v.key] for a value that is not [null] and a key that is neither an
    array index nor the name of an inherited property: the member of an
    object, [undefined] otherwise. *)
Definition member (key : jsstring) (v : JsonValue) : option JsonValue :=
  match v with
  | JObject members => JsObject.get key members
  | _ => None
  end.

End Json.

(* ------------------------------------------------------------------ *)
(** ** ConfigurationManager (src/services/configuration-manager.ts) *)
(* ------------------------------------------------------------------ *)

Module ConfigurationManager.
Import JsString Json.

(** [validateConfig] *)
Definition validateConfig (config : JsonValue) : bool :=
  if negb (Json.truthy config)
     || negb (bool_decide (typeof (Some config) = js "object"))
  then false
  else
    let candidate := config in
    bool_decide (typeof (member (js "preferredDeck") candidate)
                 = js "string")
    && bool_decide (typeof (member (js "preferredNoteType") candidate)
                    = js "string")
    && bool_decide (typeof (member (js "fieldMappings") candidate)
                    = js "object")
    && negb (isNull (member (js "fieldMappings") candidate))
    && negb (isArray (member (js "fieldMappings") candidate)).

(** [getDefaultConfig] *)
Definition getDefaultConfig : JsonValue :=
  JObject
    [ (js "preferredDeck", JString (js "Default"));
      (js "preferredNoteType", JString (js "Basic"));
      (js "fieldMappings",
       JObject [ (js "primary", JString (js "Front"));
                 (js "secondary", JString (js "Back")) ]) ].

(** What [loadConfig] asks of its surroundings: the content of the
    configuration file, when it can be read, and [JSON.parse]. *)
Record Disk := {
  readFile : DeckAnalyzer.JsError + jsstring;
  JSON_parse : jsstring -> DeckAnalyzer.JsError + JsonValue;
}.

Definition invalidFormat : jsstring :=
  js "Invalid configuration file format, using defaults".

Definition unreadable : jsstring :=
  js "Configuration file not found or unreadable, using defaults".

(** [loadConfig]: the lines written with [console.error], and the
    configuration the promise is fulfilled with. *)
Definition loadConfig (disk : Disk) : list jsstring * JsonValue :=
  match readFile disk with
  | inl _ => ([unreadable], getDefaultConfig)
  | inr configData =>
    match JSON_parse disk configData with
    | inl _ => ([unreadable], getDefaultConfig)
    | inr config =>
      if validateConfig config then ([], config)
      else ([invalidFormat], getDefaultConfig)
    end
  end.

End ConfigurationManager.

(* ------------------------------------------------------------------ *)
(** ** AnkiConnectClient (src/services/anki-connect-client.ts)

    [sendRequest] and the two methods that do more than forward to it.
    What [fetch] and [response.json()] give for a request is either the
    parsed body or the error they throw, which is an [Error]. *)
(* ------------------------------------------------------------------ *)

Module AnkiConnectClient.
Import JsString.

(** [AnkiConnectResponse<T>] *)
Record AnkiConnectResponse (T : Type) := {
  result : T;
  error : option jsstring;
}.

Arguments result {T} _.
Arguments error {T} _.

(** The answers of AnkiConnect to the actions used below. *)
Record Transport := {
  modelNames : DeckAnalyzer.JsError + AnkiConnectResponse (list jsstring);
  modelFieldNames :
    jsstring -> DeckAnalyzer.JsError + AnkiConnectResponse (list jsstring);
  createDeckAction :
    jsstring -> DeckAnalyzer.JsError + AnkiConnectResponse unit;
}.

(** The requests sent, oldest first. *)
Inductive Request :=
| SentModelNames
| SentModelFieldNames (modelName : jsstring)
| SentCreateDeck (deck : jsstring).

(** [sendRequest], applied to the answer to its request. *)
Definition sendRequest {T : Type}
    (answer : DeckAnalyzer.JsError + AnkiConnectResponse T)
    : DeckAnalyzer.JsError + T :=
  match answer with
  | inl thrown => inl thrown
  | inr data =>
    if truthyO (error data)
    then inl (DeckAnalyzer.Error
                (js "AnkiConnect error: " ++ default [] (error data)))
    else inr (result data)
  end.

(** The loop of [getNoteTypes]. *)
Fixpoint fieldsLoop (transport : Transport) (noteTypeNames : list jsstring)
    (noteTypes : list Types.AnkiNoteType) (log : list Request)
    : list Request * (DeckAnalyzer.JsError + list Types.AnkiNoteType) :=
  match noteTypeNames with
  | [] => (log, inr noteTypes)
  | name :: rest =>
    match sendRequest (modelFieldNames transport name) with
    | inl e => (log ++ [SentModelFieldNames name], inl e)
    | inr fields =>
      fieldsLoop transport rest
        (noteTypes ++ [ {| Types.name := name; Types.fields := fields |} ])
        (log ++ [SentModelFieldNames name])
    end
  end.

(** [getNoteTypes]: the requests sent and the way the promise
    settles. *)
Definition getNoteTypes (transport : Transport)
    : list Request * (DeckAnalyzer.JsError + list Types.AnkiNoteType) :=
  match sendRequest (modelNames transport) with
  | inl e => ([SentModelNames], inl e)
  | inr noteTypeNames => fieldsLoop transport noteTypeNames [] [SentModelNames]
  end.

Definition alreadyExists : jsstring := js "deck already exists".

(** [createDeck] *)
Definition createDeck (transport : Transport) (deckName : jsstring)
    : list Request * (DeckAnalyzer.JsError + unit) :=
  match sendRequest (createDeckAction transport deckName) with
  | inr _ => ([SentCreateDeck deckName], inr tt)
  | inl (DeckAnalyzer.Error message) =>
    if includes message alreadyExists
    then ([SentCreateDeck deckName], inr tt)
    else ([SentCreateDeck deckName], inl (DeckAnalyzer.Error message))
  end.

End AnkiConnectClient.

(* ------------------------------------------------------------------ *)
(** ** AnkiMCPServer (src/services/anki-mcp-server.ts)

    The tool methods of the server.  The four collaborators handed to
    the constructor are records of functions; a method is a computation
    over the two private fields of the server ([userConfig],
    [availableNoteTypes]) that logs the requests it awaits and either
    returns or throws.  Lines written with [console.error] are not
    modelled. *)
(* ------------------------------------------------------------------ *)

(** [JSON.stringify(mappings, null, 2)] as a template interpolates it,
    where [None] stands for [undefined]. *)
Class JsonHost := { JSON_stringify : option (dict jsstring) -> jsstring }.

Module AnkiMCPServer.
Import JsString JsObject.

(** *** Types ([src/types]) *)

Record UserConfig := {
  preferredDeck : jsstring;
  preferredNoteType : jsstring;
  fieldMappings : dict jsstring;
}.

Record AnkiNote := {
  deckName : jsstring;
  modelName : jsstring;
  fields : dict jsstring;
  tags : list jsstring;
}.

(** One entry of [content]; its [type] is always ['text']. *)
Record TextContent := { text : jsstring }.

Record ToolResponse := { content : list TextContent }.

Module ConfigureAnkiSetupArgs.
Record t := {
  deck : jsstring;
  noteType : jsstring;
  fieldMappings : option (dict jsstring);
}.
End ConfigureAnkiSetupArgs.

Module AddSmartCardArgs.
Record t := {
  content : dict jsstring;
  deck : option jsstring;
  noteType : option jsstring;
  tags : option (list jsstring);
}.
End AddSmartCardArgs.

Module SuggestFieldMappingArgs.
Record t := { noteType : jsstring }.
End SuggestFieldMappingArgs.

Module AnalyzeExistingDeckArgs.
Record t := { deck : jsstring; sampleSize : option Z }.
End AnalyzeExistingDeckArgs.

Module AutoConfigureFromDeckArgs.
Record t := { deck : jsstring; confirm : option bool }.
End AutoConfigureFromDeckArgs.

(** *** The collaborators *)

Record AnkiConnectClient := {
  getDeckNames : DeckAnalyzer.JsError + list jsstring;
  getNoteTypes : DeckAnalyzer.JsError + list Types.AnkiNoteType;
  createDeck : jsstring -> DeckAnalyzer.JsError + unit;
  addNote : AnkiNote -> DeckAnalyzer.JsError + Z;
  findCards : jsstring -> DeckAnalyzer.JsError + list Z;
  (** an id is [None] where the array holds [undefined] *)
  getCardsInfo : list (option Z) -> DeckAnalyzer.JsError + list Types.AnkiCard;
}.

Record ConfigurationManager := {
  loadConfig : DeckAnalyzer.JsError + UserConfig;
  saveConfig : UserConfig -> DeckAnalyzer.JsError + unit;
  getConfigPath : jsstring;
}.

Record FieldMapper := {
  applyMapping : dict jsstring -> dict jsstring -> dict jsstring;
  suggestMappings : Types.AnkiNoteType -> dict jsstring;
}.

Record DeckAnalyzer := {
  analyzeDeck :
    jsstring -> option Z -> DeckAnalyzer.JsError + Types.DeckAnalysisResult;
  generateReport : Types.DeckAnalysisResult -> jsstring;
}.

Record Collaborators := {
  ankiClient : AnkiConnectClient;
  configManager : ConfigurationManager;
  fieldMapper : FieldMapper;
  deckAnalyzer : DeckAnalyzer;
}.

(** *** Computations of the server *)

Record ServerState := {
  userConfig : option UserConfig;
  availableNoteTypes : list Types.AnkiNoteType;
}.

(** A fresh server: [userConfig = null], [availableNoteTypes = []]. *)
Definition initial : ServerState :=
  {| userConfig := None; availableNoteTypes := [] |}.

(** The requests awaited, oldest first. *)
Inductive Call :=
| CalledGetNoteTypes
| CalledLoadConfig
| CalledCreateDeck (deck : jsstring)
| CalledSaveConfig (config : UserConfig)
| CalledAddNote (note : AnkiNote)
| CalledAnalyzeDeck (deck : jsstring) (sampleSize : option Z)
| CalledFindCards (query : jsstring)
| CalledGetCardsInfo (cards : list (option Z)).

(** What a method can throw: an [Error] (its own, or one a collaborator
    rejected with), or the [TypeError] of reading a property of
    [undefined] or [null]. *)
Inductive Thrown :=
| ThrownError (e : DeckAnalyzer.JsError)
| ThrownTypeError.

Definition M (A : Type) : Type :=
  ServerState -> list Call -> ServerState * list Call * (Thrown + A).

Definition ret {A : Type} (a : A) : M A :=
  fun st log => (st, log, inr a).

Definition bind {A B : Type} (m : M A) (k : A -> M B) : M B :=
  fun st log =>
    match m st log with
    | (st', log', inl e) => (st', log', inl e)
    | (st', log', inr a) => k a st' log'
    end.

Definition throw {A : Type} (e : Thrown) : M A :=
  fun st log => (st, log, inl e).

(** [try { m } catch (error) { handler }] *)
Definition catch {A : Type} (m : M A) (handler : Thrown -> M A) : M A :=
  fun st log =>
    match m st log with
    | (st', log', inl e) => handler e st' log'
    | settled => settled
    end.

Definition getState : M ServerState :=
  fun st log => (st, log, inr st).

Definition putState (st : ServerState) : M unit :=
  fun _ log => (st, log, inr tt).

(** [await] of a request: it is logged, and a rejection is thrown. *)
Definition await {A : Type} (call : Call)
    (answer : DeckAnalyzer.JsError + A) : M A :=
  fun st log =>
    match answer with
    | inl e => (st, log ++ [call], inl (ThrownError e))
    | inr a => (st, log ++ [call], inr a)
    end.

Declare Scope server_scope.
Delimit Scope server_scope with server.
Notation "'let!' x := m 'in' k" := (bind m (fun x => k))
  (at level 10, x name, m at level 100, k at level 200) : server_scope.
Notation "'do!' m 'in' k" := (bind m (fun _ => k))
  (at level 10, m at level 100, k at level 200) : server_scope.
Local Open Scope server_scope.

Section Methods.
Context `{JsonHost} (this : Collaborators).

(** What the template literals of the server end their lines with: an
    escaped backslash followed by n. *)
Definition lineEnd : jsstring := [0x5C; 0x6E]%N.

(** [initializeUserConfig] *)
Definition initializeUserConfig : M unit :=
  let! st := getState in
  match userConfig st with
  | None =>
    let! noteTypes :=
      await CalledGetNoteTypes (getNoteTypes (ankiClient this)) in
    let! st := getState in
    do! putState {| userConfig := userConfig st;
                    availableNoteTypes := noteTypes |} in
    let! config := await CalledLoadConfig (loadConfig (configManager this)) in
    let! st := getState in
    putState {| userConfig := Some config;
                availableNoteTypes := availableNoteTypes st |}
  | Some _ => ret tt
  end.

(** [configureAnkiSetup] *)
Definition configureAnkiSetup (args : ConfigureAnkiSetupArgs.t)
    : M ToolResponse :=
  do! initializeUserConfig in
  do! catch (await (CalledCreateDeck (ConfigureAnkiSetupArgs.deck args))
               (createDeck (ankiClient this)
                  (ConfigureAnkiSetupArgs.deck args)))
        (fun error => ret tt) in
  let! st := getState in
  let config :=
    {| preferredDeck := ConfigureAnkiSetupArgs.deck args;
       preferredNoteType := ConfigureAnkiSetupArgs.noteType args;
       fieldMappings :=
         match ConfigureAnkiSetupArgs.fieldMappings args with
         | Some mappings => mappings
         | None =>
           match userConfig st with
           | Some previous => fieldMappings previous
           | None => JsObject.empty
           end
         end |} in
  do! putState {| userConfig := Some config;
                  availableNoteTypes := availableNoteTypes st |} in
  do! await (CalledSaveConfig config)
            (saveConfig (configManager this) config) in
  ret {| content :=
           [ {| text :=
                  (js "Anki configuration updated:" ++ lineEnd)
                  ++ (js "Deck: " ++ ConfigureAnkiSetupArgs.deck args
                      ++ lineEnd)
                  ++ (js "Note type: " ++ ConfigureAnkiSetupArgs.noteType args
                      ++ lineEnd)
                  ++ (js "Configuration file: "
                      ++ getConfigPath (configManager this) ++ lineEnd)
                  ++ (js "Field mappings:" ++ lineEnd
                      ++ JSON_stringify
                           (ConfigureAnkiSetupArgs.fieldMappings args)) |} ]
      |}.

Definition NoFieldsMapped : Thrown :=
  ThrownError
    (DeckAnalyzer.Error
       (js "No fields were mapped. Please check your configuration.")).

(** [addSmartCard] *)
Definition addSmartCard (args : AddSmartCardArgs.t) : M ToolResponse :=
  do! initializeUserConfig in
  let! st := getState in
  match userConfig st with
  | None => throw ThrownTypeError
  | Some config =>
    let deck :=
      if truthyO (AddSmartCardArgs.deck args)
      then default [] (AddSmartCardArgs.deck args)
      else preferredDeck config in
    let noteType :=
      if truthyO (AddSmartCardArgs.noteType args)
      then default [] (AddSmartCardArgs.noteType args)
      else preferredNoteType config in
    let mappedFields :=
      applyMapping (fieldMapper this) (fieldMappings config)
        (AddSmartCardArgs.content args) in
    if (length (keys mappedFields) =? 0)%nat
    then throw NoFieldsMapped
    else
      let note :=
        {| deckName := deck;
           modelName := noteType;
           fields := mappedFields;
           tags := default [] (AddSmartCardArgs.tags args) |} in
      let! noteId :=
        await (CalledAddNote note) (addNote (ankiClient this) note) in
      ret {| content :=
               [ {| text :=
                      (js "Smart card added successfully!" ++ lineEnd)
                      ++ (js "Note ID: " ++ numberToString noteId ++ lineEnd)
                      ++ (js "Deck: " ++ deck ++ lineEnd)
                      ++ (js "Note type: " ++ noteType ++ lineEnd)
                      ++ (js "Mapped fields:" ++ lineEnd
                          ++ join lineEnd
                               (map (fun '(field, value) =>
                                       js "- " ++ field ++ js ": " ++ value)
                                    (entries mappedFields))) |} ] |}
  end.

Definition NoteTypeNotFound (noteType : jsstring) : Thrown :=
  ThrownError
    (DeckAnalyzer.Error
       (js "Note type " ++ [DeckAnalyzer.quote] ++ noteType
        ++ [DeckAnalyzer.quote] ++ js " not found.")).

(** U+2192, the arrow of the suggestion lines. *)
Definition rightArrow : jsstring := [0x2192]%N.

(** [suggestFieldMapping] *)
Definition suggestFieldMapping (args : SuggestFieldMappingArgs.t)
    : M ToolResponse :=
  do! initializeUserConfig in
  let! st := getState in
  match List.find
          (fun nt =>
             bool_decide
               (Types.name nt = SuggestFieldMappingArgs.noteType args))
          (availableNoteTypes st) with
  | None => throw (NoteTypeNotFound (SuggestFieldMappingArgs.noteType args))
  | Some noteType =>
    let suggestions := suggestMappings (fieldMapper this) noteType in
    let suggestionText :=
      js "Recommended field mappings for note type "
      ++ [DeckAnalyzer.quote] ++ SuggestFieldMappingArgs.noteType args
      ++ [DeckAnalyzer.quote] ++ js ":" ++ lineEnd ++ lineEnd in
    let suggestionText :=
      suggestionText
      ++ (js "Available fields: ["
          ++ join (js ", ") (Types.fields noteType)
          ++ js "]" ++ lineEnd ++ lineEnd) in
    let suggestionText :=
      suggestionText ++ (js "Recommended mappings:" ++ lineEnd) in
    let suggestionText :=
      fold_left
        (fun suggestionText '(semantic, field) =>
           suggestionText
           ++ (js "- " ++ semantic ++ js " " ++ rightArrow ++ js " "
               ++ field ++ lineEnd))
        (entries suggestions) suggestionText in
    let suggestionText :=
      suggestionText
      ++ (lineEnd ++ js "Usage:" ++ lineEnd
          ++ js "Use the configure_anki_setup tool to apply these mappings.")
    in
    ret {| content := [ {| text := suggestionText |} ] |}
  end.

(** [args.sampleSize || 5] *)
Definition sampleSizeOr5 (sampleSize : option Z) : Z :=
  match sampleSize with
  | Some n => if (n =? 0)%Z then 5%Z else n
  | None => 5%Z
  end.

(** [analyzeExistingDeck] *)
Definition analyzeExistingDeck (args : AnalyzeExistingDeckArgs.t)
    : M ToolResponse :=
  do! initializeUserConfig in
  let sampleSize :=
    Some (sampleSizeOr5 (AnalyzeExistingDeckArgs.sampleSize args)) in
  let! analysisResult :=
    await (CalledAnalyzeDeck (AnalyzeExistingDeckArgs.deck args) sampleSize)
          (analyzeDeck (deckAnalyzer this)
             (AnalyzeExistingDeckArgs.deck args) sampleSize) in
  let report := generateReport (deckAnalyzer this) analysisResult in
  ret {| content := [ {| text := report |} ] |}.

Definition confirmHint : jsstring :=
  lineEnd ++ lineEnd
  ++ js ("If this configuration looks good, run auto_configure_from_deck"
         ++ " with confirm: true to apply.").

(** [autoConfigureFromDeck] *)
Definition autoConfigureFromDeck (args : AutoConfigureFromDeckArgs.t)
    : M ToolResponse :=
  let! analysis :=
    await (CalledAnalyzeDeck (AutoConfigureFromDeckArgs.deck args) None)
          (analyzeDeck (deckAnalyzer this)
             (AutoConfigureFromDeckArgs.deck args) None) in
  if negb (default false (AutoConfigureFromDeckArgs.confirm args))
  then
    ret {| content :=
             [ {| text :=
                    generateReport (deckAnalyzer this) analysis
                    ++ confirmHint |} ] |}
  else
    let query := DeckAnalyzer.deckQuery (AutoConfigureFromDeckArgs.deck args) in
    let! cardIds := await (CalledFindCards query)
                     (findCards (ankiClient this) query) in
    let! cardsInfo := await (CalledGetCardsInfo [cardIds !! 0])
                       (getCardsInfo (ankiClient this) [cardIds !! 0]) in
    match cardsInfo !! 0 with
    | None => throw ThrownTypeError
    | Some card =>
      let noteType := Types.modelName card in
      configureAnkiSetup
        {| ConfigureAnkiSetupArgs.deck := AutoConfigureFromDeckArgs.deck args;
           ConfigureAnkiSetupArgs.noteType := noteType;
           ConfigureAnkiSetupArgs.fieldMappings :=
             Some (Types.suggestedMappings analysis) |}
    end.

End Methods.

(** Running a method on a server in state [st]: the state it leaves,
    the requests it made, and how its promise settled. *)
Definition run {A : Type} (m : M A) (st : ServerState)
    : ServerState * list Call * (Thrown + A) :=
  m st [].

Definition stateOf {A : Type}
    (settled : ServerState * list Call * (Thrown + A)) : ServerState :=
  fst (fst settled).

Definition logOf {A : Type}
    (settled : ServerState * list Call * (Thrown + A)) : list Call :=
  snd (fst settled).

Definition outcomeOf {A : Type}
    (settled : ServerState * list Call * (Thrown + A)) : Thrown + A :=
  snd settled.

(** *** The wiring of [src/index.ts]

    [main] hands the same client and the same mapper to the analyzer
    and to the server. *)

Definition analyzerClient (client : AnkiConnectClient)
    : DeckAnalyzer.AnkiConnectClient :=
  {| DeckAnalyzer.findCards := findCards client;
     DeckAnalyzer.getCardsInfo := fun ids => getCardsInfo client (map Some ids)
  |}.

Definition production `{Host} (client : AnkiConnectClient)
    (config : ConfigurationManager) : Collaborators :=
  {| ankiClient := client;
     configManager := config;
     fieldMapper :=
       {| applyMapping := FieldMapper.applyMapping;
          suggestMappings := FieldMapper.suggestMappings |};
     deckAnalyzer :=
       {| analyzeDeck := fun deck sampleSize =>
            snd (DeckAnalyzer.run (analyzerClient client)
                   (DeckAnalyzer.analyzeDeck DeckAnalyzer.fieldMapperOf
                      deck sampleSize) []);
          generateReport := DeckAnalyzer.generateReport |} |}.

End AnkiMCPServer.

(* ------------------------------------------------------------------ *)
(** ** Vocabulary of the further properties *)
(* ------------------------------------------------------------------ *)

Module Props.
Import JsString JsObject Types FieldMapper.

(** [field] equals one of the keywords, letter case apart. *)
Definition exactMatch `{Host} (keywords : list jsstring)
    (field : jsstring) : Prop :=
  exists keyword,
    keyword ∈ keywords /\ toLowerCase field = toLowerCase keyword.

(** An assignment backed by a keyword: the pattern labelled [label]
    gives [f] a confidence above 0.5. *)
Definition keywordBacked `{Host} (label f : jsstring) : Prop :=
  exists pattern,
    pattern ∈ patterns /\ semantic pattern = label
    /\ (0.5 < fieldConfidence f (keywords pattern))%Q.

(** The labels of the pattern table. *)
Definition patternLabels : list jsstring := map semantic patterns.

(** A key that is not the name of a member of [Object.prototype]. *)
Definition ordinary (k : jsstring) : Prop := k ∉ PlainObject.memberNames.

(** The key [applyMapping] files the text of a label under: the field
    the label is mapped to or, for a label that is not mapped but names
    a member of [Object.prototype], the text of that member; none when
    there is neither, or when the label is mapped to the empty name. *)
Definition targetKey (mapping : dict jsstring) (label : jsstring)
    : option jsstring :=
  match PlainObject.read label mapping with
  | Some slot =>
    if PlainObject.truthySlot slot then Some (PlainObject.text slot)
    else None
  | None => None
  end.

(** A pair of the content map that [applyMapping] passes over: its label
    has no target key, or the key is [__proto__] (which an assignment
    never creates), or its text is blank. *)
Definition skipped (mapping : dict jsstring)
    (entry : jsstring * jsstring) : Prop :=
  targetKey mapping (fst entry) = None
  \/ targetKey mapping (fst entry) = Some PlainObject.proto
  \/ isBlank (snd entry) = true.

(** The pairs that are not passed over, as a test. *)
Definition passes (mapping : dict jsstring)
    (entry : jsstring * jsstring) : bool :=
  match targetKey mapping (fst entry) with
  | Some key =>
    negb (bool_decide (key = PlainObject.proto)) && negb (isBlank (snd entry))
  | None => false
  end.

(** The texts filed under the key [f], in content order. *)
Definition filedUnder (mapping content : dict jsstring) (f : jsstring)
    : list jsstring :=
  map snd
      (List.filter
         (fun entry =>
            bool_decide (targetKey mapping (fst entry) = Some f)
            && negb (isBlank (snd entry)))
         content).

(** A field of a card on which [getFieldSamples] throws: it is named
    like a member of [Object.prototype] and its value is not blank. *)
Definition breaks (entry : jsstring * FieldData) : bool :=
  bool_decide (fst entry ∈ PlainObject.memberNames)
  && negb (isBlank (value (snd entry))).

Definition breaksCard (card : AnkiCard) : bool :=
  existsb breaks (cardFields card).

(** The content map with every label replaced by its target field, the
    pairs passed over being dropped. *)
Definition relabel (mapping content : dict jsstring) : dict jsstring :=
  omap (fun entry : jsstring * jsstring =>
          match get (fst entry) mapping with
          | Some f =>
            if truthy f && negb (isBlank (snd entry))
            then Some (f, snd entry) else None
          | None => None
          end)
       content.

(** The keys of the resolver's mapping are distinct labels of the
    table. *)
Definition labelsInv (st : MapState) : Prop :=
  NoDup (keys (fst st))
  /\ Forall (fun label => label ∈ patternLabels) (keys (fst st)).

(** Why the resolver may hold an entry: a keyword backs it, or it is
    one of the two positional fallbacks. *)
Definition assignedFor `{Host} (noteType : AnkiNoteType)
    (entry : jsstring * jsstring) : Prop :=
  keywordBacked (fst entry) (snd entry)
  \/ (fst entry = js "primary" /\ fields noteType !! 0 = Some (snd entry))
  \/ (fst entry = js "secondary" /\ fields noteType !! 1 = Some (snd entry)).

(** The four confidences a suggestion can carry. *)
Definition suggestionConfidences : list Q := [1.0%Q; 0.8%Q; 0.6%Q; 0.3%Q].

(** A suggestion names a field of the schema with a non-empty name, and
    either carries the positive confidence its label's pattern gives
    that field, or is a fallback: [primary] or [secondary] at 0.3. *)
Definition soundSuggestion `{Host} (noteType : AnkiNoteType)
    (s : FieldMappingSuggestion) : Prop :=
  field s ∈ fields noteType /\ field s <> []
  /\ confidence s ∈ suggestionConfidences
  /\ ((exists pattern,
         pattern ∈ patterns /\ semantic pattern = Types.semantic s
         /\ confidence s = fieldConfidence (field s) (keywords pattern)
         /\ (0 < confidence s)%Q)
      \/ (confidence s = 0.3%Q
          /\ (Types.semantic s = js "primary"
              \/ Types.semantic s = js "secondary"))).

(** The invariant of the ranker's loop while the patterns [rest] are
    still to come: the suggestions are sound, their fields are marked
    used and pairwise distinct, and their labels are distinct from one
    another and from the labels to come. *)
Definition detailsInv `{Host} (noteType : AnkiNoteType)
    (rest : list SemanticPattern) (st : SugState) : Prop :=
  Forall (fun s => field s ∈ snd st) (fst st)
  /\ Forall (soundSuggestion noteType) (fst st)
  /\ NoDup (map field (fst st))
  /\ NoDup (map Types.semantic (fst st) ++ map semantic rest).

(** *** Deck analysis *)

(** How many of the cards have the note type [modelName]. *)
Definition occurrences (noteType : jsstring) (cards : list AnkiCard) : nat :=
  length (List.filter (fun card => bool_decide (modelName card = noteType))
                      cards).

(** The words [analyzeFieldContent] looks for in a field name. *)
Definition nameKeywords : list jsstring :=
  map js ["expression"; "pronunciation"; "phonetic"; "example"; "sentence";
          "meaning"; "translation"; "explanation"; "description"; "grammar";
          "synonym"; "related"; "collocation"].

(** The labels [analyzeFieldContent] can return. *)
Definition classifierLabels : list jsstring :=
  map js ["English expressions or pronunciation";
          "Pronunciation or phonetic information";
          "Usage examples or sample sentences";
          "Meaning or translation";
          "Detailed explanation or description";
          "Grammar information";
          "Synonyms or related words";
          "Word collocations";
          "Likely pronunciation symbols";
          "Examples or usage demonstrations";
          "Long detailed explanations";
          "Short words or phrases";
          "General content (purpose unclear)"].

(** The classification of every entry of a sample set, entry by entry. *)
Definition classifyEach `{Host} (fieldSamples : dict (list jsstring))
    : dict jsstring :=
  map (fun entry =>
         (fst entry, DeckAnalyzer.analyzeFieldContent (fst entry) (snd entry)))
      fieldSamples.

End Props.

(* ------------------------------------------------------------------ *)
(** ** Further example inputs *)
(* ------------------------------------------------------------------ *)

(** A card store holding three cards of the same note; the records are
    returned in the order asked for. *)
Definition basicCard (id : Z) : Types.AnkiCard :=
  {| Types.cardId := id;
     Types.cardFields :=
       [ (JsString.js "Front",
          {| Types.value := JsString.js "Question"; Types.order := 0 |});
         (JsString.js "Back",
          {| Types.value := JsString.js "Answer"; Types.order := 1 |}) ];
     Types.modelName := JsString.js "Basic" |}.

Definition threeCardClient : DeckAnalyzer.AnkiConnectClient :=
  {| DeckAnalyzer.findCards := fun _ => inr [11; 12; 13]%Z;
     DeckAnalyzer.getCardsInfo := fun ids => inr (map basicCard ids) |}.

(** A card store that cannot be reached. *)
Definition unreachable : DeckAnalyzer.JsError :=
  DeckAnalyzer.Error (JsString.js "fetch failed").

Definition offlineClient : DeckAnalyzer.AnkiConnectClient :=
  {| DeckAnalyzer.findCards := fun _ => inl unreachable;
     DeckAnalyzer.getCardsInfo := fun _ => inl unreachable |}.

(** [JSON.stringify(mappings, null, 2)] on mappings whose keys and
    values need no escaping.  It is the instance used to evaluate the
    server on concrete inputs. *)
Definition plainMember (entry : jsstring * jsstring) : jsstring :=
  JsString.js "  " ++ [DeckAnalyzer.quote] ++ fst entry
  ++ [DeckAnalyzer.quote] ++ JsString.js ": "
  ++ [DeckAnalyzer.quote] ++ snd entry ++ [DeckAnalyzer.quote].

Definition plainJson : JsonHost :=
  {| JSON_stringify := fun mappings =>
       match mappings with
       | None => JsString.js "undefined"
       | Some [] => JsString.js "{}"
       | Some entries =>
         JsString.js "{" ++ [0x0A%N]
         ++ JsString.join (JsString.js "," ++ [0x0A%N])
              (map plainMember entries)
         ++ [0x0A%N] ++ JsString.js "}"
       end |}.

(** A desk setup: Anki holds the three cards above and one note type,
    the deck to create exists already, and the configuration file holds
    the default mapping. *)
Definition deskConfig : AnkiMCPServer.UserConfig :=
  {| AnkiMCPServer.preferredDeck := JsString.js "Default";
     AnkiMCPServer.preferredNoteType := JsString.js "Basic";
     AnkiMCPServer.fieldMappings :=
       [ (JsString.js "primary", JsString.js "Front");
         (JsString.js "secondary", JsString.js "Back") ] |}.

Definition deskClient : AnkiMCPServer.AnkiConnectClient :=
  {| AnkiMCPServer.getDeckNames := inr [JsString.js "Default"];
     AnkiMCPServer.getNoteTypes :=
       inr [ {| Types.name := JsString.js "Basic";
                Types.fields := map JsString.js ["Front"; "Back"] |} ];
     AnkiMCPServer.createDeck := fun _ =>
       inl (DeckAnalyzer.Error
              (JsString.js "AnkiConnect error: deck already exists"));
     AnkiMCPServer.addNote := fun _ => inr 1496198395707%Z;
     AnkiMCPServer.findCards := fun _ => inr [11; 12; 13]%Z;
     AnkiMCPServer.getCardsInfo := fun ids =>
       inr (map (fun id => basicCard (default 0%Z id)) ids) |}.

Definition deskManager : AnkiMCPServer.ConfigurationManager :=
  {| AnkiMCPServer.loadConfig := inr deskConfig;
     AnkiMCPServer.saveConfig := fun _ => inr tt;
     AnkiMCPServer.getConfigPath :=
       JsString.js "/home/user/.config/anki-kashikoi-mcp/config.json" |}.

Definition deskServer : AnkiMCPServer.Collaborators :=
  AnkiMCPServer.production (H := asciiHost) deskClient deskManager.

Definition loaded : AnkiMCPServer.ServerState :=
  {| AnkiMCPServer.userConfig := Some deskConfig;
     AnkiMCPServer.availableNoteTypes :=
       [ {| Types.name := JsString.js "Basic";
            Types.fields := map JsString.js ["Front"; "Back"] |} ] |}.

(** AnkiConnect with two note types, the second of which cannot be
    described, and with a deck that exists already. *)
Definition twoModels : AnkiConnectClient.Transport :=
  {| AnkiConnectClient.modelNames :=
       inr {| AnkiConnectClient.result := map JsString.js ["Basic"; "Cloze"];
              AnkiConnectClient.error := None |};
     AnkiConnectClient.modelFieldNames := fun name =>
       if bool_decide (name = JsString.js "Basic")
       then inr {| AnkiConnectClient.result :=
                     map JsString.js ["Front"; "Back"];
                   AnkiConnectClient.error := None |}
       else inr {| AnkiConnectClient.result := [];
                   AnkiConnectClient.error :=
                     Some (JsString.js "model was not found") |};
     AnkiConnectClient.createDeckAction := fun _ =>
       inr {| AnkiConnectClient.result := tt;
              AnkiConnectClient.error :=
                Some (JsString.js "deck already exists") |} |}.

(* ------------------------------------------------------------------ *)
(** ** Vocabulary of the properties of the server *)
(* ------------------------------------------------------------------ *)

Module ServerProps.
Import JsString JsObject AnkiMCPServer.

(** The note [addSmartCard] builds from a configuration. *)
Definition noteOf (this : Collaborators) (config : UserConfig)
    (args : AddSmartCardArgs.t) : AnkiNote :=
  {| deckName :=
       if truthyO (AddSmartCardArgs.deck args)
       then default [] (AddSmartCardArgs.deck args)
       else preferredDeck config;
     modelName :=
       if truthyO (AddSmartCardArgs.noteType args)
       then default [] (AddSmartCardArgs.noteType args)
       else preferredNoteType config;
     fields :=
       applyMapping (fieldMapper this) (fieldMappings config)
         (AddSmartCardArgs.content args);
     tags := default [] (AddSmartCardArgs.tags args) |}.

(** The configuration [configureAnkiSetup] stores, given the one the
    server held before. *)
Definition configOf (args : ConfigureAnkiSetupArgs.t)
    (previous : option UserConfig) : UserConfig :=
  {| preferredDeck := ConfigureAnkiSetupArgs.deck args;
     preferredNoteType := ConfigureAnkiSetupArgs.noteType args;
     fieldMappings :=
       match ConfigureAnkiSetupArgs.fieldMappings args with
       | Some mappings => mappings
       | None =>
         match previous with
         | Some config => fieldMappings config
         | None => []
         end
       end |}.

(** A request that changes something outside the server. *)
Definition writes (call : Call) : bool :=
  match call with
  | CalledCreateDeck _ | CalledSaveConfig _ | CalledAddNote _ => true
  | _ => false
  end.

End ServerProps.

(* ================================================================== *)
(** * Part II: properties *)
(* ================================================================== *)

Section DictFacts.
Import JsObject.
Context {V : Type}.
Implicit Types (o : dict V) (k : jsstring) (v : V).

Lemma get_set_eq k v o : get k (set k v o) = Some v.
Proof.
  induction o as [|[k' v'] o IH]; simpl.
  - by rewrite bool_decide_eq_true_2.
  - destruct (bool_decide (k' = k)) eqn:E; simpl.
    + by rewrite bool_decide_eq_true_2.
    + by rewrite E.
Qed.

Lemma get_set_ne k k' v o : k <> k' -> get k' (set k v o) = get k' o.
Proof.
  intros Hne. induction o as [|[k0 v0] o IH]; simpl.
  - by rewrite bool_decide_eq_false_2.
  - destruct (bool_decide (k0 = k)) eqn:E; simpl.
    + apply bool_decide_eq_true_1 in E. subst k0.
      by rewrite !bool_decide_eq_false_2.
    + by rewrite IH.
Qed.

(** What [set] does to the list of values. *)
Lemma set_values k v o :
  (exists o1 v0 o2, o = o1 ++ (k, v0) :: o2 /\ set k v o = o1 ++ (k, v) :: o2)
  \/ (get k o = None /\ set k v o = o ++ [(k, v)]).
Proof.
  induction o as [|[k0 v0] o IH]; simpl.
  - right. done.
  - case_bool_decide.
    + subst k0. left. by exists [], v0, o.
    + destruct IH as [(o1 & w & o2 & -> & ->)|[Hn ->]].
      * left. by exists ((k0, v0) :: o1), w, o2.
      * right. done.
Qed.

End DictFacts.

Section PlainObjectFacts.
Import JsObject PlainObject.
Context {V : Type}.
Implicit Types (o : dict V) (k : jsstring) (v : V).

Lemma get_place n k v o k' :
  get k o = None ->
  get k' (place n k v o)
  = if bool_decide (k = k') then Some v else get k' o.
Proof.
  induction o as [|[k0 v0] o IH]; cbn [place get]; [done|].
  destruct (decide (k0 = k)) as [->|Hk0].
  { by rewrite bool_decide_eq_true_2. }
  rewrite (bool_decide_eq_false_2 (k0 = k)) by done. intros Hnone.
  destruct (arrayIndex k0) as [m|]; [destruct (m <? n)%N|];
    cbn [get]; try done.
  rewrite (IH Hnone).
  destruct (decide (k = k')) as [<-|Hk].
  - rewrite (bool_decide_eq_true_2 (k = k)) by done.
    by rewrite (bool_decide_eq_false_2 (k0 = k)).
  - by rewrite (bool_decide_eq_false_2 (k = k')).
Qed.

(** Reading after an assignment. *)
Lemma get_assign k v o k' :
  k <> proto \/ is_Some (get k o) ->
  get k' (assign k v o)
  = if bool_decide (k = k') then Some v else get k' o.
Proof.
  intros Hk. unfold assign.
  destruct (get k o) as [v0|] eqn:Hown.
  - destruct (decide (k = k')) as [<-|Heq].
    + rewrite bool_decide_eq_true_2 by done. apply get_set_eq.
    + rewrite bool_decide_eq_false_2 by done. by apply get_set_ne.
  - destruct Hk as [Hk | [? ?]]; [|done].
    rewrite (bool_decide_eq_false_2 (k = proto)) by done.
    destruct (arrayIndex k) as [n|]; [by apply get_place|].
    clear Hk. induction o as [|[k0 v0] o IH]; cbn [app get]; [done|].
    cbn [get] in Hown.
    destruct (decide (k0 = k)) as [->|Hk0].
    { by rewrite bool_decide_eq_true_2 in Hown. }
    rewrite (bool_decide_eq_false_2 (k0 = k)) in Hown by done.
    rewrite (IH Hown).
    destruct (decide (k = k')) as [<-|Heq].
    + rewrite (bool_decide_eq_true_2 (k = k)) by done.
      by rewrite (bool_decide_eq_false_2 (k0 = k)).
    + by rewrite (bool_decide_eq_false_2 (k = k')).
Qed.

(** Assigning to [__proto__] creates nothing. *)
Lemma assign_proto v o : get proto o = None -> assign proto v o = o.
Proof.
  intros Hnone. unfold assign. rewrite Hnone.
  by rewrite bool_decide_eq_true_2.
Qed.

Lemma read_ordinary k o :
  k ∉ memberNames -> read k o = option_map Own (get k o).
Proof.
  intros Hk. unfold read. destruct (get k o); [done|].
  by rewrite bool_decide_eq_false_2.
Qed.

Lemma read_own k v o : get k o = Some v -> read k o = Some (Own v).
Proof. intros Hown. unfold read. by rewrite Hown. Qed.

Lemma proto_member : proto ∈ memberNames.
Proof. apply (bool_decide_unpack _). vm_compute. exact I. Qed.

End PlainObjectFacts.

Section StringFacts.
Import JsString.

Lemma trimStart_nil s : trimStart s = [] <-> isBlank s = true.
Proof.
  induction s as [|c s IH]; simpl; [done|].
  destruct (isWhiteSpace c); simpl; [done|].
  split; discriminate.
Qed.

Lemma trimStart_head s c s' : trimStart s = c :: s' -> isWhiteSpace c = false.
Proof.
  induction s as [|d s IH]; simpl; [done|].
  destruct (isWhiteSpace d) eqn:E; [done|].
  intros [= -> _]. done.
Qed.

Lemma isBlank_rev s : isBlank (rev s) = isBlank s.
Proof.
  unfold isBlank. induction s as [|c s IH]; simpl; [done|].
  rewrite forallb_app, IH. simpl. rewrite andb_true_r. apply andb_comm.
Qed.

Lemma trim_nil s : trim s = [] <-> isBlank s = true.
Proof.
  unfold trim, trimEnd.
  split.
  - intros Ht.
    assert (Hr : trimStart (rev (trimStart s)) = []).
    { apply (f_equal (@rev N)) in Ht. by rewrite rev_involutive in Ht. }
    apply trimStart_nil in Hr. rewrite isBlank_rev in Hr.
    destruct (trimStart s) as [|c s'] eqn:E.
    + by apply trimStart_nil.
    + apply trimStart_head in E. simpl in Hr. by rewrite E in Hr.
  - intros Hb. apply trimStart_nil in Hb. by rewrite Hb.
Qed.

(** The guard [s && s.trim() !== ''] says that [s] is not blank. *)
Lemma nonblank_guard s :
  truthy s && negb (bool_decide (trim s = [])) = negb (isBlank s).
Proof.
  destruct (isBlank s) eqn:E.
  - apply trim_nil in E. rewrite E. simpl. apply andb_false_r.
  - assert (trim s <> []) by (rewrite trim_nil; congruence).
    rewrite bool_decide_eq_false_2 by done.
    destruct s; [done|]. done.
Qed.

Lemma join_cons_cons sep a b l :
  join sep (a :: b :: l) = a ++ sep ++ join sep (b :: l).
Proof. done. Qed.

Lemma join_merge sep a b l :
  join sep ((a ++ sep ++ b) :: l) = a ++ sep ++ join sep (b :: l).
Proof.
  destruct l as [|c l]; [done|].
  rewrite !join_cons_cons. by rewrite <- !app_assoc.
Qed.

End StringFacts.

(* ------------------------------------------------------------------ *)
(** ** ContentApplier: [applyMapping] *)
(* ------------------------------------------------------------------ *)

Section ApplyMapping.
Import JsString JsObject PlainObject FieldMapper Spec Loops Props.
Implicit Types (mapping content result : dict jsstring) (f : jsstring).

Lemma memberText_truthy name : truthy (memberText name) = true.
Proof.
  unfold memberText. repeat case_bool_decide; vm_compute; reflexivity.
Qed.

Lemma targetKey_cases mapping label :
  targetKey mapping label
  = match get label mapping with
    | Some g => if truthy g then Some g else None
    | None =>
      if bool_decide (label ∈ memberNames) then Some (memberText label)
      else None
    end.
Proof.
  unfold targetKey, read. destruct (get label mapping); [done|].
  by case_bool_decide.
Qed.

(** One turn of the loop, in terms of the key and of what the key
    reads as. *)
Lemma applyStep_assign mapping result label text :
  applyStep mapping result (label, text)
  = match targetKey mapping label with
    | Some key =>
      match mergeInto (readText key result) [text] with
      | Some merged =>
        if isBlank text then result
        else PlainObject.assign key merged result
      | None => result
      end
    | None => result
    end.
Proof.
  unfold applyStep, targetKey, readText.
  destruct (read label mapping) as [slot|]; [|done].
  rewrite <- andb_assoc, nonblank_guard.
  destruct (truthySlot slot); cbn [andb]; [|done].
  destruct (read (PlainObject.text slot) result) as [current|];
    cbn [option_map mergeInto fold_left].
  - assert (truthySlot current = truthy (PlainObject.text current)) as ->.
    { destruct current; cbn [truthySlot PlainObject.text]; [done|].
      by rewrite memberText_truthy. }
    destruct (truthy (PlainObject.text current));
      by destruct (isBlank text).
  - by destruct (isBlank text).
Qed.

Lemma applyStep_skip mapping result label text :
  (get label mapping = None /\ ordinary label)
  \/ get label mapping = Some []
  \/ isBlank text = true ->
  applyStep mapping result (label, text) = result.
Proof.
  intros Hskip. rewrite applyStep_assign, targetKey_cases.
  destruct Hskip as [[-> Hl] | [-> | Hb]].
  - by rewrite bool_decide_eq_false_2.
  - done.
  - rewrite Hb. by repeat case_match.
Qed.

Lemma mergeInto_one previous text :
  exists merged,
    mergeInto previous [text] = Some merged
    /\ (text <> [] -> merged <> [])
    /\ (previous = None -> merged = text).
Proof.
  unfold mergeInto. cbn [fold_left].
  destruct previous as [current|]; [destruct (truthy current) eqn:Hc|];
    eexists; (split; [reflexivity|]); split; try done.
  intros _. destruct current; [done | discriminate].
Qed.

Lemma mergeInto_cons previous text texts :
  mergeInto previous (text :: texts)
  = mergeInto (mergeInto previous [text]) texts.
Proof. done. Qed.

Lemma applyStep_get mapping result entry f :
  f <> proto ->
  get f (applyStep mapping result entry)
  = if bool_decide (targetKey mapping (fst entry) = Some f)
       && negb (isBlank (snd entry))
    then mergeInto (readText f result) [snd entry]
    else get f result.
Proof.
  intros Hf. destruct entry as [label text]. cbn [fst snd].
  rewrite applyStep_assign.
  destruct (targetKey mapping label) as [key|] eqn:Hkey.
  2:{ by rewrite bool_decide_eq_false_2. }
  destruct (mergeInto_one (readText key result) text)
    as (merged & Hmerged & _).
  rewrite Hmerged. destruct (isBlank text) eqn:Hb; cbn [negb].
  { by rewrite andb_false_r. }
  rewrite andb_true_r. case_bool_decide as Heq.
  - injection Heq as ->. rewrite get_assign by (by left).
    by rewrite bool_decide_eq_true_2.
  - destruct (decide (key = proto)) as [->|Hkey'].
    + destruct (get proto result) as [own|] eqn:Hown.
      * rewrite get_assign by (right; by eexists).
        by rewrite bool_decide_eq_false_2.
      * by rewrite assign_proto.
    + rewrite get_assign by (by left).
      rewrite bool_decide_eq_false_2; [done | congruence].
Qed.

Lemma applyStep_proto mapping result entry :
  get proto result = None ->
  get proto (applyStep mapping result entry) = None.
Proof.
  intros Hnone. destruct entry as [label text]. rewrite applyStep_assign.
  destruct (targetKey mapping label) as [key|]; [|done].
  destruct (mergeInto_one (readText key result) text)
    as (merged & -> & _).
  destruct (isBlank text); [done|].
  destruct (decide (key = proto)) as [->|Hkey].
  - by rewrite assign_proto.
  - rewrite get_assign by (by left).
    by rewrite bool_decide_eq_false_2.
Qed.

Lemma applyLoop_proto mapping content result :
  get proto result = None ->
  get proto (fold_left (applyStep mapping) content result) = None.
Proof.
  revert result. induction content as [|entry content IH]; intros result Hn;
    [done|].
  cbn [fold_left]. by apply IH, applyStep_proto.
Qed.

Lemma readText_own f result merged :
  get f result = Some merged -> readText f result = Some merged.
Proof. intros Hown. unfold readText. by rewrite (read_own _ _ _ Hown). Qed.

Lemma readText_ext f result result' :
  get f result = get f result' -> readText f result = readText f result'.
Proof. intros Heq. unfold readText, read. by rewrite Heq. Qed.

(** The value of a key after the loop. *)
Lemma applyLoop_get mapping content result f :
  f <> proto ->
  get f (fold_left (applyStep mapping) content result)
  = match filedUnder mapping content f with
    | [] => get f result
    | texts => mergeInto (readText f result) texts
    end.
Proof.
  intros Hf. revert result.
  induction content as [|entry content IH]; intros result; [done|].
  cbn [fold_left]. rewrite IH.
  pose proof (applyStep_get mapping result entry f Hf) as Hstep.
  unfold filedUnder. cbn [List.filter].
  destruct (bool_decide (targetKey mapping (fst entry) = Some f)
            && negb (isBlank (snd entry))).
  2:{ by rewrite Hstep, (readText_ext _ _ _ Hstep). }
  cbn [map]. fold (filedUnder mapping content f).
  destruct (mergeInto_one (readText f result) (snd entry))
    as (merged & Hmerged & _).
  rewrite Hmerged in Hstep.
  rewrite mergeInto_cons, Hmerged, (readText_own _ _ _ Hstep), Hstep.
  by destruct (filedUnder mapping content f).
Qed.

Lemma mergeInto_join current texts :
  truthy current = true ->
  Forall (fun text => text <> []) texts ->
  mergeInto (Some current) texts
  = Some (join mergeSeparator (current :: texts)).
Proof.
  intros Hc Hts. revert current Hc.
  induction Hts as [|text texts Hne Hts IH]; intros current Hc; [done|].
  change (mergeInto (Some current) (text :: texts))
    with (mergeInto (if truthy current
                     then Some (current ++ mergeSeparator ++ text)
                     else Some text) texts).
  rewrite Hc, IH.
  - by rewrite join_merge.
  - by destruct current.
Qed.

Lemma mergeInto_nonempty previous texts merged :
  texts <> [] ->
  Forall (fun text => text <> []) texts ->
  mergeInto previous texts = Some merged ->
  merged <> [].
Proof.
  intros Hne Hall. destruct Hall as [|text texts Htext Hall]; [done|].
  rewrite mergeInto_cons.
  destruct (mergeInto_one previous text) as (first & -> & Hfirst & _).
  specialize (Hfirst Htext). clear Hne Htext. revert first Hfirst.
  induction Hall as [|next texts Hnext Hall IH]; intros first Hfirst.
  - by intros [= <-].
  - rewrite mergeInto_cons.
    destruct (mergeInto_one (Some first) next) as (second & -> & Hsecond & _).
    apply IH. by apply Hsecond.
Qed.

Lemma filedUnder_nonempty mapping content f :
  Forall (fun text => text <> []) (filedUnder mapping content f).
Proof.
  unfold filedUnder. apply Forall_forall. intros text Hin.
  apply list_elem_of_In, in_map_iff in Hin as ([label t] & <- & Hin).
  apply filter_In in Hin as [_ Hc].
  apply andb_true_iff in Hc as [_ Hb]. cbn [snd] in *.
  intros ->. done.
Qed.

Lemma contributions_nonempty mapping content f :
  Forall (fun text => text <> []) (contributions mapping content f).
Proof.
  unfold contributions. apply Forall_forall. intros text Hin.
  apply list_elem_of_In, in_map_iff in Hin as ([label t] & <- & Hin).
  apply filter_In in Hin as [_ Hc]. unfold contributes in Hc.
  apply andb_true_iff in Hc as [_ Hb]. simpl in *.
  intros ->. done.
Qed.

(** For labels that are mapped or are no member names, the texts filed
    under a key are the contributions to it. *)
Lemma filedUnder_contributions mapping content f :
  Forall (fun entry =>
            ordinary (fst entry) \/ is_Some (get (fst entry) mapping))
         content ->
  filedUnder mapping content f = contributions mapping content f.
Proof.
  intros Hlabels. unfold filedUnder, contributions. f_equal.
  induction Hlabels as [|[label text] content Hlabel _ IH]; [done|].
  cbn [List.filter]. rewrite IH.
  assert (bool_decide (targetKey mapping label = Some f)
          = truthy f && bool_decide (get label mapping = Some f)) as Hsame.
  { rewrite targetKey_cases. cbn [fst] in Hlabel.
    destruct (get label mapping) as [g|] eqn:Hg.
    - destruct (decide (g = f)) as [->|Hne].
      + rewrite (bool_decide_eq_true_2 (Some f = Some f)) by done.
        rewrite andb_true_r.
        destruct (truthy f); [by apply bool_decide_eq_true_2|].
        by apply bool_decide_eq_false_2.
      + rewrite (bool_decide_eq_false_2 (Some g = Some f)) by congruence.
        rewrite andb_false_r. apply bool_decide_eq_false_2.
        destruct (truthy g); congruence.
    - destruct Hlabel as [Hl | [? ?]]; [|done].
      rewrite (bool_decide_eq_false_2 (label ∈ memberNames)) by done.
      rewrite (bool_decide_eq_false_2 (None = Some f)) by done.
      by rewrite andb_false_r. }
  unfold contributes. cbn [fst snd]. by rewrite Hsame.
Qed.

Lemma applyMapping_values mapping content f v :
  get f (applyMapping mapping content) = Some v -> v <> [].
Proof.
  unfold applyMapping, entries, empty.
  destruct (decide (f = proto)) as [->|Hf].
  { by rewrite applyLoop_proto. }
  rewrite (applyLoop_get _ _ _ _ Hf).
  pose proof (filedUnder_nonempty mapping content f) as Hall.
  destruct (filedUnder mapping content f) as [|text texts] eqn:Hfiled;
    [done|].
  by apply mergeInto_nonempty.
Qed.

Lemma applyMapping_get mapping content f :
  Forall (fun entry =>
            ordinary (fst entry) \/ is_Some (get (fst entry) mapping))
         content ->
  ordinary f ->
  get f (applyMapping mapping content)
  = mergedText mergeSeparator mapping content f.
Proof.
  intros Hlabels Hf. unfold applyMapping, entries, empty, mergedText.
  assert (f <> proto) as Hproto.
  { intros ->. apply Hf, proto_member. }
  rewrite (applyLoop_get _ _ _ _ Hproto).
  rewrite (filedUnder_contributions _ _ _ Hlabels).
  pose proof (contributions_nonempty mapping content f) as Hne.
  destruct (contributions mapping content f) as [|text texts]; [done|].
  inversion Hne as [|? ? Ht Hts]; subst.
  assert (readText f [] = None) as ->.
  { unfold readText. by rewrite (read_ordinary _ _ Hf). }
  change (mergeInto None (text :: texts))
    with (mergeInto (Some text) texts).
  apply mergeInto_join; [by destruct text | done].
Qed.

End ApplyMapping.

(** C1 (as amended).  For every mapping and content map, [applyMapping]
    returns a map in which no value is the empty string; a pair whose
    label has no mapping (and is no name of a member of
    [Object.prototype]), or is mapped to the empty field name, or
    whose text is empty or made of white space only, contributes
    nothing; and, when every label of the content either is mapped or
    is no such name, the value of a target field that is no such name
    is the texts of the pairs mapped to it, in the iteration order of
    the content map, with the two characters backslash and n between
    consecutive texts. *)
Theorem C1_applyMapping_merges (mapping content : dict jsstring) :
  (forall f v,
     JsObject.get f (FieldMapper.applyMapping mapping content) = Some v ->
     v <> [])
  /\ (forall before label text after,
        (JsObject.get label mapping = None /\ Props.ordinary label)
        \/ JsObject.get label mapping = Some []
        \/ JsString.isBlank text = true ->
        content = before ++ (label, text) :: after ->
        FieldMapper.applyMapping mapping content
        = FieldMapper.applyMapping mapping (before ++ after))
  /\ (Forall (fun entry =>
                Props.ordinary (fst entry)
                \/ is_Some (JsObject.get (fst entry) mapping))
             content ->
      forall f,
        Props.ordinary f ->
        JsObject.get f (FieldMapper.applyMapping mapping content)
        = Spec.mergedText FieldMapper.mergeSeparator mapping content f).
Proof.
  split; [|split].
  - intros f v. apply applyMapping_values.
  - intros before label text after Hskip ->.
    unfold FieldMapper.applyMapping, JsObject.entries.
    rewrite !fold_left_app. cbn [fold_left]. by rewrite applyStep_skip.
  - intros Hlabels f Hf. by apply applyMapping_get.
Qed.

Lemma C1_applyMapping_merges_witness :
  FieldMapper.applyMapping frontTwice
    ((JsString.js "notes", JsString.js "N") :: twoTexts)
  = [ (JsString.js "Front", JsString.js "P" ++ [0x5C; 0x6E]%N ++ JsString.js "S") ].
Proof.
  destruct (C1_applyMapping_merges frontTwice
              ((JsString.js "notes", JsString.js "N") :: twoTexts))
    as (_ & Hskip & _).
  rewrite (Hskip [] (JsString.js "notes") (JsString.js "N") twoTexts).
  - reflexivity.
  - left. split; [reflexivity|].
    apply (bool_decide_unpack _). vm_compute. exact I.
  - reflexivity.
Defined.

(** C1, as the specification words it, fails on its own example: the
    two texts sharing the target [Front] are not joined by a line feed
    but by a backslash and an n.  It also fails for two labels sharing
    the empty field name: their texts are dropped, not joined. *)
Lemma C1_newline_counterexample :
  (FieldMapper.applyMapping frontTwice twoTexts
   = [ (JsString.js "Front",
        JsString.js "P" ++ [0x5C; 0x6E]%N ++ JsString.js "S") ]
   /\ FieldMapper.applyMapping frontTwice twoTexts
      <> [ (JsString.js "Front",
            JsString.js "P" ++ Spec.newline ++ JsString.js "S") ])
  /\ FieldMapper.applyMapping emptyTargets twoTexts = [].
Proof.
  split; [split|].
  - vm_compute. reflexivity.
  - vm_compute. discriminate.
  - vm_compute. reflexivity.
Qed.

(* ------------------------------------------------------------------ *)
(** ** MappingValidator: [validateMapping] *)
(* ------------------------------------------------------------------ *)

Section ValidateMapping.
Import JsObject Types FieldMapper Spec.
Implicit Types (entries : list (jsstring * jsstring))
               (availableFields usedFields : gset jsstring).

Lemma validateLoop_true availableFields entries usedFields :
  validateLoop availableFields entries usedFields = true <->
  Forall (fun f => f ∈ availableFields) (map snd entries)
  /\ NoDup (map snd entries)
  /\ Forall (fun f => f ∉ usedFields) (map snd entries).
Proof.
  revert usedFields.
  induction entries as [|[label f] entries IH]; intros usedFields; simpl.
  - split; [intros _|done]. repeat split; constructor.
  - rewrite !Forall_cons, NoDup_cons. simpl.
    case_bool_decide as Ha; simpl; [|split; [done | tauto]].
    case_bool_decide as Hu; [split; [done | tauto]|].
    rewrite IH, !Forall_forall. split.
    + intros (Hall & Hnd & Hun). repeat split; try done.
      * intros Hin. apply (Hun f Hin). apply elem_of_union_l.
        by apply elem_of_singleton.
      * intros g Hg Hgu. apply (Hun g Hg). by apply elem_of_union_r.
    + intros ((_ & Hall) & (Hnin & Hnd) & (_ & Hun)). repeat split; try done.
      intros g Hg [Hgf | Hgu]%elem_of_union.
      * apply elem_of_singleton in Hgf. by subst g.
      * by apply (Hun g).
Qed.

Lemma validateLoop_false availableFields entries usedFields :
  validateLoop availableFields entries usedFields = false ->
  (exists label f, (label, f) ∈ entries /\ f ∉ availableFields)
  \/ (exists label f, (label, f) ∈ entries /\ f ∈ usedFields)
  \/ targetShared entries.
Proof.
  revert usedFields.
  induction entries as [|[label f] entries IH]; intros usedFields; simpl;
    [done|].
  case_bool_decide as Ha; simpl.
  2:{ intros _. left. exists label, f. split; [left | done]. }
  case_bool_decide as Hu.
  { intros _. right. left. exists label, f. split; [left | done]. }
  intros Hf. apply IH in Hf as [(l & g & Hin & Hg) | [(l & g & Hin & Hg) | Hs]].
  - left. exists l, g. split; [by right | done].
  - apply elem_of_union in Hg as [Hg | Hg].
    + apply elem_of_singleton in Hg. subst g.
      right. right.
      apply list_elem_of_lookup in Hin as [j Hj].
      exists 0, (S j), label, l, f. repeat split; [lia | exact Hj].
    + right. left. exists l, g. split; [by right | done].
  - right. right.
    destruct Hs as (i & j & l1 & l2 & g & Hij & Hi & Hj).
    exists (S i), (S j), l1, l2, g. split; [lia | done].
Qed.

Lemma validateMapping_true noteType (mapping : dict jsstring) :
  validateMapping noteType mapping = true <->
  Forall (fun f => f ∈ fields noteType) (map snd mapping)
  /\ NoDup (map snd mapping).
Proof.
  unfold validateMapping, JsObject.entries. rewrite validateLoop_true.
  split.
  - intros (Hall & Hnd & _). split; [|done].
    eapply Forall_impl; [exact Hall|].
    intros f Hf. by apply elem_of_list_to_set in Hf.
  - intros (Hall & Hnd). split; [|split; [done|]].
    + eapply Forall_impl; [exact Hall|].
      intros f Hf. by apply elem_of_list_to_set.
    + apply Forall_forall. intros f _. apply not_elem_of_empty.
Qed.

Lemma valid_of_inv noteType (mapping : dict jsstring) :
  Forall (fun f => f ∈ fields noteType) (map snd mapping)
  /\ NoDup (map snd mapping) ->
  validateMapping noteType mapping = true
  /\ (forall label f, (label, f) ∈ mapping -> f ∈ fields noteType)
  /\ NoDup (map snd mapping).
Proof.
  intros [Hall Hnd]. split; [by apply validateMapping_true|].
  split; [|done].
  intros label f Hin. rewrite Forall_forall in Hall. apply Hall.
  apply list_elem_of_fmap. by exists (label, f).
Qed.

End ValidateMapping.

(** C6.  [validateMapping] is false exactly when some mapped target is
    not a field of the schema or two entries of the mapping have the
    same target; it is true for the empty mapping, whatever the
    schema. *)
Theorem C6_validateMapping_iff (noteType : Types.AnkiNoteType) :
  (forall mapping : dict jsstring,
     FieldMapper.validateMapping noteType mapping = false <->
     Spec.targetMissing noteType mapping \/ Spec.targetShared mapping)
  /\ FieldMapper.validateMapping noteType JsObject.empty = true.
Proof.
  split; [|done].
  intros mapping. unfold FieldMapper.validateMapping, JsObject.entries.
  split.
  - intros Hf. apply validateLoop_false in Hf as [Hm | [Hu | Hs]].
    + left. destruct Hm as (l & f & Hin & Hf). exists l, f.
      split; [done|]. by rewrite elem_of_list_to_set in Hf.
    + destruct Hu as (l & f & _ & Hf). set_solver.
    + by right.
  - intros Hbad. apply not_true_is_false. intros Ht.
    apply validateLoop_true in Ht as (Hall & Hnd & _).
    destruct Hbad as [(l & f & Hin & Hf) | Hs].
    + rewrite Forall_forall in Hall. apply Hf.
      rewrite <- (elem_of_list_to_set (C := gset jsstring)). apply Hall.
      apply list_elem_of_fmap. by exists (l, f).
    + destruct Hs as (i & j & l1 & l2 & f & Hij & Hi & Hj).
      apply Hij. eapply NoDup_lookup; [exact Hnd | |].
      * rewrite list_lookup_fmap, Hi. done.
      * rewrite list_lookup_fmap, Hj. done.
Qed.

Lemma C6_validateMapping_iff_witness :
  FieldMapper.validateMapping
    {| Types.name := JsString.js "Basic";
       Types.fields := map JsString.js ["Front"; "Back"] |}
    [ (JsString.js "primary", JsString.js "Front");
      (JsString.js "secondary", JsString.js "Front") ] = false.
Proof.
  apply (C6_validateMapping_iff _). right.
  exists 0, 1, (JsString.js "primary"), (JsString.js "secondary"),
         (JsString.js "Front").
  split; [lia|]. split; reflexivity.
Defined.

(* ------------------------------------------------------------------ *)
(** ** FieldMatcher: [findBestFieldMatch] *)
(* ------------------------------------------------------------------ *)

Section FieldMatcher.
Import JsString Types FieldMapper Spec Loops.
Context `{Host}.
Implicit Types (fields keywords : list jsstring) (q : Q)
               (usedFields : gset jsstring).

Ltac tiers :=
  repeat match goal with
         | Ht : tier _ |- _ => destruct Ht as [-> | [-> | ->]]
         end.

Lemma gtb_lt a b : gtb a b = true <-> (b < a)%Q.
Proof.
  unfold gtb. rewrite negb_true_iff, <- not_true_iff_false, Qle_bool_iff.
  split; [apply Qnot_le_lt | apply Qlt_not_le].
Qed.

Lemma gtb_le a b : gtb a b = false <-> (a <= b)%Q.
Proof. unfold gtb. by rewrite negb_false_iff, Qle_bool_iff. Qed.

Lemma Math_max_tier a b : tier a -> tier b -> tier (Math_max a b).
Proof. intros Ha Hb. tiers; vm_compute; tauto. Qed.

Lemma Math_max_assoc a b c :
  tier a -> tier b -> tier c ->
  Math_max (Math_max a b) c = Math_max a (Math_max b c).
Proof. intros Ha Hb Hc. tiers; reflexivity. Qed.

Lemma Math_max_0_l a : tier a -> Math_max 0%Q a = a.
Proof. intros Ha. tiers; reflexivity. Qed.

Lemma candidate_tier fieldLower keywordLower :
  tier (candidate fieldLower keywordLower).
Proof.
  unfold candidate.
  repeat match goal with |- context [if ?b then _ else _] => destruct b end;
    vm_compute; tauto.
Qed.

Lemma candidates_tier fieldLower (lowers : list jsstring) :
  tier (foldr Math_max 0%Q (map (candidate fieldLower) lowers)).
Proof.
  induction lowers as [|k lowers IH]; simpl.
  - by left.
  - apply Math_max_tier; [apply candidate_tier | done].
Qed.

(** The length test of the loop, read on integers or on naturals. *)
Lemma longer_by_at_most_3 (kl fl : nat) :
  (Z.of_nat kl - Z.of_nat fl <=? 3)%Z = (kl <=? fl + 3)%nat.
Proof.
  destruct (Z.leb_spec (Z.of_nat kl - Z.of_nat fl) 3);
    destruct (Nat.leb_spec kl (fl + 3)); (done || lia).
Qed.

(** One turn of the keyword loop that is not an exact match raises
    [confidence] to the keyword's candidate. *)
Lemma keywordLoop_cons fieldLower keyword keywords q :
  tier q ->
  fieldLower <> toLowerCase keyword ->
  keywordLoop fieldLower (keyword :: keywords) q
  = keywordLoop fieldLower keywords
      (Math_max q (candidate fieldLower (toLowerCase keyword))).
Proof.
  intros Hq Hne. cbn [keywordLoop]. cbv zeta.
  rewrite bool_decide_eq_false_2 by done.
  unfold candidate. rewrite longer_by_at_most_3.
  generalize (includes fieldLower (toLowerCase keyword)
              && (2 <? length (toLowerCase keyword))%nat).
  generalize (includes (toLowerCase keyword) fieldLower
              && (4 <=? length fieldLower)%nat
              && (length (toLowerCase keyword) <=? length fieldLower + 3)%nat).
  intros [] []; f_equal; tiers; reflexivity.
Qed.

Lemma keywordLoop_spec fieldLower keywords q :
  tier q ->
  keywordLoop fieldLower keywords q
  = if existsb (fun keyword =>
                  bool_decide (fieldLower = toLowerCase keyword)) keywords
    then 1.0%Q
    else Math_max q
           (foldr Math_max 0%Q
              (map (fun keyword => candidate fieldLower (toLowerCase keyword))
                   keywords)).
Proof.
  revert q. induction keywords as [|keyword keywords IH]; intros q Hq.
  - cbn. tiers; reflexivity.
  - destruct (decide (fieldLower = toLowerCase keyword)) as [He | Hne].
    + cbn [keywordLoop existsb]. cbv zeta.
      by rewrite !bool_decide_eq_true_2.
    + rewrite keywordLoop_cons by done.
      rewrite IH by (apply Math_max_tier; [done | apply candidate_tier]).
      cbn [existsb map foldr]. rewrite bool_decide_eq_false_2 by done.
      cbn [orb].
      destruct (existsb _ keywords); [done|].
      apply Math_max_assoc; [done | apply candidate_tier |].
      rewrite <- (map_map toLowerCase (candidate fieldLower)).
      apply candidates_tier.
Qed.

Lemma fieldConfidence_eq_spec field keywords :
  fieldConfidence field keywords = fieldConfidence_spec field keywords.
Proof.
  unfold fieldConfidence, fieldConfidence_spec.
  rewrite keywordLoop_spec by (by left).
  destruct (existsb _ keywords); [done|].
  apply Math_max_0_l.
  rewrite <- (map_map toLowerCase (candidate (toLowerCase field))).
  apply candidates_tier.
Qed.

(** A confidence is one of the four values of the source. *)
Lemma fieldConfidence_values field keywords :
  fieldConfidence field keywords = 1.0%Q
  \/ tier (fieldConfidence field keywords).
Proof.
  rewrite fieldConfidence_eq_spec. unfold fieldConfidence_spec.
  destruct (existsb _ keywords); [by left | right].
  rewrite <- (map_map toLowerCase (candidate (toLowerCase field))).
  apply candidates_tier.
Qed.

(** The outer loop, from any running best: either no unused field
    beats it, or the result is the first unused field that reaches
    the highest confidence. *)
Lemma fieldLoop_inv fields keywords usedFields best :
  let r := fieldLoop fields keywords usedFields best in
  (r = best
   /\ Forall (fun g => (fieldConfidence g keywords <= bestConfidence best)%Q)
             (unusedFields fields usedFields))
  \/ (exists before f after,
        unusedFields fields usedFields = before ++ f :: after
        /\ r = {| bestField := Some f;
                  bestConfidence := fieldConfidence f keywords |}
        /\ (bestConfidence best < fieldConfidence f keywords)%Q
        /\ Forall (fun g => (fieldConfidence g keywords
                             < fieldConfidence f keywords)%Q) before
        /\ Forall (fun g => (fieldConfidence g keywords
                             <= fieldConfidence f keywords)%Q) after).
Proof.
  revert best. induction fields as [|field fields IH]; intros best.
  - left. split; [done | constructor].
  - cbn [fieldLoop unusedFields List.filter].
    destruct (bool_decide (field ∈ usedFields)); cbn [negb]; [apply IH|].
    destruct (gtb (fieldConfidence field keywords) (bestConfidence best))
      eqn:Hgt.
    + apply gtb_lt in Hgt.
      destruct (IH {| bestField := Some field;
                      bestConfidence := fieldConfidence field keywords |})
        as [[-> Hall] | (before & f & after & Hu & -> & Hlt & Hb & Ha)].
      * right. exists [], field, (unusedFields fields usedFields).
        repeat split; [done | constructor | exact Hall].
      * right. exists (field :: before), f, after. cbn in Hlt.
        change (List.filter _ fields) with (unusedFields fields usedFields).
        rewrite Hu. repeat split; [lra | | done].
        constructor; done.
    + apply gtb_le in Hgt.
      destruct (IH best)
        as [[-> Hall] | (before & f & after & Hu & -> & Hlt & Hb & Ha)].
      * left. split; [done|]. constructor; done.
      * right. exists (field :: before), f, after.
        change (List.filter _ fields) with (unusedFields fields usedFields).
        rewrite Hu. repeat split; [done | | done].
        constructor; [lra | done].
Qed.

Lemma findBestFieldMatch_cases fields keywords usedFields :
  let r := findBestFieldMatch fields keywords usedFields in
  match bestField r with
  | Some f => isBestMatch fields keywords usedFields f (bestConfidence r)
  | None =>
    bestConfidence r = 0%Q
    /\ Forall (fun g => fieldConfidence g keywords = 0%Q)
              (unusedFields fields usedFields)
  end.
Proof.
  unfold findBestFieldMatch.
  destruct (fieldLoop_inv fields keywords usedFields
              {| bestField := None; bestConfidence := 0%Q |})
    as [[-> Hall] | (before & f & after & Hu & -> & Hlt & Hb & Ha)]; cbn.
  - split; [done|]. eapply Forall_impl; [exact Hall|].
    intros g Hg. cbn in Hg.
    destruct (fieldConfidence_values g keywords) as [E | [E | [E | E]]];
      rewrite E in *; [exfalso | done | exfalso | exfalso];
      revert Hg; by vm_compute.
  - split; [done|]. split; [done|]. by exists before, after.
Qed.

(** The field a match names is a field of the list that is not used. *)
Lemma findBestFieldMatch_Some fields keywords usedFields f :
  bestField (findBestFieldMatch fields keywords usedFields) = Some f ->
  f ∈ fields /\ f ∉ usedFields.
Proof.
  intros Hf.
  pose proof (findBestFieldMatch_cases fields keywords usedFields) as Hc.
  cbv zeta in Hc. rewrite Hf in Hc.
  destruct Hc as (_ & _ & before & after & Hu & _).
  assert (Hin : In f (unusedFields fields usedFields)).
  { rewrite Hu. apply in_or_app. right. by left. }
  apply filter_In in Hin as [Hin Hnu].
  split; [by apply list_elem_of_In|].
  by apply negb_true_iff, bool_decide_eq_false_1 in Hnu.
Qed.

Lemma findBestFieldMatch_none fields keywords usedFields :
  Forall (fun g => fieldConfidence g keywords = 0%Q)
         (unusedFields fields usedFields) ->
  findBestFieldMatch fields keywords usedFields
  = {| bestField := None; bestConfidence := 0%Q |}.
Proof.
  intros Hall.
  pose proof (findBestFieldMatch_cases fields keywords usedFields) as Hc.
  cbv zeta in Hc.
  destruct (findBestFieldMatch fields keywords usedFields) as [[f|] c];
    cbn in Hc.
  - exfalso. destruct Hc as (-> & Hpos & before & after & Hu & _).
    rewrite Hu in Hall. apply Forall_app in Hall as [_ Hall].
    apply Forall_cons in Hall as [Hf _]. rewrite Hf in Hpos.
    revert Hpos. by vm_compute.
  - by destruct Hc as [-> _].
Qed.

End FieldMatcher.

(** C5.  For every field list, keyword list and used-field set: the
    confidence of a field is [1.0] when it equals some keyword up to
    case, and otherwise the greatest of the candidates its keywords
    give it ([0.8] for a contained keyword longer than two, [0.6] for a
    containing keyword at most three longer than a field of four or
    more); the match returned is the first unused field, in declared
    order, whose confidence is the highest and positive, and it is no
    field with confidence 0 when every field is used or has confidence
    0. *)
Theorem C5_findBestFieldMatch_spec `{Host}
    (fields keywords : list jsstring) (usedFields : gset jsstring) :
  (forall field,
     FieldMapper.fieldConfidence field keywords
     = Spec.fieldConfidence_spec field keywords)
  /\ (let r := FieldMapper.findBestFieldMatch fields keywords usedFields in
      match FieldMapper.bestField r with
      | Some f =>
        Spec.isBestMatch fields keywords usedFields f
          (FieldMapper.bestConfidence r)
      | None =>
        FieldMapper.bestConfidence r = 0%Q
        /\ Forall (fun g => FieldMapper.fieldConfidence g keywords = 0%Q)
                  (Spec.unusedFields fields usedFields)
      end)
  /\ (Forall (fun g => FieldMapper.fieldConfidence g keywords = 0%Q)
             (Spec.unusedFields fields usedFields) ->
      FieldMapper.findBestFieldMatch fields keywords usedFields
      = {| FieldMapper.bestField := None;
           FieldMapper.bestConfidence := 0%Q |}).
Proof.
  split; [|split].
  - intros field. apply fieldConfidence_eq_spec.
  - apply findBestFieldMatch_cases.
  - apply findBestFieldMatch_none.
Qed.

Lemma C5_findBestFieldMatch_spec_witness :
  FieldMapper.findBestFieldMatch (H := asciiHost)
    (map JsString.js ["Front"; "Zzz"])
    (map JsString.js ["front"; "question"])
    {[ JsString.js "Front" ]}
  = {| FieldMapper.bestField := None; FieldMapper.bestConfidence := 0%Q |}.
Proof.
  apply (C5_findBestFieldMatch_spec (H := asciiHost)).
  vm_compute. repeat constructor.
Defined.

(* ------------------------------------------------------------------ *)
(** ** MappingResolver: [suggestMappings] *)
(* ------------------------------------------------------------------ *)

Section SuggestMappings.
Import JsString JsObject Types FieldMapper Spec Loops.
Context `{Host}.
Implicit Types (noteType : AnkiNoteType) (st : MapState).

Lemma fold_left_fixed {A B : Type} (step : A -> B -> A) (l : list B) (a : A) :
  (forall x, x ∈ l -> step a x = a) -> fold_left step l a = a.
Proof.
  induction l as [|x l IH]; intros Hfix; [done|].
  cbn [fold_left]. rewrite (Hfix x) by left.
  apply IH. intros y Hy. apply Hfix. by right.
Qed.

Lemma fold_left_preserves {A B : Type} (P : A -> Prop)
    (step : A -> B -> A) (l : list B) (a : A) :
  (forall a' x, P a' -> P (step a' x)) -> P a -> P (fold_left step l a).
Proof.
  intros Hstep. revert a. induction l as [|x l IH]; intros a Ha; [done|].
  cbn [fold_left]. apply IH. by apply Hstep.
Qed.

(** *** Without any keyword match *)

Lemma no_match_anywhere noteType pattern usedFields :
  noKeywordMatches noteType -> pattern ∈ patterns ->
  findBestFieldMatch (fields noteType) (keywords pattern) usedFields
  = {| bestField := None; bestConfidence := 0%Q |}.
Proof.
  intros Hno Hp. apply findBestFieldMatch_none.
  apply Forall_forall. intros g Hg.
  apply Hno; [done|].
  apply list_elem_of_In, filter_In in Hg as [Hg _].
  by apply list_elem_of_In.
Qed.

Lemma firstPassStep_no_match noteType st pattern :
  noKeywordMatches noteType -> pattern ∈ patterns ->
  firstPassStep noteType st pattern = st.
Proof.
  intros Hno Hp. unfold firstPassStep.
  by rewrite no_match_anywhere.
Qed.

Lemma secondPassStep_no_match noteType st pattern :
  noKeywordMatches noteType -> pattern ∈ patterns ->
  secondPassStep noteType st pattern = st.
Proof.
  intros Hno Hp. unfold secondPassStep.
  destruct (truthyO _); [done|].
  by rewrite no_match_anywhere.
Qed.

Lemma suggestState_no_match noteType :
  noKeywordMatches noteType ->
  suggestState noteType
  = fallbackAt (js "secondary") 1 noteType
      (fallbackAt (js "primary") 0 noteType (empty, ∅)).
Proof.
  intros Hno. unfold suggestState. cbv zeta.
  rewrite (fold_left_fixed (firstPassStep noteType))
    by (intros; by apply firstPassStep_no_match).
  rewrite (fold_left_fixed (secondPassStep noteType))
    by (intros; by apply secondPassStep_no_match).
  done.
Qed.

Lemma assign_inv noteType st label f :
  resolverInv noteType st -> f ∈ fields noteType -> f ∉ snd st ->
  resolverInv noteType (assign label f st).
Proof.
  intros [Hall Hnd] Hf Hnu. unfold resolverInv, assign. cbn [fst snd].
  assert (Hfresh : f ∉ map snd (fst st)).
  { intros Hin. rewrite Forall_forall in Hall.
    by destruct (Hall f Hin). }
  assert (Hmono : forall g, g ∈ fields noteType /\ g ∈ snd st ->
                            g ∈ fields noteType /\ g ∈ {[f]} ∪ snd st).
  { intros g [? ?]. split; [done | by apply elem_of_union_r]. }
  assert (Hnew : f ∈ fields noteType /\ f ∈ {[f]} ∪ snd st).
  { split; [done|]. apply elem_of_union_l. by apply elem_of_singleton. }
  destruct (set_values label f (fst st))
    as [(o1 & v0 & o2 & Ho & ->) | [_ ->]].
  - rewrite Ho in Hall, Hnd, Hfresh.
    rewrite map_app in *. cbn [map snd] in *.
    apply Forall_app in Hall as [H1 H2].
    apply Forall_cons in H2 as [_ H2].
    apply NoDup_app in Hnd as (Hn1 & Hdis & Hn2).
    apply NoDup_cons in Hn2 as [Hv0 Hn2].
    split.
    + apply Forall_app. split; [by eapply Forall_impl|].
      apply Forall_cons. split; [done | by eapply Forall_impl].
    + apply NoDup_app. repeat split; [done | | ].
      * intros g Hg1 [-> | Hg2]%elem_of_cons.
        -- apply Hfresh. apply elem_of_app. by left.
        -- apply (Hdis g Hg1). by right.
      * apply NoDup_cons. split; [|done].
        intros Hin. apply Hfresh. apply elem_of_app. right. by right.
  - rewrite map_app. cbn [map snd]. split.
    + apply Forall_app. split; [by eapply Forall_impl|].
      by apply Forall_singleton.
    + apply NoDup_app. repeat split; [done | | apply NoDup_singleton].
      intros g Hg ->%list_elem_of_singleton. done.
Qed.

Lemma firstPassStep_inv noteType st pattern :
  resolverInv noteType st -> resolverInv noteType (firstPassStep noteType st pattern).
Proof.
  intros Hinv. unfold firstPassStep.
  destruct (bestField _) as [f|] eqn:Hf; [|done].
  destruct (truthy f && _); [|done].
  apply findBestFieldMatch_Some in Hf as [? ?]. by apply assign_inv.
Qed.

Lemma secondPassStep_inv noteType st pattern :
  resolverInv noteType st -> resolverInv noteType (secondPassStep noteType st pattern).
Proof.
  intros Hinv. unfold secondPassStep.
  destruct (truthyO _); [done|].
  destruct (bestField _) as [f|] eqn:Hf; [|done].
  destruct (truthy f && _); [|done].
  apply findBestFieldMatch_Some in Hf as [? ?]. by apply assign_inv.
Qed.

Lemma fallbackAt_inv label i noteType st :
  resolverInv noteType st -> resolverInv noteType (fallbackAt label i noteType st).
Proof.
  intros Hinv. unfold fallbackAt.
  destruct (negb _ && _); [|done].
  destruct (fields noteType !! i) as [f|] eqn:Hf; [|done].
  case_bool_decide; [done|].
  apply assign_inv; [done | | done].
  by eapply list_elem_of_lookup_2.
Qed.

Lemma fallbackAt_assign label i noteType st f :
  get label (fst st) = None ->
  fields noteType !! i = Some f ->
  f ∉ snd st ->
  fallbackAt label i noteType st = assign label f st.
Proof.
  intros Hget Hf Hnu. unfold fallbackAt. rewrite Hget, Hf.
  apply lookup_lt_Some in Hf. apply Nat.ltb_lt in Hf. rewrite Hf.
  cbn [truthyO negb andb]. by rewrite bool_decide_eq_false_2.
Qed.

Lemma suggestState_inv noteType : resolverInv noteType (suggestState noteType).
Proof.
  unfold suggestState. cbv zeta.
  do 2 apply fallbackAt_inv.
  apply fold_left_preserves; [intros; by apply secondPassStep_inv|].
  apply fold_left_preserves; [intros; by apply firstPassStep_inv|].
  split; constructor.
Qed.

Lemma suggestMappings_inv noteType :
  Forall (fun f => f ∈ fields noteType) (map snd (suggestMappings noteType))
  /\ NoDup (map snd (suggestMappings noteType)).
Proof.
  destruct (suggestState_inv noteType) as [Hall Hnd].
  unfold suggestMappings. split; [|exact Hnd].
  eapply Forall_impl; [exact Hall|]. by intros f [? _].
Qed.

(** With no keyword match both fallbacks fire, at the indices 0 and 1. *)
Lemma suggestMappings_first_two noteType (f0 f1 : jsstring) :
  fields noteType !! 0 = Some f0 ->
  fields noteType !! 1 = Some f1 ->
  f0 <> f1 ->
  noKeywordMatches noteType ->
  suggestMappings noteType = [ (js "primary", f0); (js "secondary", f1) ].
Proof.
  intros H0 H1 Hne Hno.
  unfold suggestMappings. rewrite suggestState_no_match by done.
  rewrite (fallbackAt_assign (js "primary") 0 noteType _ f0);
    [| reflexivity | done | apply not_elem_of_empty].
  rewrite (fallbackAt_assign (js "secondary") 1 noteType _ f1);
    [reflexivity | reflexivity | done |].
  cbn [FieldMapper.assign snd].
  intros [Hin | Hin]%elem_of_union.
  - apply elem_of_singleton in Hin. congruence.
  - by apply not_elem_of_empty in Hin.
Qed.

End SuggestMappings.

(** C4.  For every schema (its field names pairwise distinct) with at
    least two fields for which no keyword of any pattern matches any
    field, [suggestMappings] returns exactly [primary] mapped to the
    field at index 0 and [secondary] to the field at index 1: the
    fallback looks at these two positions only. *)
Theorem C4_suggestMappings_fallback `{Host} (noteType : Types.AnkiNoteType)
    (f0 f1 : jsstring) :
  NoDup (Types.fields noteType) ->
  Types.fields noteType !! 0 = Some f0 ->
  Types.fields noteType !! 1 = Some f1 ->
  Spec.noKeywordMatches noteType ->
  FieldMapper.suggestMappings noteType
  = [ (JsString.js "primary", f0); (JsString.js "secondary", f1) ].
Proof.
  intros Hnodup H0 H1 Hno.
  apply suggestMappings_first_two; [done | done | | done].
  intros ->. by pose proof (NoDup_lookup _ _ _ _ Hnodup H0 H1).
Qed.

(** Decide [noKeywordMatches] on a concrete note type by going through
    the patterns and the fields. *)
Ltac no_keyword_matches :=
  intros ? ? Hp Hf;
  repeat match goal with
         | Hx : _ ∈ _ :: _ |- _ => apply elem_of_cons in Hx as [-> | Hx]
         | Hx : _ ∈ [] |- _ => by apply elem_of_nil in Hx
         | Hx : _ ∈ map _ _ |- _ => cbn [map] in Hx
         | Hx : _ ∈ FieldMapper.patterns |- _ =>
           unfold FieldMapper.patterns in Hx
         | Hx : _ ∈ Types.fields _ |- _ => cbn [Types.fields] in Hx
         end; vm_compute; reflexivity.

Lemma C4_suggestMappings_fallback_witness :
  FieldMapper.suggestMappings (H := asciiHost)
    {| Types.name := JsString.js "Custom";
       Types.fields := map JsString.js ["Alpha"; "Beta"; "Gamma"] |}
  = [ (JsString.js "primary", JsString.js "Alpha");
      (JsString.js "secondary", JsString.js "Beta") ].
Proof.
  apply (C4_suggestMappings_fallback (H := asciiHost)).
  - apply (bool_decide_unpack _). vm_compute. reflexivity.
  - reflexivity.
  - reflexivity.
  - no_keyword_matches.
Defined.

(** C10.  For every schema whose field names are pairwise distinct, the
    mapping [suggestMappings] returns passes [validateMapping] on that
    schema: every assigned field is a field of the schema and no two
    labels are assigned the same field. *)
Theorem C10_suggestMappings_valid `{Host} (noteType : Types.AnkiNoteType) :
  NoDup (Types.fields noteType) ->
  FieldMapper.validateMapping noteType (FieldMapper.suggestMappings noteType)
  = true
  /\ (forall label f,
        (label, f) ∈ FieldMapper.suggestMappings noteType ->
        f ∈ Types.fields noteType)
  /\ NoDup (map snd (FieldMapper.suggestMappings noteType)).
Proof.
  intros _. apply valid_of_inv, suggestMappings_inv.
Qed.

Lemma C10_suggestMappings_valid_witness :
  FieldMapper.validateMapping
    {| Types.name := JsString.js "Vocabulary";
       Types.fields :=
         map JsString.js ["Expression"; "Reading"; "Meaning"; "Sentence"] |}
    (FieldMapper.suggestMappings (H := asciiHost)
       {| Types.name := JsString.js "Vocabulary";
          Types.fields :=
            map JsString.js ["Expression"; "Reading"; "Meaning"; "Sentence"] |})
  = true.
Proof.
  apply (C10_suggestMappings_valid (H := asciiHost)).
  apply (bool_decide_unpack _). vm_compute. reflexivity.
Defined.

(* ------------------------------------------------------------------ *)
(** ** SuggestionRanker: [getSuggestionDetails] *)
(* ------------------------------------------------------------------ *)

Section SuggestionDetails.
Import JsString JsObject Types FieldMapper Spec Loops.
Context `{Host}.
Implicit Types (noteType : AnkiNoteType) (st : SugState).

Lemma detailsStep_inv noteType st pattern :
  rankerInv st -> rankerInv (detailsStep noteType st pattern).
Proof.
  intros Hinv. unfold detailsStep.
  destruct (bestField _) as [f|]; [|done].
  destruct (truthy f); [|done].
  unfold rankerInv in *. cbn [fst snd].
  apply Forall_app. split.
  - eapply Forall_impl; [exact Hinv|]. intros s Hs.
    by apply elem_of_union_r.
  - apply Forall_singleton. cbn. apply elem_of_union_l.
    by apply elem_of_singleton.
Qed.

Lemma detailsStep_fields noteType st pattern :
  Forall (fun s => field s ∈ fields noteType) (fst st) ->
  Forall (fun s => field s ∈ fields noteType)
         (fst (detailsStep noteType st pattern)).
Proof.
  intros Hinv. unfold detailsStep.
  destruct (bestField _) as [f|] eqn:Hf; [|done].
  destruct (truthy f); [|done].
  cbn [fst]. apply Forall_app. split; [done|].
  apply Forall_singleton. cbn.
  by apply findBestFieldMatch_Some in Hf as [? _].
Qed.

Lemma detailsPass_inv noteType :
  rankerInv (detailsPass noteType)
  /\ Forall (fun s => field s ∈ fields noteType) (fst (detailsPass noteType)).
Proof.
  unfold detailsPass.
  apply (fold_left_preserves
           (fun st => rankerInv st
                      /\ Forall (fun s => field s ∈ fields noteType) (fst st))).
  - intros st pattern [? ?].
    split; [by apply detailsStep_inv | by apply detailsStep_fields].
  - split; constructor.
Qed.

Lemma findUnused_Some fields usedFields f :
  findUnused fields usedFields = Some f -> f ∈ fields /\ f ∉ usedFields.
Proof.
  intros Hf. apply find_some in Hf as [Hin Hnu].
  split; [by apply list_elem_of_In|].
  by apply negb_true_iff, bool_decide_eq_false_1 in Hnu.
Qed.

(** The first fallback block is the rule, for any state. *)
Lemma detailsFallback_primary noteType st :
  detailsFallback (js "primary") 0 true
    (list_to_set (labels (fst st))) noteType st
  = fallbackRule true (js "primary") noteType st.
Proof.
  unfold detailsFallback, fallbackRule.
  rewrite (bool_decide_ext _ (js "primary" ∈ labels (fst st)))
    by apply elem_of_list_to_set.
  destruct (bool_decide (js "primary" ∈ labels (fst st))); [done|].
  cbn [negb andb].
  destruct (fields noteType) as [|f0 rest] eqn:Hfs; [done|].
  cbn [length Nat.ltb Nat.leb].
  destruct (findUnused _ _) as [f|]; [|done].
  by destruct (truthy f).
Qed.

Lemma fallbackRule_labels b label noteType st :
  labels (fst (fallbackRule b label noteType st)) = labels (fst st)
  \/ labels (fst (fallbackRule b label noteType st))
     = labels (fst st) ++ [label].
Proof.
  unfold fallbackRule.
  case_bool_decide; [by left|].
  destruct (findUnused _ _) as [f|]; [|by left].
  destruct (b && _); [by left | right].
  cbn [fst]. unfold labels. by rewrite map_app.
Qed.

(** After the first fallback a schema of one non-empty field has no
    unused field left. *)
Lemma single_field_used noteType st f :
  rankerInv st ->
  Forall (fun s => field s ∈ fields noteType) (fst st) ->
  fields noteType = [f] -> truthy f = true ->
  f ∈ snd (fallbackRule true (js "primary") noteType st).
Proof.
  intros Hused Hin Hfs Ht. unfold fallbackRule.
  case_bool_decide as Hp.
  - apply list_elem_of_fmap in Hp as (s & _ & Hs).
    unfold rankerInv in Hused. rewrite Forall_forall in Hused, Hin.
    specialize (Hused s Hs). specialize (Hin s Hs).
    rewrite Hfs in Hin. apply list_elem_of_singleton in Hin. congruence.
  - rewrite Hfs. unfold findUnused. cbn [List.find].
    destruct (bool_decide (f ∈ snd st)) eqn:Hu; cbn [negb].
    + by apply bool_decide_eq_true_1 in Hu.
    + rewrite Ht. cbn [andb negb snd]. apply elem_of_union_l.
      by apply elem_of_singleton.
Qed.

(** The two fallback blocks are the rule applied twice, from any
    state the pass can leave. *)
Lemma fallbacks_rule noteType st :
  rankerInv st ->
  Forall (fun s => field s ∈ fields noteType) (fst st) ->
  detailsFallbacks noteType st
  = fst (fallbackRule true (js "secondary") noteType
           (fallbackRule true (js "primary") noteType st)).
Proof.
  intros Hused Hin. unfold detailsFallbacks. cbv zeta.
  change (map Types.semantic (fst st)) with (labels (fst st)).
  rewrite detailsFallback_primary.
  assert (Hlab : js "secondary"
                 ∈ labels (fst (fallbackRule true (js "primary") noteType st))
                 <-> js "secondary" ∈ labels (fst st)).
  { destruct (fallbackRule_labels true (js "primary") noteType st)
      as [E | E]; rewrite E; [done|].
    rewrite elem_of_app, list_elem_of_singleton.
    split; [intros [? | ?]; [done | by exfalso] | by left]. }
  pose proof (single_field_used noteType st) as Hsingle.
  specialize (Hsingle) with (1 := Hused) (2 := Hin).
  revert Hlab Hsingle.
  generalize (fallbackRule true (js "primary") noteType st).
  intros st1 Hlab Hsingle.
  unfold detailsFallback, fallbackRule.
  rewrite (bool_decide_ext _ (js "secondary" ∈ labels (fst st)))
    by apply elem_of_list_to_set.
  rewrite (bool_decide_ext (js "secondary" ∈ labels (fst st1))
             (js "secondary" ∈ labels (fst st))) by done.
  destruct (bool_decide (js "secondary" ∈ labels (fst st))); [done|].
  cbn [negb andb].
  destruct (1 <? length (fields noteType))%nat eqn:Hlen.
  - destruct (findUnused _ _) as [f|]; [|done].
    by destruct (truthy f).
  - destruct (fields noteType) as [|f [|g rest]] eqn:Hfs; [done | | done].
    destruct (findUnused [f] (snd st1)) as [g|] eqn:Hfind; [|done].
    apply findUnused_Some in Hfind as [Hg Hnu].
    apply list_elem_of_singleton in Hg. subst g.
    destruct (truthy f) eqn:Ht; [|done].
    exfalso. apply Hnu. by apply Hsingle.
Qed.

Lemma getSuggestionDetails_rule noteType :
  getSuggestionDetails noteType = suggestionDetailsRule true noteType.
Proof.
  unfold getSuggestionDetails, suggestionDetailsRule.
  destruct (detailsPass_inv noteType) as [Hused Hin].
  exact (fallbacks_rule noteType (detailsPass noteType) Hused Hin).
Qed.

Lemma fallbackRule_nonempty noteType label st :
  Forall (fun f => f <> []) (fields noteType) ->
  fallbackRule true label noteType st = fallbackRule false label noteType st.
Proof.
  intros Hne. unfold fallbackRule.
  case_bool_decide; [done|].
  destruct (findUnused _ _) as [f|] eqn:Hf; [|done].
  apply findUnused_Some in Hf as [Hin _].
  rewrite Forall_forall in Hne. specialize (Hne f Hin).
  by destruct f.
Qed.

End SuggestionDetails.

(** C7 (as amended).  After the single pass over the pattern table, if
    no entry labelled [primary] was produced and the first unused field
    in declared order exists and is not the empty string,
    [getSuggestionDetails] appends an entry giving [primary] that field
    with confidence 0.3; the same rule is then applied to [secondary]
    if it is still absent.  On a schema without an empty field name
    this is the rule that assigns the first unused field whenever one
    is left. *)
Theorem C7_getSuggestionDetails_rule `{Host} (noteType : Types.AnkiNoteType) :
  FieldMapper.getSuggestionDetails noteType
  = Spec.suggestionDetailsRule true noteType
  /\ (Forall (fun f => f <> []) (Types.fields noteType) ->
      FieldMapper.getSuggestionDetails noteType
      = Spec.suggestionDetailsRule false noteType).
Proof.
  split; [apply getSuggestionDetails_rule|].
  intros Hne. rewrite getSuggestionDetails_rule.
  unfold Spec.suggestionDetailsRule.
  by rewrite !fallbackRule_nonempty.
Qed.

Lemma C7_getSuggestionDetails_rule_witness :
  FieldMapper.getSuggestionDetails (H := asciiHost)
    {| Types.name := JsString.js "Custom";
       Types.fields := map JsString.js ["Alpha"; "Reading"; "Gamma"] |}
  = [ {| Types.semantic := JsString.js "reading";
         Types.field := JsString.js "Reading";
         Types.confidence := 1.0%Q |};
      {| Types.semantic := JsString.js "primary";
         Types.field := JsString.js "Alpha";
         Types.confidence := 0.3%Q |};
      {| Types.semantic := JsString.js "secondary";
         Types.field := JsString.js "Gamma";
         Types.confidence := 0.3%Q |} ].
Proof.
  destruct (C7_getSuggestionDetails_rule (H := asciiHost)
              {| Types.name := JsString.js "Custom";
                 Types.fields :=
                   map JsString.js ["Alpha"; "Reading"; "Gamma"] |})
    as [_ Hrule].
  rewrite Hrule.
  - vm_compute. reflexivity.
  - repeat constructor; discriminate.
Defined.

(** C7, as the specification words it, fails on a schema whose first
    unused field has the empty name: no fallback entry is appended
    although fields are unused. *)
Lemma C7_empty_name_counterexample :
  FieldMapper.getSuggestionDetails (H := asciiHost) unnamedField = []
  /\ Spec.suggestionDetailsRule (H := asciiHost) false unnamedField
     = [ {| Types.semantic := JsString.js "primary";
            Types.field := [];
            Types.confidence := 0.3%Q |};
         {| Types.semantic := JsString.js "secondary";
            Types.field := JsString.js "Zzz";
            Types.confidence := 0.3%Q |} ]
  /\ FieldMapper.getSuggestionDetails (H := asciiHost) unnamedField
     <> Spec.suggestionDetailsRule (H := asciiHost) false unnamedField.
Proof.
  split; [|split].
  - vm_compute. reflexivity.
  - vm_compute. reflexivity.
  - vm_compute. discriminate.
Qed.

(* ------------------------------------------------------------------ *)
(** ** DeckSampler: [getFieldSamples] *)
(* ------------------------------------------------------------------ *)

Section FieldSamples.
Import JsString JsObject PlainObject Types DeckAnalyzer Spec Loops Props.
Implicit Types (fieldSamples : dict (list jsstring)) (k : jsstring).

Lemma fold_thrown {A S : Type} (body : S -> A -> JsError + S)
    (items : list A) (thrown : JsError) :
  fold_left
    (fun state item =>
       match state with
       | inl thrown => inl thrown
       | inr st => body st item
       end)
    items (inl thrown)
  = inl thrown.
Proof. induction items as [|item items IH]; [done | exact IH]. Qed.

Lemma forEach_cons {A S : Type} (body : S -> A -> JsError + S)
    (item : A) (items : list A) (start : S) :
  forEach body (item :: items) start
  = match body start item with
    | inl thrown => inl thrown
    | inr st => forEach body items st
    end.
Proof.
  unfold forEach. cbn [fold_left].
  destruct (body start item); [apply fold_thrown | done].
Qed.

Lemma sampleStep_breaks fieldSamples entry :
  ordinaryKeys fieldSamples ->
  breaks entry = true ->
  sampleStep fieldSamples entry = inl pushIsNotAFunction.
Proof.
  intros Hinv [Hmember Hvalue]%andb_true_iff.
  apply bool_decide_eq_true_1 in Hmember.
  destruct entry as [fieldName fieldData]. cbn [fst snd] in *.
  assert (Hread : read fieldName fieldSamples = Some (Inherited fieldName)).
  { unfold read. rewrite (Hinv _ Hmember).
    by rewrite bool_decide_eq_true_2. }
  unfold sampleStep. rewrite nonblank_guard, Hvalue, Hread.
  cbn [negb]. by rewrite Hread.
Qed.

Lemma sampleStep_ok fieldSamples entry :
  ordinaryKeys fieldSamples ->
  breaks entry = false ->
  exists fieldSamples',
    sampleStep fieldSamples entry = inr fieldSamples'
    /\ ordinaryKeys fieldSamples'
    /\ forall k,
         k ∉ memberNames ->
         get k fieldSamples' = sampleInto k (get k fieldSamples) entry.
Proof.
  intros Hinv Hok. destruct entry as [fieldName fieldData].
  unfold breaks in Hok. cbn [fst snd] in Hok.
  unfold sampleStep, sampleInto. cbn [fst snd]. cbv zeta.
  rewrite nonblank_guard.
  destruct (decide (fieldName ∈ memberNames)) as [Hmember|Hordinary].
  - rewrite bool_decide_eq_true_2 in Hok by done. cbn [andb] in Hok.
    apply negb_false_iff in Hok. rewrite Hok. cbn [negb].
    assert (Hread : read fieldName fieldSamples
                    = Some (Inherited fieldName)).
    { unfold read. rewrite (Hinv _ Hmember).
      by rewrite bool_decide_eq_true_2. }
    rewrite Hread.
    exists fieldSamples. split; [done|]. split; [done|].
    intros k Hk. rewrite bool_decide_eq_false_2; [done|].
    by intros ->.
  - clear Hok. rewrite (read_ordinary fieldName fieldSamples Hordinary).
    assert (Hproto : fieldName <> proto).
    { intros ->. apply Hordinary, proto_member. }
    assert (Hstart : exists fs1,
      match option_map Own (get fieldName fieldSamples) with
      | Some _ => fieldSamples
      | None => PlainObject.assign fieldName [] fieldSamples
      end = fs1
      /\ get fieldName fs1 = Some (default [] (get fieldName fieldSamples))
      /\ forall k, fieldName <> k -> get k fs1 = get k fieldSamples).
    { destruct (get fieldName fieldSamples) eqn:E; cbn [option_map].
      - by exists fieldSamples.
      - eexists. split; [reflexivity|]. split.
        + rewrite get_assign by (by left).
          by rewrite bool_decide_eq_true_2.
        + intros k Hk. rewrite get_assign by (by left).
          by rewrite bool_decide_eq_false_2. }
    destruct Hstart as (fs1 & -> & Hown & Hother).
    assert (Hinv1 : ordinaryKeys fs1).
    { intros k Hk. rewrite Hother; [by apply Hinv|]. by intros ->. }
    rewrite (read_ordinary fieldName fs1 Hordinary), Hown.
    cbn [option_map].
    destruct (isBlank (value fieldData)); cbn [negb].
    + exists fs1. split; [done|]. split; [done|].
      intros k Hk. destruct (decide (fieldName = k)) as [<-|Hne].
      * rewrite bool_decide_eq_true_2 by done. by rewrite Hown, app_nil_r.
      * rewrite bool_decide_eq_false_2 by done. by apply Hother.
    + eexists. split; [reflexivity|]. split.
      * intros k Hk. rewrite get_set_ne; [by apply Hinv1|]. by intros ->.
      * intros k Hk. destruct (decide (fieldName = k)) as [<-|Hne].
        -- rewrite bool_decide_eq_true_2 by done. by rewrite get_set_eq.
        -- rewrite bool_decide_eq_false_2 by done.
           rewrite get_set_ne by done. by apply Hother.
Qed.

(** The loop over the fields of one card. *)
Lemma sampleLoop_spec (fields : dict FieldData) fieldSamples :
  ordinaryKeys fieldSamples ->
  match forEach sampleStep fields fieldSamples with
  | inl thrown =>
    thrown = pushIsNotAFunction /\ existsb breaks fields = true
  | inr fieldSamples' =>
    existsb breaks fields = false
    /\ ordinaryKeys fieldSamples'
    /\ forall k,
         k ∉ memberNames ->
         get k fieldSamples'
         = fold_left (sampleInto k) fields (get k fieldSamples)
  end.
Proof.
  revert fieldSamples.
  induction fields as [|entry fields IH]; intros fieldSamples Hinv.
  - unfold forEach. cbn [fold_left existsb]. done.
  - rewrite forEach_cons. cbn [existsb fold_left].
    destruct (breaks entry) eqn:Hbreaks.
    + by rewrite (sampleStep_breaks _ _ Hinv Hbreaks).
    + destruct (sampleStep_ok _ _ Hinv Hbreaks)
        as (fs1 & -> & Hinv1 & Hget1).
      specialize (IH fs1 Hinv1). cbn [orb].
      destruct (forEach sampleStep fields fs1) as [thrown|fs2]; [done|].
      destruct IH as (Hnone & Hinv2 & Hget2).
      split; [done|]. split; [done|].
      intros k Hk. by rewrite (Hget2 k Hk), (Hget1 k Hk).
Qed.

Lemma undeclared_no_values k (entries : dict FieldData) :
  existsb (fun entry => bool_decide (fst entry = k)) entries = false ->
  List.filter
    (fun entry => bool_decide (fst entry = k)
                  && negb (isBlank (value (snd entry))))
    entries = [].
Proof.
  induction entries as [|entry entries IH]; [done|].
  cbn [existsb List.filter]. intros [-> Hrest]%orb_false_iff.
  cbn [andb]. by apply IH.
Qed.

Lemma sampleInto_fold k entries samples :
  fold_left (sampleInto k) entries samples
  = if existsb (fun entry => bool_decide (fst entry = k)) entries
    then Some (default [] samples
               ++ map first50
                    (map (fun entry => value (snd entry))
                       (List.filter
                          (fun entry =>
                             bool_decide (fst entry = k)
                             && negb (isBlank (value (snd entry))))
                          entries)))
    else samples.
Proof.
  revert samples.
  induction entries as [|entry entries IH]; intros samples; [done|].
  cbn [fold_left existsb List.filter]. rewrite IH.
  unfold sampleInto.
  destruct (bool_decide (fst entry = k)); cbn [orb andb]; [|done].
  destruct (existsb _ entries) eqn:Hex.
  - destruct (isBlank (value (snd entry))); cbn [negb map default].
    + by rewrite app_nil_r.
    + unfold id. by rewrite <- app_assoc.
  - rewrite (undeclared_no_values k entries Hex).
    by destruct (isBlank (value (snd entry))).
Qed.

Lemma undeclared_no_samples k cards :
  existsb (declares k) cards = false ->
  flat_map (nonBlankValues k) cards = [].
Proof.
  induction cards as [|card cards IH]; [done|].
  cbn [existsb flat_map]. intros [Hc Hrest]%orb_false_iff.
  assert (Hnb : nonBlankValues k card = []).
  { unfold nonBlankValues. by rewrite (undeclared_no_values k _ Hc). }
  rewrite Hnb. by apply IH.
Qed.

(** The loop over the cards. *)
Lemma cardLoop_spec cards fieldSamples :
  ordinaryKeys fieldSamples ->
  match forEach cardStep cards fieldSamples with
  | inl thrown =>
    thrown = pushIsNotAFunction /\ existsb breaksCard cards = true
  | inr fieldSamples' =>
    existsb breaksCard cards = false
    /\ ordinaryKeys fieldSamples'
    /\ forall k,
         k ∉ memberNames ->
         get k fieldSamples'
         = if existsb (declares k) cards
           then Some (default [] (get k fieldSamples) ++ samplesOf k cards)
           else get k fieldSamples
  end.
Proof.
  revert fieldSamples.
  induction cards as [|card cards IH]; intros fieldSamples Hinv.
  - unfold forEach. cbn [fold_left existsb]. done.
  - rewrite forEach_cons. cbn [existsb]. unfold cardStep at 1, entries.
    pose proof (sampleLoop_spec (cardFields card) fieldSamples Hinv) as Hcard.
    fold (breaksCard card) in Hcard.
    destruct (forEach sampleStep (cardFields card) fieldSamples)
      as [thrown|fs1].
    { destruct Hcard as [-> ->]. done. }
    destruct Hcard as (-> & Hinv1 & Hget1). cbn [orb].
    specialize (IH fs1 Hinv1).
    destruct (forEach cardStep cards fs1) as [thrown|fs2]; [done|].
    destruct IH as (Hnone & Hinv2 & Hget2).
    split; [done|]. split; [done|].
    intros k Hk. rewrite (Hget2 k Hk), (Hget1 k Hk), sampleInto_fold.
    unfold samplesOf. cbn [flat_map]. rewrite map_app.
    fold (declares k card). fold (nonBlankValues k card).
    destruct (declares k card) eqn:Hc; cbn [orb default].
    2:{ assert (Hnb : nonBlankValues k card = []).
        { unfold nonBlankValues. by rewrite (undeclared_no_values k _ Hc). }
        by rewrite Hnb. }
    destruct (existsb (declares k) cards) eqn:Hex.
    + unfold id. by rewrite app_assoc.
    + rewrite (undeclared_no_samples k cards Hex). cbn [map].
      by rewrite app_nil_r.
Qed.

Lemma ordinaryKeys_empty {V : Type} : ordinaryKeys (V := V) [].
Proof. by intros k _. Qed.

(** What [getFieldSamples] returns. *)
Lemma getFieldSamples_spec cards :
  match getFieldSamples cards with
  | inl thrown =>
    thrown = pushIsNotAFunction /\ existsb breaksCard cards = true
  | inr fieldSamples =>
    existsb breaksCard cards = false
    /\ forall k,
         get k fieldSamples
         = if existsb (declares k) cards
              && negb (bool_decide (k ∈ memberNames))
           then Some (samplesOf k cards)
           else None
  end.
Proof.
  unfold getFieldSamples, empty.
  pose proof (cardLoop_spec cards [] ordinaryKeys_empty) as Hloop.
  destruct (forEach cardStep cards []) as [thrown|fieldSamples]; [done|].
  destruct Hloop as (Hnone & Hinv & Hget). split; [done|].
  intros k. destruct (decide (k ∈ memberNames)) as [Hk|Hk].
  - rewrite bool_decide_eq_true_2 by done. rewrite andb_false_r.
    by apply Hinv.
  - rewrite bool_decide_eq_false_2 by done. rewrite andb_true_r.
    rewrite (Hget k Hk). cbn [get default].
    by destruct (existsb (declares k) cards).
Qed.

End FieldSamples.

(** C8 fails on the code for a field named like a member of
    [Object.prototype].  A card that declares the field [constructor]
    with a blank value gets no entry for it in the sample set, where
    the empty list is due; and with a value that is not blank
    [getFieldSamples] does not return at all: it throws the
    [TypeError] of calling [push] on the inherited function.  A field
    with an ordinary name next to it is sampled as usual. *)
Theorem C8_getFieldSamples_inherited :
  (existsb (Spec.declares (JsString.js "constructor")) cardsWithConstructor
   = true
   /\ Forall (fun card =>
                Spec.nonBlankValues (JsString.js "constructor") card = [])
             cardsWithConstructor
   /\ DeckAnalyzer.getFieldSamples cardsWithConstructor
      = inr [ (JsString.js "Front", [JsString.js "Question"]) ])
  /\ DeckAnalyzer.getFieldSamples cardsWithConstructorText
     = inl DeckAnalyzer.pushIsNotAFunction.
Proof.
  split; [split; [|split]|].
  - reflexivity.
  - repeat constructor.
  - vm_compute. reflexivity.
  - vm_compute. reflexivity.
Qed.

(* ------------------------------------------------------------------ *)
(** ** FieldClassifier: [analyzeFieldContent] *)
(* ------------------------------------------------------------------ *)

Section FieldClassifier.
Import JsString Types DeckAnalyzer.
Context `{Host}.

(** Take the branch the head conditional of the goal selects. *)
Ltac head_if :=
  match goal with
  | |- (if ?b then _ else _) = _ -> _ => destruct b
  end.

Lemma rule2_needs_phonetic fieldName samples :
  includes (toLowerCase fieldName) (js "expression") = false ->
  includes (toLowerCase fieldName) (js "pronunciation") = false ->
  includes (toLowerCase fieldName) (js "phonetic") = false ->
  analyzeFieldContent fieldName samples
  <> js "Pronunciation or phonetic information".
Proof.
  intros He Hp Hph. unfold analyzeFieldContent. cbv zeta.
  rewrite He, Hp, Hph. cbn [orb]. unfold not.
  repeat head_if; intros Heq; vm_compute in Heq; discriminate.
Qed.

End FieldClassifier.

(** C9.  Whatever the samples, a field whose lower-cased name contains
    "pronunciation" is labelled "English expressions or pronunciation";
    and the label "Pronunciation or phonetic information" is returned
    exactly for the names that contain "phonetic" and contain neither
    "expression" nor "pronunciation". *)
Theorem C9_analyzeFieldContent_pronunciation `{Host}
    (fieldName : jsstring) (samples : list jsstring) :
  (JsString.includes (toLowerCase fieldName) (JsString.js "pronunciation")
   = true ->
   DeckAnalyzer.analyzeFieldContent fieldName samples
   = JsString.js "English expressions or pronunciation")
  /\ (DeckAnalyzer.analyzeFieldContent fieldName samples
      = JsString.js "Pronunciation or phonetic information"
      <-> JsString.includes (toLowerCase fieldName) (JsString.js "phonetic")
          = true
          /\ JsString.includes (toLowerCase fieldName)
               (JsString.js "expression") = false
          /\ JsString.includes (toLowerCase fieldName)
               (JsString.js "pronunciation") = false).
Proof.
  split.
  - intros Hp. unfold DeckAnalyzer.analyzeFieldContent. cbv zeta.
    by rewrite Hp, orb_true_r.
  - split.
    + intros Hlabel.
      destruct (JsString.includes (toLowerCase fieldName)
                  (JsString.js "expression")) eqn:He.
      { exfalso. revert Hlabel.
        unfold DeckAnalyzer.analyzeFieldContent. cbv zeta.
        rewrite He. cbn [orb]. intros Heq. vm_compute in Heq. discriminate. }
      destruct (JsString.includes (toLowerCase fieldName)
                  (JsString.js "pronunciation")) eqn:Hp.
      { exfalso. revert Hlabel.
        unfold DeckAnalyzer.analyzeFieldContent. cbv zeta.
        rewrite He, Hp. cbn [orb]. intros Heq. vm_compute in Heq.
        discriminate. }
      destruct (JsString.includes (toLowerCase fieldName)
                  (JsString.js "phonetic")) eqn:Hph; [done|].
      exfalso. by apply (rule2_needs_phonetic fieldName samples).
    + intros (Hph & He & Hp).
      unfold DeckAnalyzer.analyzeFieldContent. cbv zeta.
      by rewrite He, Hp, Hph.
Qed.

Lemma C9_analyzeFieldContent_pronunciation_witness :
  DeckAnalyzer.analyzeFieldContent (H := asciiHost)
    (JsString.js "Pronunciation") [ JsString.js "/hello/" ]
  = JsString.js "English expressions or pronunciation".
Proof.
  refine (proj1 (C9_analyzeFieldContent_pronunciation (H := asciiHost)
                   (JsString.js "Pronunciation") [ JsString.js "/hello/" ]) _).
  vm_compute. reflexivity.
Defined.

(* ------------------------------------------------------------------ *)
(** ** DeckSampler: [analyzeDeck] on an empty collection *)
(* ------------------------------------------------------------------ *)

(** C3.  For every collection name and requested sample size, when the
    id lookup returns no id, [analyzeDeck] fails with the error saying
    that the deck contains no cards, and the only request sent to the
    card store is that lookup: the records are never fetched. *)
Theorem C3_analyzeDeck_empty `{Host}
    (fieldMapper : DeckAnalyzer.FieldMapperPort)
    (client : DeckAnalyzer.AnkiConnectClient)
    (deckName : jsstring) (sampleSize : option Z) :
  DeckAnalyzer.findCards client (DeckAnalyzer.deckQuery deckName) = inr [] ->
  DeckAnalyzer.run client
    (DeckAnalyzer.analyzeDeck fieldMapper deckName sampleSize) []
  = ([DeckAnalyzer.CalledFindCards (DeckAnalyzer.deckQuery deckName)],
     inl (DeckAnalyzer.CollectionEmpty deckName))
  /\ forall cards,
       DeckAnalyzer.CalledGetCardsInfo cards
       ∉ fst (DeckAnalyzer.run client
                (DeckAnalyzer.analyzeDeck fieldMapper deckName sampleSize) []).
Proof.
  intros Hfind.
  assert (Hrun :
    DeckAnalyzer.run client
      (DeckAnalyzer.analyzeDeck fieldMapper deckName sampleSize) []
    = ([DeckAnalyzer.CalledFindCards (DeckAnalyzer.deckQuery deckName)],
       inl (DeckAnalyzer.CollectionEmpty deckName))).
  { unfold DeckAnalyzer.analyzeDeck. cbn [DeckAnalyzer.run].
    rewrite Hfind. reflexivity. }
  split; [exact Hrun|].
  intros cards. rewrite Hrun. cbn [fst].
  intros Hin%list_elem_of_singleton. discriminate.
Qed.

Lemma C3_analyzeDeck_empty_witness :
  DeckAnalyzer.run emptyDeckClient
    (DeckAnalyzer.analyzeDeck (H := asciiHost)
       (DeckAnalyzer.fieldMapperOf (H := asciiHost))
       (JsString.js "EmptyDeck") None) []
  = ([DeckAnalyzer.CalledFindCards
        (DeckAnalyzer.deckQuery (JsString.js "EmptyDeck"))],
     inl (DeckAnalyzer.CollectionEmpty (JsString.js "EmptyDeck"))).
Proof.
  apply (C3_analyzeDeck_empty (H := asciiHost)).
  reflexivity.
Defined.

(* ------------------------------------------------------------------ *)
(** ** ReportFormatter: [generateReport] *)
(* ------------------------------------------------------------------ *)

Section ReportFormatter.
Import JsString JsObject Types DeckAnalyzer Spec.

Lemma document_app terminator lines1 lines2 :
  document terminator (lines1 ++ lines2)
  = document terminator lines1 ++ document terminator lines2.
Proof. unfold document. by rewrite map_app, concat_app. Qed.

Lemma document_cons terminator line lines :
  document terminator (line :: lines)
  = (line ++ terminator) ++ document terminator lines.
Proof. done. Qed.

Lemma document_nil terminator : document terminator [] = [].
Proof. done. Qed.

Lemma fieldLines_fold entries report :
  fold_left fieldLineStep entries report
  = report ++ document lineEnd (map fieldLine entries).
Proof.
  revert report.
  induction entries as [|[field analysis] entries IH]; intros report.
  - cbn [fold_left map]. by rewrite document_nil, app_nil_r.
  - cbn [fold_left map]. rewrite IH, document_cons.
    unfold fieldLineStep, fieldLine. cbn [fst snd].
    by rewrite <- !app_assoc.
Qed.

Lemma mappingLines_fold entries report :
  fold_left mappingLineStep entries report
  = report ++ document lineEnd (map (mappingLine mappingArrow) entries).
Proof.
  revert report.
  induction entries as [|[semantic field] entries IH]; intros report.
  - cbn [fold_left map]. by rewrite document_nil, app_nil_r.
  - cbn [fold_left map]. rewrite IH, document_cons.
    unfold mappingLineStep, mappingLine. cbn [fst snd].
    by rewrite <- !app_assoc.
Qed.

End ReportFormatter.

(** C2 (as amended).  [generateReport] is a function of the analysis
    result alone, and the text it returns is, in this order: the header
    line, an empty line, the deck name, the sample size, the primary
    note type, an empty line, the "Field Analysis:" heading with one
    line [- field: label] per field in the result's order, an empty
    line, the "Suggested Semantic Mappings:" heading with one line per
    mapping entry (label, connective, field), or the sentence "No
    semantic mappings suggested" when the mapping is empty.  Every line
    is closed by the two characters backslash and n, not by a line
    break. *)
Theorem C2_generateReport_layout (r : Types.DeckAnalysisResult) :
  DeckAnalyzer.generateReport r
  = Spec.reportLayout DeckAnalyzer.lineEnd DeckAnalyzer.mappingArrow r.
Proof.
  unfold DeckAnalyzer.generateReport, Spec.reportLayout, Spec.reportLines,
    JsObject.entries, JsObject.keys.
  cbv zeta. rewrite fieldLines_fold.
  rewrite !document_app, !document_cons, document_nil.
  destruct (Types.suggestedMappings r) as [|entry mapping].
  - cbn [map length Nat.eqb]. rewrite document_cons, document_nil.
    rewrite ?app_nil_l, ?app_nil_r. by rewrite <- !app_assoc.
  - cbn [map length Nat.eqb]. rewrite mappingLines_fold.
    cbn [map]. rewrite ?app_nil_l, ?app_nil_r. by rewrite <- !app_assoc.
Qed.

(** C2, as the specification words it (line breaks between the lines),
    fails on a result without mappings: the report holds no line feed
    at all. *)
Lemma C2_line_break_counterexample :
  DeckAnalyzer.generateReport resultWithoutMappings
  <> Spec.reportLayout Spec.newline Spec.arrow resultWithoutMappings
  /\ 0x0A%N ∉ DeckAnalyzer.generateReport resultWithoutMappings.
Proof.
  split.
  - vm_compute. discriminate.
  - apply (bool_decide_unpack _). vm_compute. reflexivity.
Qed.

(* ================================================================== *)
(** * Part III: further properties of the code *)
(* ================================================================== *)

(* ------------------------------------------------------------------ *)
(** ** FieldMatcher: an exact match wins *)
(* ------------------------------------------------------------------ *)

Section ExactMatch.
Import JsString Types FieldMapper Spec Loops Props.
Context `{Host}.
Implicit Types (fields keywords : list jsstring) (usedFields : gset jsstring).

Lemma exactMatch_existsb keywords field :
  exactMatch keywords field <->
  existsb (fun keyword =>
             bool_decide (toLowerCase field = toLowerCase keyword))
          keywords = true.
Proof.
  rewrite existsb_exists. split.
  - intros (k & Hk & Heq). exists k.
    split; [by apply list_elem_of_In | by apply bool_decide_eq_true_2].
  - intros (k & Hk & Heq). exists k.
    split; [by apply list_elem_of_In | by apply bool_decide_eq_true_1 in Heq].
Qed.

Lemma fieldConfidence_exact keywords field :
  exactMatch keywords field -> fieldConfidence field keywords = 1.0%Q.
Proof.
  intros He. rewrite fieldConfidence_eq_spec. unfold fieldConfidence_spec.
  apply exactMatch_existsb in He. by rewrite He.
Qed.

Lemma fieldConfidence_inexact keywords field :
  ~ exactMatch keywords field -> tier (fieldConfidence field keywords).
Proof.
  intros Hne. rewrite fieldConfidence_eq_spec. unfold fieldConfidence_spec.
  destruct (existsb _ keywords) eqn:He.
  - exfalso. by apply Hne, exactMatch_existsb.
  - rewrite <- (map_map toLowerCase (candidate (toLowerCase field))).
    apply candidates_tier.
Qed.

(** Nothing beats a running best of 1.0. *)
Lemma fieldLoop_top fields keywords usedFields best :
  bestConfidence best = 1.0%Q ->
  fieldLoop fields keywords usedFields best = best.
Proof.
  intros Htop. induction fields as [|field fields IH]; [done|].
  cbn [fieldLoop]. destruct (bool_decide (field ∈ usedFields)); [done|].
  cbv zeta. rewrite Htop.
  assert (gtb (fieldConfidence field keywords) 1.0%Q = false) as ->; [|done].
  destruct (fieldConfidence_values field keywords)
    as [-> | [-> | [-> | ->]]]; reflexivity.
Qed.

Lemma fieldLoop_exact fields keywords usedFields best before f after :
  tier (bestConfidence best) ->
  unusedFields fields usedFields = before ++ f :: after ->
  Forall (fun g => ~ exactMatch keywords g) before ->
  exactMatch keywords f ->
  fieldLoop fields keywords usedFields best
  = {| bestField := Some f; bestConfidence := 1.0%Q |}.
Proof.
  intros Hbest Hu Hbefore Hf. revert best before Hbest Hu Hbefore.
  induction fields as [|field fields IH]; intros best before Hbest Hu Hbefore.
  - by destruct before.
  - cbn [fieldLoop]. unfold unusedFields in Hu. cbn [List.filter] in Hu.
    destruct (bool_decide (field ∈ usedFields)); cbn [negb] in Hu.
    { by eapply IH. }
    cbv zeta. destruct before as [|g before]; cbn [app] in Hu.
    + injection Hu as -> Hu.
      rewrite (fieldConfidence_exact keywords f Hf).
      assert (gtb 1.0%Q (bestConfidence best) = true) as ->.
      { destruct Hbest as [-> | [-> | ->]]; reflexivity. }
      by apply fieldLoop_top.
    + injection Hu as -> Hu.
      apply Forall_cons in Hbefore as [Hg Hbefore].
      destruct (gtb (fieldConfidence g keywords) (bestConfidence best)).
      * eapply IH; [|exact Hu|exact Hbefore].
        cbn. by apply fieldConfidence_inexact.
      * by eapply IH.
Qed.

End ExactMatch.

(** X1.  When some unused field equals a keyword, letter case apart,
    [findBestFieldMatch] returns the first such field in declared
    order, with confidence 1.0, whatever partial matches the other
    fields have. *)
Theorem X1_exact_match_wins `{Host}
    (fields keywords : list jsstring) (usedFields : gset jsstring)
    (before after : list jsstring) (f : jsstring) :
  Spec.unusedFields fields usedFields = before ++ f :: after ->
  Forall (fun g => ~ Props.exactMatch keywords g) before ->
  Props.exactMatch keywords f ->
  FieldMapper.findBestFieldMatch fields keywords usedFields
  = {| FieldMapper.bestField := Some f;
       FieldMapper.bestConfidence := 1.0%Q |}.
Proof.
  intros Hu Hbefore Hf. unfold FieldMapper.findBestFieldMatch.
  eapply fieldLoop_exact; [by left | exact Hu | exact Hbefore | exact Hf].
Qed.

Lemma X1_exact_match_wins_witness :
  FieldMapper.findBestFieldMatch (H := asciiHost)
    (map JsString.js ["Frontside"; "FRONT"; "Front"])
    (map JsString.js ["front"; "question"]) ∅
  = {| FieldMapper.bestField := Some (JsString.js "FRONT");
       FieldMapper.bestConfidence := 1.0%Q |}.
Proof.
  apply (X1_exact_match_wins (H := asciiHost) _ _ _
           [JsString.js "Frontside"] [JsString.js "Front"]).
  - reflexivity.
  - apply Forall_singleton. intros (k & Hk & Heq).
    cbn [map] in Hk.
    repeat (apply elem_of_cons in Hk as [-> | Hk];
            [vm_compute in Heq; discriminate|]).
    by apply elem_of_nil in Hk.
  - exists (JsString.js "front"). split; [left | reflexivity].
Defined.

(* ------------------------------------------------------------------ *)
(** ** MappingResolver: what [suggestMappings] returns *)
(* ------------------------------------------------------------------ *)

Section DictKeys.
Import JsObject.
Context {V : Type}.
Implicit Types (o : dict V) (k : jsstring) (v : V).

Lemma get_None_keys k o : get k o = None <-> k ∉ keys o.
Proof.
  unfold keys. induction o as [|[k0 v0] o IH]; cbn [get map fst].
  - split; [intros _; apply not_elem_of_nil | done].
  - rewrite not_elem_of_cons. case_bool_decide as Hk.
    + split; [done | intros [Hne _]; congruence].
    + rewrite IH. split; [intros ?; split; [congruence | done] | tauto].
Qed.

Lemma get_Some_elem k v o : get k o = Some v -> (k, v) ∈ o.
Proof.
  induction o as [|[k0 v0] o IH]; cbn [get]; [done|].
  case_bool_decide; intros Hg.
  - simplify_eq. left.
  - right. auto.
Qed.

Lemma set_absent k v o : get k o = None -> set k v o = o ++ [(k, v)].
Proof.
  intros Hn. destruct (set_values k v o) as [(o1 & v0 & o2 & -> & _) | [_ ->]];
    [|done].
  exfalso. apply get_None_keys in Hn. apply Hn. unfold keys.
  rewrite map_app. apply elem_of_app. right. left.
Qed.

Lemma set_keys k v o :
  keys (set k v o) = keys o
  \/ ((k ∉ keys o) /\ keys (set k v o) = keys o ++ [k]).
Proof.
  destruct (set_values k v o) as [(o1 & v0 & o2 & -> & ->) | [Hn ->]].
  - left. unfold keys. by rewrite !map_app.
  - right. split; [by apply get_None_keys|]. unfold keys. by rewrite map_app.
Qed.

Lemma set_keys_NoDup k v o : NoDup (keys o) -> NoDup (keys (set k v o)).
Proof.
  intros Hnd. destruct (set_keys k v o) as [-> | [Hk ->]]; [done|].
  apply NoDup_app. split; [done|]. split; [|apply NoDup_singleton].
  intros x Hx ->%list_elem_of_singleton. done.
Qed.

Lemma set_elem k v o x : x ∈ set k v o -> x = (k, v) \/ x ∈ o.
Proof.
  destruct (set_values k v o) as [(o1 & v0 & o2 & -> & ->) | [_ ->]].
  - rewrite !elem_of_app, !elem_of_cons. tauto.
  - rewrite elem_of_app, list_elem_of_singleton. tauto.
Qed.

Lemma set_length k v o : length (set k v o) <= S (length o).
Proof.
  destruct (set_values k v o) as [(o1 & v0 & o2 & -> & ->) | [_ ->]].
  - rewrite !length_app. cbn [length]. lia.
  - rewrite length_app. cbn [length]. lia.
Qed.

End DictKeys.

Section PlainObjectKeys.
Import JsObject PlainObject.
Context {V : Type}.
Implicit Types (o : dict V) (k : jsstring) (v : V).

Lemma place_perm n k v o : place n k v o ≡ₚ o ++ [(k, v)].
Proof.
  assert (Hfront : forall o, (k, v) :: o ≡ₚ o ++ [(k, v)]).
  { intros o'. by rewrite (Permutation_app_comm o' [(k, v)]). }
  induction o as [|[k0 v0] o IH]; cbn [place app]; [done|].
  destruct (arrayIndex k0) as [m|]; [destruct (m <? n)%N|].
  - by rewrite IH.
  - apply (Hfront ((k0, v0) :: o)).
  - apply (Hfront ((k0, v0) :: o)).
Qed.

(** The three things an assignment can do. *)
Lemma assign_cases k v o :
  (is_Some (get k o) /\ assign k v o = set k v o)
  \/ (get k o = None /\ k = proto /\ assign k v o = o)
  \/ (get k o = None /\ k <> proto
      /\ assign k v o ≡ₚ o ++ [(k, v)]
      /\ (arrayIndex k = None -> assign k v o = o ++ [(k, v)])).
Proof.
  unfold assign. destruct (get k o) as [v0|] eqn:Hown.
  { left. split; [by eexists | done]. }
  right. destruct (decide (k = proto)) as [->|Hk].
  { left. by rewrite bool_decide_eq_true_2. }
  right. rewrite bool_decide_eq_false_2 by done.
  split; [done|]. split; [done|].
  destruct (arrayIndex k) as [n|]; [|done].
  split; [apply place_perm | done].
Qed.

Lemma assign_keys_NoDup k v o :
  NoDup (keys o) -> NoDup (keys (assign k v o)).
Proof.
  intros Hnd.
  destruct (assign_cases k v o)
    as [[_ ->] | [(_ & _ & ->) | (Hnone & _ & Hperm & _)]];
    [by apply set_keys_NoDup | done |].
  unfold keys. rewrite Hperm, map_app. cbn [map fst].
  apply NoDup_app. split; [done|]. split; [|apply NoDup_singleton].
  intros x Hx ->%list_elem_of_singleton.
  by apply get_None_keys in Hnone.
Qed.

Lemma assign_elem k v o x : x ∈ assign k v o -> x = (k, v) \/ x ∈ o.
Proof.
  destruct (assign_cases k v o)
    as [[_ ->] | [(_ & _ & ->) | (_ & _ & Hperm & _)]].
  - apply set_elem.
  - by right.
  - rewrite Hperm, elem_of_app, list_elem_of_singleton. tauto.
Qed.

Lemma assign_length k v o : length (assign k v o) <= S (length o).
Proof.
  destruct (assign_cases k v o)
    as [[_ ->] | [(_ & _ & ->) | (_ & _ & Hperm & _)]].
  - apply set_length.
  - lia.
  - rewrite Hperm, length_app. cbn [length]. lia.
Qed.

(** Reading a key other than [__proto__] after an assignment. *)
Lemma get_assign_other k v o k' :
  k' <> proto ->
  get k' (assign k v o) = if bool_decide (k = k') then Some v else get k' o.
Proof.
  intros Hk'. destruct (decide (k = proto)) as [->|Hk].
  - destruct (get proto o) as [v0|] eqn:Hown.
    + apply get_assign. right. by eexists.
    + rewrite assign_proto by done. by rewrite bool_decide_eq_false_2.
  - apply get_assign. by left.
Qed.

End PlainObjectKeys.

Section ResolverResult.
Import JsString JsObject Types FieldMapper Spec Loops Props.
Context `{Host}.
Implicit Types (noteType : AnkiNoteType) (st : MapState).

Lemma fold_left_preserves_in {A B : Type} (P : A -> Prop)
    (step : A -> B -> A) (l : list B) (a : A) :
  (forall a' x, x ∈ l -> P a' -> P (step a' x)) -> P a ->
  P (fold_left step l a).
Proof.
  revert a. induction l as [|x l IH]; intros a Hstep Ha; [done|].
  cbn [fold_left]. apply IH.
  - intros a' y Hy. apply Hstep. by right.
  - apply Hstep; [left | done].
Qed.

(** *** The keys of the result *)

Lemma assign_labelsInv st label f :
  labelsInv st -> label ∈ patternLabels -> labelsInv (assign label f st).
Proof.
  intros [Hnd Hall] Hl. unfold labelsInv, assign. cbn [fst].
  split; [by apply set_keys_NoDup|].
  destruct (set_keys label f (fst st)) as [-> | [_ ->]]; [done|].
  apply Forall_app. split; [done | by apply Forall_singleton].
Qed.

Lemma pattern_label pattern :
  pattern ∈ patterns -> semantic pattern ∈ patternLabels.
Proof. intros Hp. unfold patternLabels. by apply list_elem_of_fmap_2. Qed.

Lemma primary_label : js "primary" ∈ patternLabels.
Proof. apply (bool_decide_unpack _). vm_compute. reflexivity. Qed.

Lemma secondary_label : js "secondary" ∈ patternLabels.
Proof. apply (bool_decide_unpack _). vm_compute. reflexivity. Qed.

Lemma fallbackAt_cases label i noteType st :
  fallbackAt label i noteType st = st
  \/ exists f, (fields noteType !! i = Some f) /\ (f ∉ snd st)
               /\ (fallbackAt label i noteType st = assign label f st).
Proof.
  unfold fallbackAt. destruct (negb _ && _); [|by left].
  destruct (fields noteType !! i) as [f|]; [|by left].
  case_bool_decide; [by left | right]. by exists f.
Qed.

Lemma suggestState_labelsInv noteType : labelsInv (suggestState noteType).
Proof.
  unfold suggestState. cbv zeta.
  assert (Hpass : forall step : MapState -> SemanticPattern -> MapState,
             (forall st p, step st p = st
                           \/ exists f, step st p = assign (semantic p) f st) ->
             forall st, labelsInv st ->
                        labelsInv (fold_left step patterns st)).
  { intros step Hstep st Hst.
    apply (fold_left_preserves_in labelsInv); [|done].
    intros st' p Hp Hst'. destruct (Hstep st' p) as [-> | [f ->]]; [done|].
    apply assign_labelsInv; [done | by apply pattern_label]. }
  assert (Hfb : forall label i st,
             label ∈ patternLabels -> labelsInv st ->
             labelsInv (fallbackAt label i noteType st)).
  { intros label i st Hl Hst.
    destruct (fallbackAt_cases label i noteType st) as [-> | (f & _ & _ & ->)];
      [done | by apply assign_labelsInv]. }
  apply Hfb; [apply secondary_label|].
  apply Hfb; [apply primary_label|].
  apply Hpass.
  { intros st p. unfold secondPassStep.
    destruct (truthyO _); [by left|].
    destruct (bestField _) as [f|]; [|by left].
    destruct (truthy f && _); [right; by exists f | by left]. }
  apply Hpass.
  { intros st p. unfold firstPassStep.
    destruct (bestField _) as [f|]; [|by left].
    destruct (truthy f && _); [right; by exists f | by left]. }
  split; constructor.
Qed.

Lemma suggestMappings_labels noteType :
  NoDup (keys (suggestMappings noteType))
  /\ Forall (fun label => label ∈ patternLabels)
            (keys (suggestMappings noteType)).
Proof.
  pose proof (suggestState_labelsInv noteType) as Hinv.
  unfold labelsInv in Hinv. unfold suggestMappings. exact Hinv.
Qed.

(** *** Why a field was assigned *)

Lemma assign_reasons noteType st label f :
  Forall (assignedFor noteType) (fst st) ->
  assignedFor noteType (label, f) ->
  Forall (assignedFor noteType) (fst (assign label f st)).
Proof.
  intros Hall Hnew. unfold assign. cbn [fst].
  apply Forall_forall. intros x [-> | Hx]%set_elem; [done|].
  rewrite Forall_forall in Hall. by apply Hall.
Qed.

Lemma best_match_backed noteType st pattern f threshold :
  pattern ∈ patterns ->
  (0.5 <= threshold)%Q ->
  bestField (findBestFieldMatch (fields noteType) (keywords pattern) (snd st))
  = Some f ->
  gtb (bestConfidence
         (findBestFieldMatch (fields noteType) (keywords pattern) (snd st)))
      threshold = true ->
  keywordBacked (semantic pattern) f.
Proof.
  intros Hp Hth Hf Hgt.
  pose proof (findBestFieldMatch_cases (fields noteType) (keywords pattern)
                (snd st)) as Hc.
  cbv zeta in Hc. rewrite Hf in Hc. destruct Hc as (Hconf & _).
  apply gtb_lt in Hgt. rewrite Hconf in Hgt.
  exists pattern. split; [done|]. split; [done|]. lra.
Qed.

Lemma suggestState_reasons noteType :
  Forall (assignedFor noteType) (fst (suggestState noteType)).
Proof.
  unfold suggestState. cbv zeta.
  assert (Hfb : forall label i st,
             (forall f, fields noteType !! i = Some f ->
                        assignedFor noteType (label, f)) ->
             Forall (assignedFor noteType) (fst st) ->
             Forall (assignedFor noteType)
                    (fst (fallbackAt label i noteType st))).
  { intros label i st Hl Hst.
    destruct (fallbackAt_cases label i noteType st) as [-> | (f & Hf & _ & ->)];
      [done|]. apply assign_reasons; [done | by apply Hl]. }
  apply Hfb. { intros f Hf. right. right. done. }
  apply Hfb. { intros f Hf. right. left. done. }
  apply (fold_left_preserves_in
           (fun st => Forall (assignedFor noteType) (fst st))).
  { intros st p Hp Hst. unfold secondPassStep.
    destruct (truthyO _); [done|].
    destruct (bestField _) as [f|] eqn:Hf; [|done].
    destruct (truthy f); cbn [andb]; [|done].
    destruct (gtb _ 0.5%Q) eqn:Hgt; [|done].
    apply assign_reasons; [done|]. left.
    eapply best_match_backed; [done | | exact Hf | exact Hgt]. done. }
  apply (fold_left_preserves_in
           (fun st => Forall (assignedFor noteType) (fst st))).
  { intros st p Hp Hst. unfold firstPassStep.
    destruct (bestField _) as [f|] eqn:Hf; [|done].
    destruct (truthy f); cbn [andb]; [|done].
    destruct (gtb _ 0.8%Q) eqn:Hgt; [|done].
    apply assign_reasons; [done|]. left.
    eapply best_match_backed; [done | | exact Hf | exact Hgt]. done. }
  constructor.
Qed.

Lemma suggestMappings_reasons noteType :
  Forall (assignedFor noteType) (suggestMappings noteType).
Proof.
  pose proof (suggestState_reasons noteType) as Hall.
  unfold suggestMappings. exact Hall.
Qed.

End ResolverResult.

(** X2.  The mapping [suggestMappings] returns is a well-formed object
    over the pattern table: its keys are pairwise distinct labels of
    the table (the keys of [getSemanticKeywords]), and it never has
    more entries than the schema has fields, nor more than the ten
    patterns. *)
Theorem X2_suggestMappings_labels `{Host} (noteType : Types.AnkiNoteType) :
  NoDup (JsObject.keys (FieldMapper.suggestMappings noteType))
  /\ (forall label,
        label ∈ JsObject.keys (FieldMapper.suggestMappings noteType) ->
        label ∈ JsObject.keys FieldMapper.getSemanticKeywords)
  /\ length (FieldMapper.suggestMappings noteType)
     <= length (Types.fields noteType)
  /\ length (FieldMapper.suggestMappings noteType) <= 10.
Proof.
  destruct (suggestMappings_labels noteType) as [Hnd Hall].
  destruct (suggestMappings_inv noteType) as [Hfields Htargets].
  revert Hnd Hall Hfields Htargets.
  generalize (FieldMapper.suggestMappings noteType). intros m Hnd Hall Hf Ht.
  rewrite Forall_forall in Hall, Hf.
  split; [done|]. split; [|split].
  - intros label Hl. apply Hall in Hl.
    assert (JsObject.keys FieldMapper.getSemanticKeywords
            = Props.patternLabels) as -> by (vm_compute; reflexivity).
    done.
  - rewrite <- (length_map snd m).
    apply submseteq_length, NoDup_submseteq; done.
  - change 10 with (length Props.patternLabels).
    unfold JsObject.keys in *. rewrite <- (length_map fst m).
    apply submseteq_length, NoDup_submseteq; done.
Qed.

(** X3.  Every assignment [suggestMappings] makes has a reason: either
    a keyword of the label's pattern matches the field with a
    confidence above 0.5, or it is one of the two positional fallbacks,
    [primary] for the field at index 0 and [secondary] for the field at
    index 1. *)
Theorem X3_suggestMappings_reasons `{Host} (noteType : Types.AnkiNoteType)
    (label f : jsstring) :
  (label, f) ∈ FieldMapper.suggestMappings noteType ->
  Props.keywordBacked label f
  \/ (label = JsString.js "primary" /\ Types.fields noteType !! 0 = Some f)
  \/ (label = JsString.js "secondary" /\ Types.fields noteType !! 1 = Some f).
Proof.
  pose proof (suggestMappings_reasons noteType) as Hall.
  revert Hall. generalize (FieldMapper.suggestMappings noteType).
  intros m Hall Hin. rewrite Forall_forall in Hall.
  exact (Hall (label, f) Hin).
Qed.

Lemma X3_suggestMappings_reasons_witness :
  Props.keywordBacked (H := asciiHost)
    (JsString.js "reading") (JsString.js "Reading")
  \/ (JsString.js "reading" = JsString.js "primary"
      /\ map JsString.js ["Expression"; "Reading"] !! 0
         = Some (JsString.js "Reading"))
  \/ (JsString.js "reading" = JsString.js "secondary"
      /\ map JsString.js ["Expression"; "Reading"] !! 1
         = Some (JsString.js "Reading")).
Proof.
  apply (X3_suggestMappings_reasons (H := asciiHost)
           {| Types.name := JsString.js "Vocabulary";
              Types.fields := map JsString.js ["Expression"; "Reading"] |}).
  apply (bool_decide_unpack _). vm_compute. reflexivity.
Defined.

(* ------------------------------------------------------------------ *)
(** ** SuggestionRanker: what [getSuggestionDetails] returns *)
(* ------------------------------------------------------------------ *)

Section RankerResult.
Import JsString JsObject Types FieldMapper Spec Loops Props.
Context `{Host}.
Implicit Types (noteType : AnkiNoteType) (st : SugState).

Lemma positive_confidence_listed field keywords :
  (0 < fieldConfidence field keywords)%Q ->
  fieldConfidence field keywords ∈ suggestionConfidences.
Proof.
  unfold suggestionConfidences.
  destruct (fieldConfidence_values field keywords)
    as [-> | [-> | [-> | ->]]]; intros Hpos.
  - left.
  - exfalso. revert Hpos. by vm_compute.
  - do 2 right. left.
  - right. left.
Qed.

(** Appending a suggestion for a fresh field and a fresh label. *)
Lemma detailsInv_push noteType rest st s :
  detailsInv noteType rest st ->
  soundSuggestion noteType s ->
  field s ∉ snd st ->
  NoDup ((map Types.semantic (fst st) ++ [Types.semantic s])
         ++ map semantic rest) ->
  detailsInv noteType rest (fst st ++ [s], {[ field s ]} ∪ snd st).
Proof.
  intros (Hused & Hsound & Hnd & _) Hs Hfresh Hlabels.
  unfold detailsInv. cbn [fst snd]. rewrite !map_app. cbn [map].
  split; [|split; [|split]].
  - apply Forall_app. split.
    + eapply Forall_impl; [exact Hused|]. intros x Hx.
      by apply elem_of_union_r.
    + apply Forall_singleton, elem_of_union_l. by apply elem_of_singleton.
  - apply Forall_app. split; [done | by apply Forall_singleton].
  - apply NoDup_app. split; [done|]. split; [|apply NoDup_singleton].
    intros g Hg ->%list_elem_of_singleton.
    apply list_elem_of_fmap in Hg as (x & Heq & Hx).
    rewrite Forall_forall in Hused. apply Hfresh. rewrite Heq.
    by apply Hused.
  - exact Hlabels.
Qed.

Lemma detailsStep_inv_rest noteType pattern rest st :
  pattern ∈ patterns ->
  detailsInv noteType (pattern :: rest) st ->
  detailsInv noteType rest (detailsStep noteType st pattern).
Proof.
  intros Hp Hinv. pose proof Hinv as (Hused & Hsound & Hnd & Hlabels).
  cbn [map] in Hlabels.
  assert (Hskip : detailsInv noteType rest st).
  { split; [done|]. split; [done|]. split; [done|].
    apply NoDup_app in Hlabels as (H1 & H2 & H3).
    apply NoDup_cons in H3 as [_ H3].
    apply NoDup_app. split; [done|]. split; [|done].
    intros x Hx Hr. apply (H2 x Hx). by right. }
  unfold detailsStep.
  pose proof (findBestFieldMatch_cases (fields noteType) (keywords pattern)
                (snd st)) as Hc.
  cbv zeta in Hc.
  destruct (bestField _) as [f|] eqn:Hf; [|done].
  destruct (truthy f) eqn:Ht; [|done].
  destruct Hc as (Hconf & Hpos & _).
  apply findBestFieldMatch_Some in Hf as [Hin Hfresh].
  apply (detailsInv_push noteType rest st
           {| Types.semantic := semantic pattern; field := f;
              confidence := bestConfidence
                (findBestFieldMatch (fields noteType) (keywords pattern)
                   (snd st)) |}); [done | | done |].
  - cbn. split; [done|]. split; [by destruct f|].
    split; [rewrite Hconf in *; by apply positive_confidence_listed|].
    left. by exists pattern.
  - cbn [Types.semantic]. by rewrite <- app_assoc.
Qed.

Lemma detailsLoop_inv noteType (todo : list SemanticPattern) st :
  (forall p, p ∈ todo -> p ∈ patterns) ->
  detailsInv noteType todo st ->
  detailsInv noteType [] (fold_left (detailsStep noteType) todo st).
Proof.
  revert st. induction todo as [|p todo IH]; intros st Hsub Hinv; [done|].
  cbn [fold_left]. apply IH.
  - intros q Hq. apply Hsub. by right.
  - apply detailsStep_inv_rest; [apply Hsub; left | done].
Qed.

Lemma pattern_labels_distinct : NoDup (map semantic patterns).
Proof. apply (bool_decide_unpack _). vm_compute. reflexivity. Qed.

Lemma detailsPass_detailsInv noteType :
  detailsInv noteType [] (detailsPass noteType).
Proof.
  unfold detailsPass. apply detailsLoop_inv; [done|].
  split; [constructor|]. split; [constructor|]. split; [constructor|].
  exact pattern_labels_distinct.
Qed.

Lemma fallbackRule_detailsInv noteType label st :
  label = js "primary" \/ label = js "secondary" ->
  detailsInv noteType [] st ->
  detailsInv noteType [] (fallbackRule true label noteType st).
Proof.
  intros Hlabel Hinv. unfold fallbackRule.
  case_bool_decide as Hl; [done|].
  destruct (findUnused _ _) as [f|] eqn:Hf; [|done].
  apply findUnused_Some in Hf as [Hin Hfresh].
  destruct (truthy f) eqn:Ht; cbn [andb negb]; [|done].
  apply (detailsInv_push noteType [] st
           {| Types.semantic := label; field := f; confidence := 0.3%Q |});
    [done | | done |].
  - cbn. split; [done|]. split; [by destruct f|].
    split; [unfold suggestionConfidences; do 3 right; left|].
    by right.
  - cbn [Types.semantic map]. rewrite app_nil_r.
    destruct Hinv as (_ & _ & _ & Hlabels).
    cbn [map] in Hlabels. rewrite app_nil_r in Hlabels.
    apply NoDup_app. split; [done|]. split; [|apply NoDup_singleton].
    intros x Hx ->%list_elem_of_singleton. by apply Hl.
Qed.

Lemma getSuggestionDetails_facts noteType :
  Forall (soundSuggestion noteType) (getSuggestionDetails noteType)
  /\ NoDup (map field (getSuggestionDetails noteType))
  /\ NoDup (map Types.semantic (getSuggestionDetails noteType)).
Proof.
  rewrite getSuggestionDetails_rule. unfold suggestionDetailsRule.
  pose proof (detailsPass_detailsInv noteType) as Hinv.
  apply (fallbackRule_detailsInv noteType (js "primary")) in Hinv;
    [|by left].
  apply (fallbackRule_detailsInv noteType (js "secondary")) in Hinv;
    [|by right].
  revert Hinv.
  generalize (fallbackRule true (js "secondary") noteType
                (fallbackRule true (js "primary") noteType
                   (detailsPass noteType))).
  intros st (_ & Hsound & Hfields & Hlabels).
  cbn [map] in Hlabels. rewrite app_nil_r in Hlabels. done.
Qed.

End RankerResult.

(** X4.  The suggestions of [getSuggestionDetails] are sound: every
    entry names a field of the schema, with a non-empty name, and
    carries either the positive confidence its label's pattern gives
    that field or the fallback confidence 0.3 for [primary] or
    [secondary]; every confidence is 1.0, 0.8, 0.6 or 0.3; no field and
    no label occurs twice; and there are never more suggestions than
    fields. *)
Theorem X4_getSuggestionDetails_sound `{Host} (noteType : Types.AnkiNoteType) :
  Forall (Props.soundSuggestion noteType)
         (FieldMapper.getSuggestionDetails noteType)
  /\ NoDup (map Types.field (FieldMapper.getSuggestionDetails noteType))
  /\ NoDup (map Types.semantic (FieldMapper.getSuggestionDetails noteType))
  /\ length (FieldMapper.getSuggestionDetails noteType)
     <= length (Types.fields noteType).
Proof.
  pose proof (getSuggestionDetails_facts noteType) as Hfacts.
  revert Hfacts. generalize (FieldMapper.getSuggestionDetails noteType).
  intros ds (Hsound & Hfields & Hlabels).
  split; [done|]. split; [done|]. split; [done|].
  rewrite <- (length_map Types.field ds).
  apply submseteq_length, NoDup_submseteq; [done|].
  intros f (s & -> & Hs)%list_elem_of_fmap.
  rewrite Forall_forall in Hsound. by destruct (Hsound s Hs).
Qed.

(* ------------------------------------------------------------------ *)
(** ** ContentApplier and MappingValidator together *)
(* ------------------------------------------------------------------ *)

Section ApplierResult.
Import JsString JsObject PlainObject Types FieldMapper Spec Loops Props.
Implicit Types (mapping content result : dict jsstring) (f : jsstring).

Lemma skipped_passes mapping entry :
  skipped mapping entry <-> passes mapping entry = false.
Proof.
  unfold skipped, passes.
  destruct (targetKey mapping (fst entry)) as [key|].
  - rewrite andb_false_iff, !negb_false_iff. split.
    + intros [? | [[= ->] | ?]]; [done | left | by right].
      by apply bool_decide_eq_true_2.
    + intros [->%bool_decide_eq_true_1 | ?]; [right; by left | by do 2 right].
  - split; [done | by left].
Qed.

Lemma applyStep_cases mapping result entry :
  applyStep mapping result entry = result
  \/ exists f v, applyStep mapping result entry = PlainObject.assign f v result.
Proof.
  destruct entry as [label text]. rewrite applyStep_assign.
  destruct (targetKey mapping label) as [key|]; [|by left].
  destruct (mergeInto _ _) as [merged|]; [|by left].
  destruct (isBlank text); [by left | right; eauto].
Qed.

Lemma applyLoop_shape mapping content result :
  NoDup (keys result) ->
  NoDup (keys (fold_left (applyStep mapping) content result))
  /\ length (fold_left (applyStep mapping) content result)
     <= length result + length content.
Proof.
  revert result. induction content as [|entry content IH];
    intros result Hnd; cbn [fold_left length].
  - split; [done | lia].
  - destruct (applyStep_cases mapping result entry) as [-> | (f & v & ->)].
    + destruct (IH result Hnd). split; [done | lia].
    + destruct (IH (PlainObject.assign f v result)) as [H1 H2];
        [by apply assign_keys_NoDup|].
      split; [done|]. pose proof (assign_length f v result). lia.
Qed.

Lemma mergeInto_some previous text texts :
  is_Some (mergeInto previous (text :: texts)).
Proof.
  rewrite mergeInto_cons.
  destruct (mergeInto_one previous text) as (first & -> & _).
  revert first. induction texts as [|next texts IH]; intros first.
  - by eexists.
  - rewrite mergeInto_cons.
    destruct (mergeInto_one (Some first) next) as (second & -> & _).
    apply IH.
Qed.

Lemma filedUnder_elem mapping content f :
  filedUnder mapping content f <> []
  <-> exists label text,
        (label, text) ∈ content
        /\ targetKey mapping label = Some f /\ isBlank text = false.
Proof.
  unfold filedUnder. split.
  - intros Hne.
    destruct (List.filter _ content) as [|[label text] es] eqn:Hfl; [done|].
    assert (Hin : In (label, text) (List.filter
              (fun entry =>
                 bool_decide (targetKey mapping (fst entry) = Some f)
                 && negb (isBlank (snd entry))) content)).
    { rewrite Hfl. by left. }
    apply filter_In in Hin as [Hin [Hk Hb]%andb_true_iff].
    exists label, text. split; [by apply list_elem_of_In|].
    split; [by apply bool_decide_eq_true_1 in Hk | by apply negb_true_iff].
  - intros (label & text & Hin & Hk & Hb) Hnil.
    assert (Hfl : In (label, text) (List.filter
              (fun entry =>
                 bool_decide (targetKey mapping (fst entry) = Some f)
                 && negb (isBlank (snd entry))) content)).
    { apply filter_In. split; [by apply list_elem_of_In|]. cbn [fst snd].
      by rewrite Hb, bool_decide_eq_true_2. }
    destruct (List.filter _ content); [done | discriminate].
Qed.

(** Which keys the result has. *)
Lemma key_iff_filed mapping content f :
  f ∈ keys (applyMapping mapping content)
  <-> f <> proto
      /\ exists label text,
           (label, text) ∈ content
           /\ targetKey mapping label = Some f /\ isBlank text = false.
Proof.
  rewrite <- filedUnder_elem.
  destruct (decide (f = proto)) as [->|Hf].
  { split; [|by intros [? _]]. intros Hk. exfalso.
    revert Hk. apply get_None_keys.
    unfold applyMapping, entries, empty. by apply applyLoop_proto. }
  assert (Hget : get f (applyMapping mapping content)
                 = match filedUnder mapping content f with
                   | [] => None
                   | texts => mergeInto (readText f []) texts
                   end)
    by apply (applyLoop_get mapping content [] f Hf).
  destruct (filedUnder mapping content f) as [|text texts].
  - split; [|by intros [_ ?]]. intros Hk. exfalso.
    revert Hk. by apply get_None_keys.
  - split; [done|]. intros _.
    destruct (decide (f ∈ keys (applyMapping mapping content))) as [|Hn];
      [done|].
    apply get_None_keys in Hn. rewrite Hn in Hget.
    destruct (mergeInto_some (readText f []) text texts) as [merged Hm].
    congruence.
Qed.

Lemma applyMapping_nil_iff mapping content :
  applyMapping mapping content = [] <-> Forall (skipped mapping) content.
Proof.
  split.
  - intros Hempty. apply Forall_forall. intros [label text] Hin.
    apply skipped_passes.
    destruct (passes mapping (label, text)) eqn:Hp; [exfalso | done].
    unfold passes in Hp. cbn [fst snd] in Hp.
    destruct (targetKey mapping label) as [key|] eqn:Hkey; [|done].
    apply andb_true_iff in Hp as [Hproto Hb].
    apply negb_true_iff, bool_decide_eq_false_1 in Hproto.
    apply negb_true_iff in Hb.
    assert (Hk : key ∈ keys (applyMapping mapping content)).
    { apply key_iff_filed. split; [done|]. by exists label, text. }
    rewrite Hempty in Hk. by apply elem_of_nil in Hk.
  - intros Hall.
    destruct (applyMapping mapping content) as [|[f v] rest] eqn:Happly;
      [done|].
    exfalso.
    assert (Hk : f ∈ keys (applyMapping mapping content)).
    { rewrite Happly. left. }
    apply key_iff_filed in Hk as (Hf & label & text & Hin & Hkey & Hb).
    rewrite Forall_forall in Hall.
    destruct (Hall _ Hin) as [Hs | [Hs | Hs]]; cbn [fst snd] in Hs;
      congruence.
Qed.

(** *** With distinct targets nothing is merged *)

Lemma get_app_absent {V : Type} k (o1 o2 : dict V) :
  get k o1 = None -> get k (o1 ++ o2) = get k o2.
Proof.
  induction o1 as [|[k0 v0] o1 IH]; cbn [get app]; [done|].
  case_bool_decide; [done | exact IH].
Qed.

Lemma distinct_targets_inj mapping label1 label2 f :
  NoDup (map snd mapping) ->
  get label1 mapping = Some f -> get label2 mapping = Some f ->
  label1 = label2.
Proof.
  intros Hnd H1%get_Some_elem H2%get_Some_elem.
  apply list_elem_of_lookup in H1 as [i Hi].
  apply list_elem_of_lookup in H2 as [j Hj].
  assert (i = j) as ->.
  { eapply NoDup_lookup; [exact Hnd | |];
      rewrite list_lookup_fmap; [by rewrite Hi | by rewrite Hj]. }
  congruence.
Qed.

Lemma applyLoop_relabel mapping content result :
  NoDup (map snd mapping) ->
  Forall ordinary (map snd mapping) ->
  Forall (fun entry =>
            ordinary (fst entry) \/ is_Some (get (fst entry) mapping))
         content ->
  NoDup (keys content) ->
  (forall entry f, entry ∈ content -> get (fst entry) mapping = Some f ->
                   get f result = None) ->
  fold_left (applyStep mapping) content result
  ≡ₚ result ++ relabel mapping content
  /\ (Forall (fun f => arrayIndex f = None) (map snd mapping) ->
      fold_left (applyStep mapping) content result
      = result ++ relabel mapping content).
Proof.
  intros Hinj Htargets Hlabels. revert result.
  induction Hlabels as [|[label text] content Hlabel _ IH];
    intros result Hnd Hfresh.
  - cbn. by rewrite app_nil_r.
  - unfold keys in Hnd. cbn [map fst] in Hnd.
    apply NoDup_cons in Hnd as [Hl Hnd].
    cbn [fold_left]. unfold relabel. cbn [omap list_omap fst snd].
    fold (relabel mapping content). cbn [fst] in Hlabel.
    assert (Hrest : forall entry f,
              entry ∈ content -> get (fst entry) mapping = Some f ->
              get f result = None).
    { intros e g He. apply Hfresh. by right. }
    destruct (get label mapping) as [f|] eqn:Hg.
    2:{ rewrite applyStep_skip.
        - by apply IH.
        - left. split; [done|]. by destruct Hlabel as [? | [? ?]]. }
    destruct (truthy f && negb (isBlank text)) eqn:Hp.
    2:{ rewrite applyStep_skip; [by apply IH|].
        apply andb_false_iff in Hp as [Hp | Hp].
        - right; left. by destruct f.
        - do 2 right. by apply negb_false_iff. }
    apply andb_true_iff in Hp as [Ht Hb]. apply negb_true_iff in Hb.
    assert (Hord : ordinary f).
    { rewrite Forall_forall in Htargets. apply Htargets.
      apply get_Some_elem in Hg. apply list_elem_of_fmap.
      by exists (label, f). }
    assert (Hproto : f <> proto).
    { intros ->. apply Hord, proto_member. }
    assert (Hnone : get f result = None).
    { apply (Hfresh (label, text)); [left | exact Hg]. }
    assert (Hstep : applyStep mapping result (label, text)
                    = PlainObject.assign f text result).
    { rewrite applyStep_assign, targetKey_cases, Hg, Ht.
      unfold readText. rewrite (read_ordinary f result Hord), Hnone.
      cbn [option_map mergeInto fold_left]. by rewrite Hb. }
    rewrite Hstep.
    destruct (IH (PlainObject.assign f text result) Hnd) as [Hperm Heq].
    { intros [label' text'] g He Hg'. cbn [fst] in Hg'.
      rewrite get_assign by (by left).
      rewrite bool_decide_eq_false_2; [by apply (Hrest (label', text'))|].
      intros ->. apply Hl.
      rewrite (distinct_targets_inj mapping label label' g Hinj Hg Hg').
      apply list_elem_of_fmap. by exists (label', text'). }
    destruct (assign_cases f text result)
      as [[[? Hsome] _] | [(_ & ? & _) | (_ & _ & Hp1 & He1)]];
      [congruence | done |].
    split.
    + rewrite Hperm, Hp1. by rewrite <- app_assoc.
    + intros Hindex. rewrite (Heq Hindex), He1; [by rewrite <- app_assoc|].
      rewrite Forall_forall in Hindex. apply Hindex.
      apply get_Some_elem in Hg. apply list_elem_of_fmap.
      by exists (label, f).
Qed.

Lemma relabel_targets mapping content entry :
  entry ∈ relabel mapping content -> fst entry ∈ map snd mapping.
Proof.
  unfold relabel. intros ([label text] & _ & Hf)%list_elem_of_omap.
  cbn [fst snd] in Hf.
  destruct (get label mapping) as [f|] eqn:Hg; [|done].
  destruct (_ && _); [|done]. injection Hf as <-. cbn [fst].
  apply get_Some_elem in Hg. apply list_elem_of_fmap. by exists (label, f).
Qed.

Lemma validated_applies noteType mapping content :
  validateMapping noteType mapping = true ->
  NoDup (keys content) ->
  Forall (fun entry =>
            ordinary (fst entry) \/ is_Some (get (fst entry) mapping))
         content ->
  Forall ordinary (fields noteType) ->
  applyMapping mapping content ≡ₚ relabel mapping content
  /\ (Forall (fun f => arrayIndex f = None) (fields noteType) ->
      applyMapping mapping content = relabel mapping content).
Proof.
  intros [Hfields Hnd]%validateMapping_true Hkeys Hlabels Hord.
  assert (Hsub : forall P : jsstring -> Prop,
            Forall P (fields noteType) -> Forall P (map snd mapping)).
  { intros P HP. rewrite Forall_forall in HP, Hfields. apply Forall_forall.
    intros f Hf. by apply HP, Hfields. }
  destruct (applyLoop_relabel mapping content [] Hnd (Hsub _ Hord)
              Hlabels Hkeys) as [Hperm Heq]; [done|].
  split; [exact Hperm|]. intros Hindex. by apply Heq, Hsub.
Qed.

End ApplierResult.

(** X5.  [applyMapping] returns the empty object exactly when every
    pair of the content map is passed over: its label has no target key
    (it is not mapped and names no member of [Object.prototype], or it
    is mapped to the empty field name), or the key is [__proto__], or
    its text is blank.  This is the case in which [addSmartCard]
    refuses with "No fields were mapped". *)
Theorem X5_applyMapping_empty (mapping content : dict jsstring) :
  FieldMapper.applyMapping mapping content = []
  <-> Forall (Props.skipped mapping) content.
Proof. apply applyMapping_nil_iff. Qed.

Lemma X5_applyMapping_empty_witness :
  FieldMapper.applyMapping frontTwice
    [ (JsString.js "notes", JsString.js "N");
      (JsString.js "primary", JsString.js "  ") ] = [].
Proof.
  apply X5_applyMapping_empty.
  apply Forall_cons. split; [left; reflexivity|].
  apply Forall_cons. split; [do 2 right; reflexivity|].
  constructor.
Defined.

(** X6.  The result of [applyMapping] is a well-formed object: its keys
    are pairwise distinct; a key other than [__proto__] is a key of the
    result exactly when some pair of the content map has a text that is
    not blank and a label whose target key it is (the field the label
    is mapped to or, for an unmapped label that names a member of
    [Object.prototype], the text of that member); [__proto__] is never
    a key; and the result has at most as many entries as the content
    map. *)
Theorem X6_applyMapping_keys (mapping content : dict jsstring) :
  NoDup (JsObject.keys (FieldMapper.applyMapping mapping content))
  /\ (forall f,
        f ∈ JsObject.keys (FieldMapper.applyMapping mapping content) <->
        f <> PlainObject.proto
        /\ exists label text,
             (label, text) ∈ content
             /\ Props.targetKey mapping label = Some f
             /\ JsString.isBlank text = false)
  /\ length (FieldMapper.applyMapping mapping content) <= length content.
Proof.
  destruct (applyLoop_shape mapping content []) as [Hnd Hlen];
    [constructor|].
  split; [exact Hnd|]. split; [|exact Hlen].
  intros f. apply key_iff_filed.
Qed.

(** X7.  Take a mapping that [validateMapping] accepts on a schema
    whose field names are no names of members of [Object.prototype],
    and a content map whose labels are distinct and are each mapped or
    no such name.  Then [applyMapping] merges nothing: the result holds
    exactly the pairs of the content map with each label replaced by
    its target field, the pairs passed over being dropped.  The pairs
    come in content order when no field name of the schema is an array
    index (the language enumerates array indices first, in ascending
    order).  Every field of the result is a field of the schema. *)
Theorem X7_validated_mapping_applies (noteType : Types.AnkiNoteType)
    (mapping content : dict jsstring) :
  FieldMapper.validateMapping noteType mapping = true ->
  NoDup (JsObject.keys content) ->
  Forall (fun entry =>
            Props.ordinary (fst entry)
            \/ is_Some (JsObject.get (fst entry) mapping))
         content ->
  Forall Props.ordinary (Types.fields noteType) ->
  FieldMapper.applyMapping mapping content ≡ₚ Props.relabel mapping content
  /\ (Forall (fun f => PlainObject.arrayIndex f = None)
             (Types.fields noteType) ->
      FieldMapper.applyMapping mapping content
      = Props.relabel mapping content)
  /\ Forall (fun entry => fst entry ∈ Types.fields noteType)
            (FieldMapper.applyMapping mapping content).
Proof.
  intros Hvalid Hlabels Hknown Hord.
  destruct (validated_applies noteType mapping content Hvalid Hlabels
              Hknown Hord) as [Hperm Heq].
  split; [exact Hperm|]. split; [exact Heq|].
  rewrite Hperm. apply Forall_forall. intros entry Hin%relabel_targets.
  apply validateMapping_true in Hvalid as [Hfields _].
  rewrite Forall_forall in Hfields. by apply Hfields.
Qed.

Lemma X7_validated_mapping_applies_witness :
  FieldMapper.applyMapping
    [ (JsString.js "primary", JsString.js "Front");
      (JsString.js "secondary", JsString.js "Back") ]
    [ (JsString.js "secondary", JsString.js "S");
      (JsString.js "notes", JsString.js "N");
      (JsString.js "primary", JsString.js "P") ]
  = [ (JsString.js "Back", JsString.js "S");
      (JsString.js "Front", JsString.js "P") ].
Proof.
  refine (proj1 (proj2 (X7_validated_mapping_applies
                   {| Types.name := JsString.js "Basic";
                      Types.fields := map JsString.js ["Front"; "Back"] |}
                   _ _ _ _ _ _)) _).
  - vm_compute. reflexivity.
  - apply (bool_decide_unpack _). vm_compute. reflexivity.
  - apply (bool_decide_unpack _). vm_compute. reflexivity.
  - apply (bool_decide_unpack _). vm_compute. reflexivity.
  - apply (bool_decide_unpack _). vm_compute. reflexivity.
Defined.

(** X8.  The verdict of [validateMapping] does not depend on the order
    of the mapping's entries, and it is kept when entries are removed
    from an accepted mapping or fields are added to the schema. *)
Theorem X8_validateMapping_stable (noteType wider : Types.AnkiNoteType)
    (mapping reordered fewer : dict jsstring) :
  (mapping ≡ₚ reordered ->
   FieldMapper.validateMapping noteType reordered
   = FieldMapper.validateMapping noteType mapping)
  /\ (FieldMapper.validateMapping noteType mapping = true ->
      fewer `sublist_of` mapping ->
      (forall f, f ∈ Types.fields noteType -> f ∈ Types.fields wider) ->
      FieldMapper.validateMapping wider fewer = true).
Proof.
  split.
  - intros Hperm. apply eq_true_iff_eq. rewrite !validateMapping_true.
    assert (Hp : map snd mapping ≡ₚ map snd reordered)
      by (by apply fmap_Permutation).
    by rewrite Hp.
  - intros [Hfields Hnd]%validateMapping_true Hsub Hwider.
    apply validateMapping_true.
    assert (Hs : map snd fewer `sublist_of` map snd mapping)
      by (by apply fmap_sublist).
    split.
    + apply Forall_forall. intros f Hf. apply Hwider.
      rewrite Forall_forall in Hfields. apply Hfields.
      by eapply elem_of_sublist.
    + by eapply sublist_NoDup.
Qed.

Lemma X8_validateMapping_stable_witness :
  FieldMapper.validateMapping
    {| Types.name := JsString.js "Basic";
       Types.fields := map JsString.js ["Front"; "Back"; "Extra"] |}
    [ (JsString.js "secondary", JsString.js "Back") ] = true.
Proof.
  refine (proj2 (X8_validateMapping_stable
                   {| Types.name := JsString.js "Basic";
                      Types.fields := map JsString.js ["Front"; "Back"] |}
                   _
                   [ (JsString.js "primary", JsString.js "Front");
                     (JsString.js "secondary", JsString.js "Back") ]
                   [] _) _ _ _).
  - vm_compute. reflexivity.
  - apply sublist_cons. reflexivity.
  - intros f Hf. cbn [Types.fields map] in *.
    apply elem_of_cons in Hf as [-> | Hf]; [left|].
    apply elem_of_cons in Hf as [-> | Hf]; [right; left|].
    by apply elem_of_nil in Hf.
Defined.

(* ------------------------------------------------------------------ *)
(** ** FieldClassifier: labels and the slash test *)
(* ------------------------------------------------------------------ *)

Section ClassifierFacts.
Import JsString JsObject Types DeckAnalyzer Props.
Context `{Host}.

Lemma slashAhead_iff s :
  slashAhead s = true <->
  exists middle rest,
    s = middle ++ slash :: rest
    /\ Forall (fun c => isLineTerminator c = false) middle.
Proof.
  induction s as [|c s IH]; cbn [slashAhead].
  - split; [done|]. intros (middle & rest & Hs & _). by destruct middle.
  - case_bool_decide as Hc.
    + subst c. split; [intros _ | done]. by exists [], s.
    + destruct (isLineTerminator c) eqn:Hlt.
      * split; [done|]. intros ([|d middle] & rest & Hs & Hall).
        -- injection Hs as -> _. done.
        -- injection Hs as -> _. apply Forall_cons in Hall as [Hd _].
           congruence.
      * rewrite IH. split.
        -- intros (middle & rest & -> & Hall). exists (c :: middle), rest.
           split; [done | by constructor].
        -- intros ([|d middle] & rest & Hs & Hall).
           ++ injection Hs as -> _. done.
           ++ injection Hs as -> ->. apply Forall_cons in Hall as [_ Hall].
              by exists middle, rest.
Qed.

End ClassifierFacts.

(** X9.  The test for pronunciation symbols (the regular expression of
    [analyzeFieldContent]) holds exactly when the text contains two
    slashes with no line terminator between them. *)
Theorem X9_slash_delimited (s : jsstring) :
  DeckAnalyzer.slashDelimited s = true <->
  exists before middle rest,
    s = before ++ DeckAnalyzer.slash :: middle ++ DeckAnalyzer.slash :: rest
    /\ Forall (fun c => JsString.isLineTerminator c = false) middle.
Proof.
  induction s as [|c s IH]; cbn [DeckAnalyzer.slashDelimited].
  - split; [done|]. intros (before & middle & rest & Hs & _).
    by destruct before.
  - rewrite orb_true_iff, andb_true_iff, IH, slashAhead_iff. split.
    + intros [[Hc (middle & rest & -> & Hall)]
             | (before & middle & rest & -> & Hall)].
      * apply bool_decide_eq_true_1 in Hc. subst c.
        by exists [], middle, rest.
      * by exists (c :: before), middle, rest.
    + intros ([|d before] & middle & rest & Hs & Hall).
      * injection Hs as -> ->. left.
        split; [by apply bool_decide_eq_true_2 | by exists middle, rest].
      * injection Hs as -> ->. right. by exists before, middle, rest.
Qed.

(** Close a membership between closed strings by evaluation. *)
Ltac listed := apply (bool_decide_unpack _); vm_compute; exact I.

(** X10.  [analyzeFieldContent] always answers with one of its thirteen
    fixed labels; and when the lower-cased field name contains one of
    the words it looks for, the label is decided by the name alone, the
    samples playing no part. *)
Theorem X10_classifier_labels `{Host} (fieldName : jsstring)
    (samples samples' : list jsstring) :
  DeckAnalyzer.analyzeFieldContent fieldName samples ∈ Props.classifierLabels
  /\ (existsb (fun word => JsString.includes (toLowerCase fieldName) word)
              Props.nameKeywords = true ->
      DeckAnalyzer.analyzeFieldContent fieldName samples
      = DeckAnalyzer.analyzeFieldContent fieldName samples').
Proof.
  split.
  - unfold DeckAnalyzer.analyzeFieldContent. cbv zeta.
    generalize (JsString.includes (toLowerCase fieldName)).
    generalize (toLowerCase (JsString.join (JsString.js " ") samples)).
    intros content inc.
    destruct (inc (JsString.js "expression")); [listed|].
    destruct (inc (JsString.js "pronunciation")); [listed|].
    destruct (inc (JsString.js "phonetic")); [listed|].
    destruct (inc (JsString.js "example")); [listed|].
    destruct (inc (JsString.js "sentence")); [listed|].
    destruct (inc (JsString.js "meaning")); [listed|].
    destruct (inc (JsString.js "translation")); [listed|].
    destruct (inc (JsString.js "explanation")); [listed|].
    destruct (inc (JsString.js "description")); [listed|].
    destruct (inc (JsString.js "grammar")); [listed|].
    destruct (inc (JsString.js "synonym")); [listed|].
    destruct (inc (JsString.js "related")); [listed|].
    destruct (inc (JsString.js "collocation")); [listed|].
    cbn [orb].
    destruct (DeckAnalyzer.slashDelimited content); [listed|].
    destruct (JsString.includes content (JsString.js "example:")); [listed|].
    destruct (JsString.includes content (JsString.js "usage:")); [listed|].
    cbn [orb].
    destruct (existsb _ samples); [listed|].
    destruct (existsb _ samples); listed.
  - intros Hname. unfold DeckAnalyzer.analyzeFieldContent. cbv zeta.
    unfold Props.nameKeywords in Hname. cbn [map existsb] in Hname.
    generalize dependent (JsString.includes (toLowerCase fieldName)).
    intros inc Hname.
    destruct (inc (JsString.js "expression")); cbn [orb]; [reflexivity|].
    destruct (inc (JsString.js "pronunciation")); cbn [orb]; [reflexivity|].
    destruct (inc (JsString.js "phonetic")); cbn [orb]; [reflexivity|].
    destruct (inc (JsString.js "example")); cbn [orb]; [reflexivity|].
    destruct (inc (JsString.js "sentence")); cbn [orb]; [reflexivity|].
    destruct (inc (JsString.js "meaning")); cbn [orb]; [reflexivity|].
    destruct (inc (JsString.js "translation")); cbn [orb]; [reflexivity|].
    destruct (inc (JsString.js "explanation")); cbn [orb]; [reflexivity|].
    destruct (inc (JsString.js "description")); cbn [orb]; [reflexivity|].
    destruct (inc (JsString.js "grammar")); cbn [orb]; [reflexivity|].
    destruct (inc (JsString.js "synonym")); cbn [orb]; [reflexivity|].
    destruct (inc (JsString.js "related")); cbn [orb]; [reflexivity|].
    destruct (inc (JsString.js "collocation")); cbn [orb]; [reflexivity|].
    cbn in Hname. discriminate Hname.
Qed.

Lemma X10_classifier_labels_witness :
  DeckAnalyzer.analyzeFieldContent (H := asciiHost)
    (JsString.js "Example Sentence") [ JsString.js "/ipa/" ]
  = DeckAnalyzer.analyzeFieldContent (H := asciiHost)
      (JsString.js "Example Sentence") [].
Proof.
  refine (proj2 (X10_classifier_labels (H := asciiHost) _ _ _) _).
  vm_compute. reflexivity.
Defined.

(* ------------------------------------------------------------------ *)
(** ** DeckSampler: note types, samples and classifications *)
(* ------------------------------------------------------------------ *)

Section SamplerFacts.
Import JsString JsObject PlainObject Types DeckAnalyzer Spec Loops Props.

Lemma elem_get {V : Type} (o : dict V) k v :
  NoDup (keys o) -> (k, v) ∈ o -> get k o = Some v.
Proof.
  unfold keys. induction o as [|[k0 v0] o IH]; intros Hnd Hin.
  - by apply elem_of_nil in Hin.
  - cbn [map fst] in Hnd. apply NoDup_cons in Hnd as [Hk Hnd].
    cbn [get]. apply elem_of_cons in Hin as [Heq | Hin].
    + injection Heq as -> ->. by rewrite bool_decide_eq_true_2.
    + rewrite bool_decide_eq_false_2; [by apply IH|].
      intros ->. apply Hk. apply list_elem_of_fmap. by exists (k, v).
Qed.

(** *** Counting the note types *)

Lemma countStep_get counts card noteType :
  noteType <> proto ->
  get noteType (countStep counts card)
  = countInto noteType (get noteType counts) card.
Proof.
  intros Hproto. unfold countStep, countInto.
  rewrite get_assign_other by done.
  case_bool_decide as Hm; [|done]. subst noteType.
  unfold read. by destruct (get (modelName card) counts).
Qed.

Lemma countLoop_get cards counts noteType :
  noteType <> proto ->
  get noteType (fold_left countStep cards counts)
  = fold_left (countInto noteType) cards (get noteType counts).
Proof.
  intros Hproto. revert counts.
  induction cards as [|card cards IH]; intros counts; [done|].
  cbn [fold_left]. by rewrite IH, countStep_get.
Qed.

Lemma countLoop_proto cards counts :
  get proto counts = None ->
  get proto (fold_left countStep cards counts) = None.
Proof.
  revert counts. induction cards as [|card cards IH]; intros counts Hnone;
    [done|].
  cbn [fold_left]. apply IH. unfold countStep.
  destruct (decide (modelName card = proto)) as [->|Hm].
  - by rewrite assign_proto.
  - rewrite get_assign by (by left). by rewrite bool_decide_eq_false_2.
Qed.

(** An ordinary note type is counted in numbers. *)
Lemma countInto_ordinary noteType cards (n : Z) :
  noteType ∉ memberNames ->
  fold_left (countInto noteType) cards (Some (Number n))
  = Some (Number (n + Z.of_nat (occurrences noteType cards))).
Proof.
  intros Hord. revert n.
  induction cards as [|card cards IH]; intros n.
  - cbn. do 2 f_equal. lia.
  - cbn [fold_left]. unfold occurrences. cbn [List.filter].
    unfold countInto at 2.
    destruct (bool_decide (modelName card = noteType)); cbn [length].
    + assert (increment (Some (Own (Number n))) = Number (n + 1)) as ->.
      { cbn [increment]. destruct (Z.eqb_spec n 0) as [->|]; done. }
      rewrite IH. unfold occurrences. do 2 f_equal. lia.
    + by rewrite IH.
Qed.

Lemma countInto_ordinary_start noteType cards :
  noteType ∉ memberNames ->
  fold_left (countInto noteType) cards None
  = match occurrences noteType cards with
    | 0 => None
    | S n => Some (Number (Z.of_nat (S n)))
    end.
Proof.
  intros Hord. induction cards as [|card cards IH]; [done|].
  cbn [fold_left]. unfold occurrences. cbn [List.filter].
  unfold countInto at 2.
  destruct (bool_decide (modelName card = noteType)); cbn [length].
  - rewrite bool_decide_eq_false_2 by done. cbn [increment].
    rewrite countInto_ordinary by done. unfold occurrences.
    do 2 f_equal. lia.
  - exact IH.
Qed.

(** A note type named like a member of [Object.prototype] is never
    counted in numbers. *)
Lemma countInto_member noteType cards (current : option Count) :
  noteType ∈ memberNames ->
  (forall count, current = Some count ->
                 exists s, count = Text s /\ truthy s = true) ->
  forall n, fold_left (countInto noteType) cards current <> Some (Number n).
Proof.
  intros Hmember. revert current.
  induction cards as [|card cards IH]; intros current Hcur.
  { intros n Heq. by destruct (Hcur _ Heq) as (s & ? & _). }
  cbn [fold_left]. apply IH. unfold countInto.
  destruct (bool_decide (modelName card = noteType)); [|done].
  rewrite bool_decide_eq_true_2 by done.
  intros count [= <-].
  destruct current as [count|]; cbn [increment].
  - destruct (Hcur count eq_refl) as (s & -> & Hs). rewrite Hs.
    eexists. split; [reflexivity|]. by destruct s.
  - eexists. split; [reflexivity|].
    assert (Ht := memberText_truthy noteType).
    by destruct (memberText noteType).
Qed.

Lemma countLoop_keys cards counts :
  NoDup (keys counts) -> NoDup (keys (fold_left countStep cards counts)).
Proof.
  revert counts. induction cards as [|card cards IH]; intros counts Hnd;
    [done|].
  cbn [fold_left]. apply IH. unfold countStep. by apply assign_keys_NoDup.
Qed.

(** *** Picking the greatest count *)

Lemma maxLoop_spec (entries : dict Count) (acc : jsstring * Z) :
  let r := fold_left maxStep entries acc in
  (r = acc \/ (fst r, Number (snd r)) ∈ entries)
  /\ (snd acc <= snd r)%Z
  /\ Forall (fun entry =>
               forall n, snd entry = Number n -> (n <= snd r)%Z)
            entries.
Proof.
  revert acc. induction entries as [|[noteType count] entries IH];
    intros acc; cbn [fold_left].
  - split; [by left|]. split; [lia | constructor].
  - destruct (IH (maxStep acc (noteType, count))) as (Hr & Hle & Hall).
    unfold maxStep in *. cbn zeta in *. destruct count as [n|s].
    + destruct (Z.ltb_spec (snd acc) n); cbn [snd] in *.
      * split; [|split; [lia|]].
        -- right. destruct Hr as [-> | Hr]; [left | by right].
        -- constructor; [|done]. cbn. intros m [= <-]. lia.
      * split; [|split; [lia|]].
        -- destruct Hr as [-> | Hr]; [by left | right; by right].
        -- constructor; [|done]. cbn. intros m [= <-]. lia.
    + split; [|split; [lia|]].
      * destruct Hr as [-> | Hr]; [by left | right; by right].
      * constructor; [|done]. cbn. intros m [=].
Qed.

(** The counts after the loop over the cards. *)
Lemma counts_spec cards :
  let counts := fold_left countStep cards empty in
  NoDup (keys counts)
  /\ (forall noteType,
        noteType ∉ memberNames ->
        get noteType counts
        = match occurrences noteType cards with
          | 0 => None
          | S n => Some (Number (Z.of_nat (S n)))
          end)
  /\ (forall noteType n,
        noteType ∈ memberNames -> get noteType counts <> Some (Number n)).
Proof.
  cbv zeta. split; [|split].
  - apply countLoop_keys. constructor.
  - intros noteType Hord.
    rewrite countLoop_get by (intros ->; apply Hord, proto_member).
    by apply countInto_ordinary_start.
  - intros noteType n Hmember.
    destruct (decide (noteType = proto)) as [->|Hproto].
    + by rewrite countLoop_proto.
    + rewrite countLoop_get by done. by apply countInto_member.
Qed.

Lemma occurrences_pos noteType cards :
  0 < occurrences noteType cards <-> noteType ∈ map modelName cards.
Proof.
  unfold occurrences. induction cards as [|card cards IH];
    cbn [List.filter map length].
  - split; [lia | by intros ?%elem_of_nil].
  - rewrite elem_of_cons. case_bool_decide as Hm; cbn [length].
    + split; [by left | lia].
    + rewrite IH. split; [by right | by intros [? | ?]].
Qed.

Lemma getPrimaryNoteType_max cards :
  Exists (fun card => modelName card ∉ memberNames) cards ->
  getPrimaryNoteType cards ∈ map modelName cards
  /\ (getPrimaryNoteType cards ∉ memberNames)
  /\ forall noteType,
       noteType ∉ memberNames ->
       occurrences noteType cards
       <= occurrences (getPrimaryNoteType cards) cards.
Proof.
  intros Hsome. unfold getPrimaryNoteType. cbv zeta. unfold entries.
  destruct (counts_spec cards) as (Hnd & Hord & Hmember). cbv zeta in *.
  revert Hnd Hord Hmember. generalize (fold_left countStep cards empty).
  intros counts Hnd Hord Hmember.
  destruct (maxLoop_spec counts ([], 0%Z)) as (Hr & Hpos & Hall).
  cbv zeta in *. revert Hr Hpos Hall.
  generalize (fold_left maxStep counts ([], 0%Z)).
  intros [best top] Hr Hpos Hall. cbn [fst snd] in *.
  assert (Hbound : forall noteType,
             noteType ∉ memberNames ->
             (Z.of_nat (occurrences noteType cards) <= top)%Z).
  { intros noteType Hnt. specialize (Hord noteType Hnt).
    destruct (occurrences noteType cards) as [|n] eqn:Hocc; [lia|].
    apply get_Some_elem in Hord. rewrite Forall_forall in Hall.
    by apply (Hall _ Hord). }
  assert (Hin : (best, Number top) ∈ counts).
  { destruct Hr as [Heq | Hr]; [|done]. exfalso.
    injection Heq as -> ->.
    apply Exists_exists in Hsome as (card & Hcard & Hnt).
    specialize (Hbound _ Hnt).
    assert (0 < occurrences (modelName card) cards); [|lia].
    apply occurrences_pos, list_elem_of_fmap. by exists card. }
  apply (elem_get counts best (Number top) Hnd) in Hin.
  assert (Hbest : best ∉ memberNames).
  { intros Hm. by apply (Hmember best top Hm). }
  rewrite (Hord best Hbest) in Hin.
  destruct (occurrences best cards) as [|n] eqn:Hocc; [done|].
  injection Hin as Htop. split; [|split; [done|]].
  - apply occurrences_pos. lia.
  - intros noteType Hnt. specialize (Hbound noteType Hnt). lia.
Qed.

Lemma getPrimaryNoteType_none cards :
  Forall (fun card => modelName card ∈ memberNames) cards ->
  getPrimaryNoteType cards = [].
Proof.
  intros Hall. unfold getPrimaryNoteType. cbv zeta. unfold entries.
  destruct (counts_spec cards) as (Hnd & Hord & Hmember). cbv zeta in *.
  revert Hnd Hord Hmember. generalize (fold_left countStep cards empty).
  intros counts Hnd Hord Hmember.
  destruct (maxLoop_spec counts ([], 0%Z)) as (Hr & _ & _).
  cbv zeta in *. destruct Hr as [-> | Hr]; [done|]. exfalso.
  revert Hr. generalize (fold_left maxStep counts ([], 0%Z)).
  intros [best top] Hin. cbn [fst snd] in Hin.
  apply (elem_get counts best (Number top) Hnd) in Hin.
  destruct (decide (best ∈ memberNames)) as [Hm|Hm].
  - by apply (Hmember best top Hm).
  - rewrite (Hord best Hm) in Hin.
    destruct (occurrences best cards) as [|n] eqn:Hocc; [done|].
    assert (Hpos : 0 < occurrences best cards) by lia.
    apply occurrences_pos, list_elem_of_fmap in Hpos as (card & -> & Hcard).
    rewrite Forall_forall in Hall. by apply Hm, Hall.
Qed.

(** *** The sample set *)

Lemma sampleStep_keys fieldSamples entry fieldSamples' :
  sampleStep fieldSamples entry = inr fieldSamples' ->
  NoDup (keys fieldSamples) -> NoDup (keys fieldSamples').
Proof.
  destruct entry as [fieldName fieldData]. unfold sampleStep. cbv zeta.
  intros Hstep Hnd.
  assert (Hnd1 : NoDup (keys match read fieldName fieldSamples with
                             | Some _ => fieldSamples
                             | None =>
                               PlainObject.assign fieldName [] fieldSamples
                             end)).
  { destruct (read fieldName fieldSamples); [done|].
    by apply assign_keys_NoDup. }
  revert Hstep Hnd1.
  generalize (match read fieldName fieldSamples with
              | Some _ => fieldSamples
              | None => PlainObject.assign fieldName [] fieldSamples
              end).
  intros fs1 Hstep Hnd1.
  destruct (_ && _).
  - destruct (read fieldName fs1) as [[samples|name]|]; [|done..].
    injection Hstep as <-. by apply set_keys_NoDup.
  - by injection Hstep as <-.
Qed.

Lemma forEach_preserves {A S : Type} (body : S -> A -> JsError + S)
    (P : S -> Prop) (items : list A) (start final : S) :
  (forall st item st', body st item = inr st' -> P st -> P st') ->
  forEach body items start = inr final -> P start -> P final.
Proof.
  intros Hbody. revert start.
  induction items as [|item items IH]; intros start.
  - unfold forEach. cbn [fold_left]. by intros [= <-].
  - rewrite forEach_cons.
    destruct (body start item) as [thrown|st] eqn:Hstep; [done|].
    intros Hrest Hstart. apply (IH st Hrest). by eapply Hbody.
Qed.

Lemma getFieldSamples_keys cards fieldSamples :
  getFieldSamples cards = inr fieldSamples -> NoDup (keys fieldSamples).
Proof.
  unfold getFieldSamples. intros Hrun.
  apply (forEach_preserves cardStep (fun fs => NoDup (keys fs))
           cards empty fieldSamples); [|done|constructor].
  intros fs card fs'. unfold cardStep, entries.
  apply (forEach_preserves sampleStep (fun fs => NoDup (keys fs))).
  intros ? ? ?. apply sampleStep_keys.
Qed.

Lemma declares_iff fieldName card :
  declares fieldName card = true <-> fieldName ∈ keys (cardFields card).
Proof.
  unfold declares, keys. rewrite existsb_exists. split.
  - intros (e & He & Heq). apply bool_decide_eq_true_1 in Heq. subst.
    apply list_elem_of_fmap. exists e. split; [done | by apply list_elem_of_In].
  - intros (e & -> & He)%list_elem_of_fmap. exists e.
    split; [by apply list_elem_of_In | by apply bool_decide_eq_true_2].
Qed.

Lemma first50_bounds v :
  isBlank v = false -> 1 <= length (first50 v) <= 50.
Proof.
  intros Hb. unfold first50.
  destruct (Nat.ltb_spec 50 (length v)).
  - rewrite length_take. lia.
  - destruct v; [done|]. cbn [length] in *. lia.
Qed.

Lemma nonBlankValues_nonblank fieldName card v :
  v ∈ nonBlankValues fieldName card -> isBlank v = false.
Proof.
  unfold nonBlankValues. intros (e & -> & He)%list_elem_of_fmap.
  apply list_elem_of_In, filter_In in He as [_ Hc].
  apply andb_true_iff in Hc as [_ Hb]. by apply negb_true_iff.
Qed.

(** What [getFieldSamples] does, case by case. *)
Lemma getFieldSamples_shape cards :
  (existsb breaksCard cards = true ->
   getFieldSamples cards = inl pushIsNotAFunction)
  /\ (existsb breaksCard cards = false ->
      exists fieldSamples,
        getFieldSamples cards = inr fieldSamples
        /\ NoDup (keys fieldSamples)
        /\ (forall fieldName,
              fieldName ∈ keys fieldSamples <->
              ordinary fieldName
              /\ exists card,
                   card ∈ cards /\ fieldName ∈ keys (cardFields card))
        /\ (forall fieldName samples,
              (fieldName, samples) ∈ fieldSamples ->
              samples = samplesOf fieldName cards
              /\ Forall (fun sample => 1 <= length sample <= 50) samples)).
Proof.
  pose proof (getFieldSamples_spec cards) as Hspec.
  pose proof (getFieldSamples_keys cards) as Hkeys.
  destruct (getFieldSamples cards) as [thrown|fs].
  { destruct Hspec as [-> Hbreaks]. split; [done | congruence]. }
  destruct Hspec as [Hnone Hget]. split; [congruence|]. intros _.
  specialize (Hkeys fs eq_refl).
  exists fs. split; [done|]. split; [done|].
  assert (Hdecl : forall fieldName,
             existsb (declares fieldName) cards = true <->
             exists card, card ∈ cards
                          /\ fieldName ∈ keys (cardFields card)).
  { intros fieldName. rewrite existsb_exists. split.
    - intros (card & Hc & Hd). exists card.
      split; [by apply list_elem_of_In | by apply declares_iff].
    - intros (card & Hc & Hd). exists card.
      split; [by apply list_elem_of_In | by apply declares_iff]. }
  split.
  - intros fieldName. rewrite <- Hdecl. specialize (Hget fieldName).
    unfold ordinary.
    destruct (existsb (declares fieldName) cards);
      [destruct (decide (fieldName ∈ memberNames)) as [Hm|Hm]|].
    + rewrite bool_decide_eq_true_2 in Hget by done. cbn in Hget.
      apply get_None_keys in Hget. split; [done | by intros [? _]].
    + rewrite bool_decide_eq_false_2 in Hget by done. cbn in Hget.
      split; [done | intros _].
      destruct (decide (fieldName ∈ keys fs)) as [|Hn]; [done|].
      apply get_None_keys in Hn. congruence.
    + cbn in Hget. apply get_None_keys in Hget.
      split; [done | by intros [_ ?]].
  - intros fieldName samples Hin.
    apply (elem_get fs fieldName samples Hkeys) in Hin.
    rewrite Hget in Hin.
    destruct (_ && _); [|done].
    injection Hin as <-. split; [done|]. unfold samplesOf.
    apply Forall_forall. intros sample (v & -> & Hv)%list_elem_of_fmap.
    apply first50_bounds.
    apply list_elem_of_In, in_flat_map in Hv as (card & _ & Hv).
    apply list_elem_of_In in Hv. by eapply nonBlankValues_nonblank.
Qed.

(** *** Classifying the sample set *)

Lemma analyzeLoop_spec `{Host} (fieldSamples : dict (list jsstring))
    (analysis : dict jsstring) :
  NoDup (keys analysis ++ keys fieldSamples) ->
  fold_left
    (fun analysis '(fieldName, samples) =>
       set fieldName (analyzeFieldContent fieldName samples) analysis)
    fieldSamples analysis
  = analysis ++ classifyEach fieldSamples.
Proof.
  revert analysis.
  induction fieldSamples as [|[fieldName samples] fs IH]; intros analysis Hnd.
  - cbn. by rewrite app_nil_r.
  - cbn [fold_left]. unfold keys in Hnd. cbn [map fst] in Hnd.
    assert (Hfresh : get fieldName analysis = None).
    { apply get_None_keys. unfold keys. intros Hin.
      apply NoDup_app in Hnd as (_ & Hdis & _).
      apply (Hdis fieldName Hin). left. }
    rewrite (set_absent _ _ _ Hfresh), IH.
    + unfold classifyEach. cbn [map fst snd]. by rewrite <- app_assoc.
    + unfold keys. rewrite map_app. cbn [map fst].
      by rewrite <- app_assoc.
Qed.

End SamplerFacts.

(** X11.  [getPrimaryNoteType] counts in numbers only the note types
    whose name is not the name of a member of [Object.prototype].  When
    some card of the sample has such a note type, it returns the note
    type of one of the cards, of that kind, and no note type of that
    kind occurs in the sample more often than it does.  When no card
    has (in particular for the empty sample), it returns the empty
    string. *)
Theorem X11_getPrimaryNoteType_most_frequent (cards : list Types.AnkiCard) :
  (Exists (fun card => Props.ordinary (Types.modelName card)) cards ->
   DeckAnalyzer.getPrimaryNoteType cards ∈ map Types.modelName cards
   /\ Props.ordinary (DeckAnalyzer.getPrimaryNoteType cards)
   /\ forall noteType,
        Props.ordinary noteType ->
        Props.occurrences noteType cards
        <= Props.occurrences (DeckAnalyzer.getPrimaryNoteType cards) cards)
  /\ (Forall (fun card => Types.modelName card ∈ PlainObject.memberNames)
             cards ->
      DeckAnalyzer.getPrimaryNoteType cards = []).
Proof.
  split; [apply getPrimaryNoteType_max | apply getPrimaryNoteType_none].
Qed.

Lemma X11_getPrimaryNoteType_most_frequent_witness :
  DeckAnalyzer.getPrimaryNoteType cardsWithBlankBack
  ∈ map Types.modelName cardsWithBlankBack.
Proof.
  refine (proj1 (proj1 (X11_getPrimaryNoteType_most_frequent
                          cardsWithBlankBack) _)).
  apply Exists_cons_hd. apply (bool_decide_unpack _). vm_compute. exact I.
Defined.

(** X12.  [getFieldSamples] throws the [TypeError] of calling [push] on
    a built-in function exactly when some card has a field that is
    named like a member of [Object.prototype] and whose value is not
    blank.  Otherwise it returns a well-formed object: its keys are
    pairwise distinct; a field name is a key exactly when some card
    declares it and it is no such name; and the list under a key is the
    values of that field that are not blank, cut to 50 characters, card
    by card, so every sample has between 1 and 50 characters. *)
Theorem X12_getFieldSamples_shape (cards : list Types.AnkiCard) :
  (existsb Props.breaksCard cards = true ->
   DeckAnalyzer.getFieldSamples cards
   = inl DeckAnalyzer.pushIsNotAFunction)
  /\ (existsb Props.breaksCard cards = false ->
      exists fieldSamples,
        DeckAnalyzer.getFieldSamples cards = inr fieldSamples
        /\ NoDup (JsObject.keys fieldSamples)
        /\ (forall fieldName,
              fieldName ∈ JsObject.keys fieldSamples <->
              Props.ordinary fieldName
              /\ exists card,
                   card ∈ cards
                   /\ fieldName ∈ JsObject.keys (Types.cardFields card))
        /\ (forall fieldName samples,
              (fieldName, samples) ∈ fieldSamples ->
              samples = Spec.samplesOf fieldName cards
              /\ Forall (fun sample => 1 <= length sample <= 50) samples)).
Proof. apply getFieldSamples_shape. Qed.

Lemma X12_getFieldSamples_shape_witness :
  exists fieldSamples,
    DeckAnalyzer.getFieldSamples cardsWithConstructor = inr fieldSamples
    /\ NoDup (JsObject.keys fieldSamples).
Proof.
  destruct (proj2 (X12_getFieldSamples_shape cardsWithConstructor))
    as (fieldSamples & Hrun & Hnd & _).
  - vm_compute. reflexivity.
  - exists fieldSamples. split; [exact Hrun | exact Hnd].
Defined.


(* ------------------------------------------------------------------ *)
(** ** DeckSampler: the requests and the result of [analyzeDeck] *)
(* ------------------------------------------------------------------ *)

Section AnalyzerFacts.
Import JsString JsObject Types DeckAnalyzer Props.

Lemma slice0_head {A : Type} (ids : list A) (n : Z) :
  (0 <= n)%Z ->
  slice0 ids (Z.min n (Z.of_nat (length ids))) = take (Z.to_nat n) ids.
Proof.
  intros Hn. unfold slice0. cbv zeta.
  destruct (Z.ltb_spec (Z.min n (Z.of_nat (length ids))) 0); [lia|].
  rewrite Z.min_l by lia.
  destruct (Z.le_ge_cases n (Z.of_nat (length ids))).
  - by rewrite Z.min_l by lia.
  - rewrite Z.min_r by lia. rewrite Nat2Z.id.
    rewrite !take_ge; [done | lia | done].
Qed.

Lemma slice0_negative {A : Type} (ids : list A) (n : Z) :
  (n < 0)%Z ->
  Z.min n (Z.of_nat (length ids)) = n
  /\ slice0 ids n = take (length ids - Z.to_nat (- n)) ids.
Proof.
  intros Hn. split; [lia|]. unfold slice0. cbv zeta.
  destruct (Z.ltb_spec n 0); [|lia]. f_equal. lia.
Qed.

Lemma slice0_prefix {A : Type} (ids : list A) (n : Z) :
  exists rest, ids = slice0 ids n ++ rest.
Proof.
  unfold slice0. cbv zeta. eexists. symmetry. apply take_drop.
Qed.

(** What a run of [analyzeDeck] does, case by case. *)
Lemma analyzeDeck_run `{Host} (fieldMapper : FieldMapperPort)
    (client : AnkiConnectClient) (deckName : jsstring)
    (sampleSize : option Z) :
  let n := Z.min (default 5%Z sampleSize) in
  run client (analyzeDeck fieldMapper deckName sampleSize) []
  = match findCards client (deckQuery deckName) with
    | inl e => ([CalledFindCards (deckQuery deckName)], inl e)
    | inr [] =>
      ([CalledFindCards (deckQuery deckName)], inl (CollectionEmpty deckName))
    | inr ids =>
      let sample := slice0 ids (n (Z.of_nat (length ids))) in
      ([CalledFindCards (deckQuery deckName); CalledGetCardsInfo sample],
       match getCardsInfo client sample with
       | inl e => inl e
       | inr cardsInfo =>
         match getFieldSamples cardsInfo with
         | inl thrown => inl thrown
         | inr fieldSamples =>
           inr {| Types.deckName := deckName;
                  Types.sampleSize := n (Z.of_nat (length ids));
                  Types.primaryNoteType := getPrimaryNoteType cardsInfo;
                  Types.fieldAnalysis := analyzeFields fieldSamples;
                  Types.suggestedMappings :=
                    suggestMappings fieldMapper
                      {| name := getPrimaryNoteType cardsInfo;
                         fields := keys fieldSamples |} |}
         end
       end)
    end.
Proof.
  cbv zeta. unfold analyzeDeck. cbn [run].
  destruct (findCards client (deckQuery deckName)) as [e|ids]; [done|].
  destruct ids as [|id ids]; [done|].
  cbn [length Nat.eqb run]. cbv zeta.
  generalize (slice0 (id :: ids)
                (Z.min (default 5%Z sampleSize)
                   (Z.of_nat (S (length ids))))).
  intros sample. cbn [app].
  destruct (getCardsInfo client sample) as [e|cardsInfo]; [done|].
  destruct (getFieldSamples cardsInfo); reflexivity.
Qed.

(** What the analysis of the fetched records does to a run. *)
Lemma getFieldSamples_cases (cardsInfo : list AnkiCard) :
  (existsb breaksCard cardsInfo = true
   /\ getFieldSamples cardsInfo = inl pushIsNotAFunction)
  \/ (existsb breaksCard cardsInfo = false
      /\ exists fieldSamples,
           getFieldSamples cardsInfo = inr fieldSamples
           /\ NoDup (keys fieldSamples)).
Proof.
  destruct (getFieldSamples_shape cardsInfo) as [Hthrows Hreturns].
  destruct (existsb breaksCard cardsInfo).
  - left. by split; [|apply Hthrows].
  - right. split; [done|].
    destruct (Hreturns eq_refl) as (fieldSamples & Hrun & Hnd & _).
    by exists fieldSamples.
Qed.

Lemma analyzeFields_classifyEach `{Host}
    (fieldSamples : dict (list jsstring)) :
  NoDup (keys fieldSamples) ->
  analyzeFields fieldSamples = classifyEach fieldSamples.
Proof.
  intros Hnd. unfold analyzeFields, entries, empty.
  by rewrite analyzeLoop_spec.
Qed.

Lemma classifyEach_keys `{Host} (fieldSamples : dict (list jsstring)) :
  keys (classifyEach fieldSamples) = keys fieldSamples.
Proof. unfold classifyEach, keys. by rewrite map_map. Qed.

End AnalyzerFacts.

(** X13.  On a sample set with distinct keys (as [getFieldSamples]
    builds it), [analyzeFields] classifies every field exactly once and
    keeps the order of the fields: the result is the sample set with
    each list of samples replaced by its label. *)
Theorem X13_analyzeFields_each `{Host}
    (fieldSamples : dict (list jsstring)) :
  NoDup (JsObject.keys fieldSamples) ->
  DeckAnalyzer.analyzeFields fieldSamples = Props.classifyEach fieldSamples
  /\ JsObject.keys (DeckAnalyzer.analyzeFields fieldSamples)
     = JsObject.keys fieldSamples.
Proof.
  intros Hnd. rewrite (analyzeFields_classifyEach fieldSamples Hnd).
  split; [done | apply classifyEach_keys].
Qed.

Lemma X13_analyzeFields_each_witness :
  let fieldSamples :=
    [ (JsString.js "Word", [JsString.js "apple"]);
      (JsString.js "Grammar", []) ] in
  JsObject.keys (DeckAnalyzer.analyzeFields (H := asciiHost) fieldSamples)
  = JsObject.keys fieldSamples.
Proof.
  cbv zeta. refine (proj2 (X13_analyzeFields_each (H := asciiHost) _ _)).
  apply (bool_decide_unpack _). vm_compute. exact I.
Defined.

(** X14.  With a sample size that is not negative (5 when none is
    given), a deck that has cards and a card store that answers:
    [analyzeDeck] sends exactly two requests, the lookup and one fetch
    of the first [sampleSize] ids in their order (all of them when the
    deck has fewer).  When a fetched record has a field that is named
    like a member of [Object.prototype] and is not blank, the run ends
    in the [TypeError] of [getFieldSamples]; otherwise it succeeds, and
    the [sampleSize] it reports is the number of ids it asked for,
    whatever number of records came back. *)
Theorem X14_analyzeDeck_sample `{Host}
    (fieldMapper : DeckAnalyzer.FieldMapperPort)
    (client : DeckAnalyzer.AnkiConnectClient)
    (deckName : jsstring) (sampleSize : option Z)
    (ids : list Z) (cardsInfo : list Types.AnkiCard) :
  let sample := take (Z.to_nat (default 5%Z sampleSize)) ids in
  let outcome :=
    DeckAnalyzer.run client
      (DeckAnalyzer.analyzeDeck fieldMapper deckName sampleSize) [] in
  (0 <= default 5%Z sampleSize)%Z ->
  ids <> [] ->
  DeckAnalyzer.findCards client (DeckAnalyzer.deckQuery deckName) = inr ids ->
  DeckAnalyzer.getCardsInfo client sample = inr cardsInfo ->
  fst outcome
  = [DeckAnalyzer.CalledFindCards (DeckAnalyzer.deckQuery deckName);
     DeckAnalyzer.CalledGetCardsInfo sample]
  /\ (existsb Props.breaksCard cardsInfo = true ->
      snd outcome = inl DeckAnalyzer.pushIsNotAFunction)
  /\ (existsb Props.breaksCard cardsInfo = false ->
      exists result,
        snd outcome = inr result
        /\ Types.sampleSize result = Z.of_nat (length sample)
        /\ Types.sampleSize result
           = Z.min (default 5%Z sampleSize) (Z.of_nat (length ids))
        /\ Types.deckName result = deckName
        /\ Types.primaryNoteType result
           = DeckAnalyzer.getPrimaryNoteType cardsInfo).
Proof.
  cbv zeta. intros Hn Hne Hfind Hinfo.
  rewrite analyzeDeck_run, Hfind. cbv zeta.
  destruct ids as [|id ids]; [done|].
  rewrite (slice0_head (id :: ids) _ Hn), Hinfo. cbn [fst snd].
  split; [done|].
  destruct (getFieldSamples_cases cardsInfo)
    as [[-> ->] | [-> (fieldSamples & -> & _)]].
  - split; [done | discriminate].
  - split; [discriminate | intros _].
    eexists. split; [reflexivity|].
    cbn [Types.sampleSize Types.deckName Types.primaryNoteType].
    split; [|done]. rewrite length_take. lia.
Qed.

Lemma X14_analyzeDeck_sample_witness :
  exists result,
    snd (DeckAnalyzer.run threeCardClient
           (DeckAnalyzer.analyzeDeck (H := asciiHost)
              (DeckAnalyzer.fieldMapperOf (H := asciiHost))
              (JsString.js "Japanese") (Some 2%Z)) [])
    = inr result
    /\ Types.sampleSize result = 2%Z.
Proof.
  destruct (X14_analyzeDeck_sample (H := asciiHost)
              (DeckAnalyzer.fieldMapperOf (H := asciiHost))
              threeCardClient (JsString.js "Japanese") (Some 2%Z)
              [11; 12; 13]%Z (map basicCard [11; 12]%Z))
    as (_ & _ & Hreturns).
  - cbn. lia.
  - discriminate.
  - reflexivity.
  - reflexivity.
  - destruct Hreturns as (result & Hrun & Hsize & _).
    + vm_compute. reflexivity.
    + exists result. split; [exact Hrun | exact Hsize].
Defined.

(** X15.  With a negative sample size [analyzeDeck] still goes on with
    a deck that has cards: [slice] counts a negative end from the back,
    so the fetch asks for all ids but the last [-sampleSize] ones; and,
    unless a fetched record makes [getFieldSamples] throw, the run
    succeeds and the [sampleSize] of the result is the negative number
    itself. *)
Theorem X15_analyzeDeck_negative_size `{Host}
    (fieldMapper : DeckAnalyzer.FieldMapperPort)
    (client : DeckAnalyzer.AnkiConnectClient)
    (deckName : jsstring) (sampleSize : Z)
    (ids : list Z) (cardsInfo : list Types.AnkiCard) :
  let sample := take (length ids - Z.to_nat (- sampleSize)) ids in
  let outcome :=
    DeckAnalyzer.run client
      (DeckAnalyzer.analyzeDeck fieldMapper deckName (Some sampleSize)) [] in
  (sampleSize < 0)%Z ->
  ids <> [] ->
  DeckAnalyzer.findCards client (DeckAnalyzer.deckQuery deckName) = inr ids ->
  DeckAnalyzer.getCardsInfo client sample = inr cardsInfo ->
  fst outcome
  = [DeckAnalyzer.CalledFindCards (DeckAnalyzer.deckQuery deckName);
     DeckAnalyzer.CalledGetCardsInfo sample]
  /\ (existsb Props.breaksCard cardsInfo = true ->
      snd outcome = inl DeckAnalyzer.pushIsNotAFunction)
  /\ (existsb Props.breaksCard cardsInfo = false ->
      exists result,
        snd outcome = inr result
        /\ Types.sampleSize result = sampleSize).
Proof.
  cbv zeta. intros Hn Hne Hfind Hinfo.
  rewrite analyzeDeck_run, Hfind. cbv zeta.
  change (default 5%Z (Some sampleSize)) with sampleSize.
  destruct ids as [|id ids]; [done|].
  destruct (slice0_negative (id :: ids) sampleSize Hn) as [-> ->].
  rewrite Hinfo. cbn [fst snd]. split; [done|].
  destruct (getFieldSamples_cases cardsInfo)
    as [[-> ->] | [-> (fieldSamples & -> & _)]].
  - split; [done | discriminate].
  - split; [discriminate | intros _].
    eexists. split; reflexivity.
Qed.

Lemma X15_analyzeDeck_negative_size_witness :
  exists result,
    snd (DeckAnalyzer.run threeCardClient
           (DeckAnalyzer.analyzeDeck (H := asciiHost)
              (DeckAnalyzer.fieldMapperOf (H := asciiHost))
              (JsString.js "Japanese") (Some (-1)%Z)) [])
    = inr result
    /\ Types.sampleSize result = (-1)%Z.
Proof.
  refine (proj2 (proj2 (X15_analyzeDeck_negative_size (H := asciiHost)
           (DeckAnalyzer.fieldMapperOf (H := asciiHost))
           threeCardClient (JsString.js "Japanese") (-1)%Z
           [11; 12; 13]%Z (map basicCard [11; 12]%Z) _ _ _ _)) _).
  - lia.
  - discriminate.
  - reflexivity.
  - reflexivity.
  - vm_compute. reflexivity.
Defined.

(** X16.  Whatever the card store answers, [analyzeDeck] sends the
    lookup first and at most one fetch after it, and the fetch asks
    only for ids the lookup returned: a prefix of them, and only when
    there is at least one. *)
Theorem X16_analyzeDeck_requests `{Host}
    (fieldMapper : DeckAnalyzer.FieldMapperPort)
    (client : DeckAnalyzer.AnkiConnectClient)
    (deckName : jsstring) (sampleSize : option Z) :
  let log :=
    fst (DeckAnalyzer.run client
           (DeckAnalyzer.analyzeDeck fieldMapper deckName sampleSize) []) in
  log = [DeckAnalyzer.CalledFindCards (DeckAnalyzer.deckQuery deckName)]
  \/ exists ids sample rest,
       DeckAnalyzer.findCards client (DeckAnalyzer.deckQuery deckName)
       = inr ids
       /\ ids <> [] /\ ids = sample ++ rest
       /\ log = [DeckAnalyzer.CalledFindCards
                   (DeckAnalyzer.deckQuery deckName);
                 DeckAnalyzer.CalledGetCardsInfo sample].
Proof.
  cbv zeta. rewrite analyzeDeck_run. cbv zeta.
  destruct (DeckAnalyzer.findCards client (DeckAnalyzer.deckQuery deckName))
    as [e|ids] eqn:Hfind; [by left|].
  destruct ids as [|id ids]; [by left|]. right.
  destruct (slice0_prefix (id :: ids)
              (Z.min (default 5%Z sampleSize)
                 (Z.of_nat (length (id :: ids))))) as [rest Hrest].
  exists (id :: ids), (DeckAnalyzer.slice0 (id :: ids)
              (Z.min (default 5%Z sampleSize)
                 (Z.of_nat (length (id :: ids))))), rest.
  split; [done|]. split; [done|]. split; [exact Hrest | done].
Qed.

(** X17.  [analyzeDeck] fails in four ways only: the lookup fails, the
    lookup returns no id, the fetch fails, or a fetched record has a
    field that is named like a member of [Object.prototype] and is not
    blank, on which [getFieldSamples] throws a [TypeError].  An error
    of the card store is passed on as it is, and the mapper cannot make
    the run fail. *)
Theorem X17_analyzeDeck_failures `{Host}
    (fieldMapper : DeckAnalyzer.FieldMapperPort)
    (client : DeckAnalyzer.AnkiConnectClient)
    (deckName : jsstring) (sampleSize : option Z)
    (error : DeckAnalyzer.JsError) :
  snd (DeckAnalyzer.run client
         (DeckAnalyzer.analyzeDeck fieldMapper deckName sampleSize) [])
  = inl error
  <-> DeckAnalyzer.findCards client (DeckAnalyzer.deckQuery deckName)
      = inl error
      \/ (DeckAnalyzer.findCards client (DeckAnalyzer.deckQuery deckName)
          = inr []
          /\ error = DeckAnalyzer.CollectionEmpty deckName)
      \/ (exists ids,
            DeckAnalyzer.findCards client (DeckAnalyzer.deckQuery deckName)
            = inr ids
            /\ ids <> []
            /\ DeckAnalyzer.getCardsInfo client
                 (DeckAnalyzer.slice0 ids
                    (Z.min (default 5%Z sampleSize) (Z.of_nat (length ids))))
               = inl error)
      \/ (exists ids cardsInfo,
            DeckAnalyzer.findCards client (DeckAnalyzer.deckQuery deckName)
            = inr ids
            /\ ids <> []
            /\ DeckAnalyzer.getCardsInfo client
                 (DeckAnalyzer.slice0 ids
                    (Z.min (default 5%Z sampleSize) (Z.of_nat (length ids))))
               = inr cardsInfo
            /\ existsb Props.breaksCard cardsInfo = true
            /\ error = DeckAnalyzer.pushIsNotAFunction).
Proof.
  rewrite analyzeDeck_run. cbv zeta.
  destruct (DeckAnalyzer.findCards client (DeckAnalyzer.deckQuery deckName))
    as [e|ids] eqn:Hfind.
  - cbn [snd]. split.
    + intros [= ->]. by left.
    + intros [[= ->] | [[? _] | [(ids & ? & _) | (ids & ? & ? & _)]]]; done.
  - destruct ids as [|id ids]; cbn [snd].
    + split.
      * intros [= <-]. right. by left.
      * intros [? | [[_ ->] | [(ids & [= <-] & ? & _)
                               | (ids & ? & [= <-] & ? & _)]]]; done.
    + split.
      * intros Hout.
        destruct (DeckAnalyzer.getCardsInfo client _) as [e|cardsInfo]
          eqn:Hinfo.
        { injection Hout as ->. right. right. left. exists (id :: ids).
          by rewrite Hinfo. }
        do 3 right. exists (id :: ids), cardsInfo.
        split; [done|]. split; [done|]. split; [exact Hinfo|].
        destruct (getFieldSamples_cases cardsInfo)
          as [[Hbreaks Hthrows] | [_ (fieldSamples & Hreturns & _)]].
        -- rewrite Hthrows in Hout. injection Hout as <-. done.
        -- by rewrite Hreturns in Hout.
      * intros [? | [[? _] | [(ids' & Heq & _ & Hinfo)
                              | (ids' & cardsInfo & Heq & _ & Hinfo
                                 & Hbreaks & ->)]]]; [done..| |].
        -- injection Heq as <-. by rewrite Hinfo.
        -- injection Heq as <-. rewrite Hinfo.
           destruct (getFieldSamples_cases cardsInfo)
             as [[_ ->] | [Hnone _]]; [done | congruence].
Qed.

Lemma X17_analyzeDeck_failures_witness :
  snd (DeckAnalyzer.run offlineClient
         (DeckAnalyzer.analyzeDeck (H := asciiHost)
            (DeckAnalyzer.fieldMapperOf (H := asciiHost))
            (JsString.js "Japanese") None) [])
  = inl unreachable.
Proof.
  refine (proj2 (X17_analyzeDeck_failures (H := asciiHost) _ _ _ _ _) _).
  left. reflexivity.
Defined.

Section AnalyzerCoherence.
Import JsString JsObject Types DeckAnalyzer Props.
Context `{Host}.

Lemma analysis_keys (fieldSamples : dict (list jsstring)) :
  NoDup (keys fieldSamples) ->
  keys (analyzeFields fieldSamples) = keys fieldSamples.
Proof.
  intros Hnd. rewrite (analyzeFields_classifyEach _ Hnd).
  apply classifyEach_keys.
Qed.

Lemma analysis_mapping_valid (noteTypeName : jsstring)
    (analysisKeys sampleKeys : list jsstring) :
  analysisKeys = sampleKeys ->
  FieldMapper.validateMapping
    {| name := noteTypeName; fields := analysisKeys |}
    (FieldMapper.suggestMappings
       {| name := noteTypeName; fields := sampleKeys |}) = true.
Proof.
  intros ->.
  exact (proj2 (validateMapping_true _ _) (suggestMappings_inv _)).
Qed.

End AnalyzerCoherence.

(** X18.  With the mapper of this repository, the parts of a result of
    [analyzeDeck] fit together: the field analysis lists no field
    twice, and the suggested mapping passes
    [validateMapping] against the note type made of the primary note
    type and the analysed fields, so every field it names is an
    analysed field and no field is named twice. *)
Theorem X18_analyzeDeck_coherent `{Host}
    (client : DeckAnalyzer.AnkiConnectClient)
    (deckName : jsstring) (sampleSize : option Z)
    (result : Types.DeckAnalysisResult) :
  snd (DeckAnalyzer.run client
         (DeckAnalyzer.analyzeDeck DeckAnalyzer.fieldMapperOf
            deckName sampleSize) [])
  = inr result ->
  NoDup (JsObject.keys (Types.fieldAnalysis result))
  /\ FieldMapper.validateMapping
       {| Types.name := Types.primaryNoteType result;
          Types.fields := JsObject.keys (Types.fieldAnalysis result) |}
       (Types.suggestedMappings result)
     = true.
Proof.
  rewrite analyzeDeck_run. cbv zeta.
  destruct (DeckAnalyzer.findCards client (DeckAnalyzer.deckQuery deckName))
    as [e|ids]; [done|].
  destruct ids as [|id ids]; [done|]. cbn [snd].
  destruct (DeckAnalyzer.getCardsInfo client _) as [e|cardsInfo]; [done|].
  destruct (getFieldSamples_cases cardsInfo)
    as [[_ ->] | [_ (fieldSamples & -> & Hnd)]]; [done|].
  intros Hresult%(inj inr). subst result.
  cbn [Types.fieldAnalysis Types.primaryNoteType Types.suggestedMappings
       DeckAnalyzer.suggestMappings DeckAnalyzer.fieldMapperOf].
  pose proof (analysis_keys fieldSamples Hnd) as Hkeys.
  revert Hkeys Hnd.
  generalize (DeckAnalyzer.analyzeFields fieldSamples).
  generalize (JsObject.keys fieldSamples).
  generalize (DeckAnalyzer.getPrimaryNoteType cardsInfo).
  intros noteTypeName sampleKeys analysis Hkeys Hnd.
  split; [by rewrite Hkeys|].
  exact (analysis_mapping_valid noteTypeName _ sampleKeys Hkeys).
Qed.

Lemma X18_analyzeDeck_coherent_witness :
  exists result,
    snd (DeckAnalyzer.run threeCardClient
           (DeckAnalyzer.analyzeDeck (H := asciiHost)
              (DeckAnalyzer.fieldMapperOf (H := asciiHost))
              (JsString.js "Japanese") None) [])
    = inr result
    /\ FieldMapper.validateMapping
         {| Types.name := Types.primaryNoteType result;
            Types.fields := JsObject.keys (Types.fieldAnalysis result) |}
         (Types.suggestedMappings result)
       = true.
Proof.
  destruct (snd (DeckAnalyzer.run threeCardClient
                   (DeckAnalyzer.analyzeDeck (H := asciiHost)
                      (DeckAnalyzer.fieldMapperOf (H := asciiHost))
                      (JsString.js "Japanese") None) []))
    as [e|result] eqn:Hrun.
  - exfalso. vm_compute in Hrun. discriminate Hrun.
  - exists result. split; [reflexivity|].
    exact (proj2 (X18_analyzeDeck_coherent (H := asciiHost)
                    threeCardClient (JsString.js "Japanese") None
                    result Hrun)).
Defined.

(* ------------------------------------------------------------------ *)
(** ** ConfigurationManager: which documents are configurations *)
(* ------------------------------------------------------------------ *)

Section ConfigFacts.
Import JsString Json ConfigurationManager.

Lemma typeof_string v :
  typeof v = js "string" <-> exists s, v = Some (JString s).
Proof.
  split.
  - destruct v as [[| | | s | |]|]; intros Ht; try (vm_compute in Ht; done).
    by exists s.
  - by intros [s ->].
Qed.

Lemma typeof_object v :
  typeof v = js "object" /\ isNull v = false /\ isArray v = false
  <-> exists members, v = Some (JObject members).
Proof.
  split.
  - destruct v as [[| | | | |members]|]; intros (Ht & Hn & Ha);
      try (vm_compute in Ht; done); try done.
    by exists members.
  - by intros [members ->].
Qed.

Lemma validateConfig_true config :
  validateConfig config = true <->
  exists members deck noteType mappings,
    config = JObject members
    /\ JsObject.get (js "preferredDeck") members = Some (JString deck)
    /\ JsObject.get (js "preferredNoteType") members
       = Some (JString noteType)
    /\ JsObject.get (js "fieldMappings") members = Some (JObject mappings).
Proof.
  unfold validateConfig. cbv zeta. split.
  - destruct config as [| | | | |members]; try done.
    + cbn [Json.truthy typeof negb]. rewrite orb_true_r. done.
    + cbn [Json.truthy typeof negb]. rewrite orb_true_r. done.
    + cbn [Json.truthy typeof negb].
      destruct (negb (JsString.truthy s)); done.
    + cbn [Json.truthy typeof negb member orb].
      assert (bool_decide (js "object" = js "object") = true) as ->
        by (apply bool_decide_eq_true_2; reflexivity).
      cbn [negb]. intros Hc.
      repeat (apply andb_true_iff in Hc as [Hc ?]).
      apply bool_decide_eq_true_1, typeof_string in Hc as [deck Hdeck].
      match goal with
      | Hn : bool_decide (typeof _ = js "string") = true |- _ =>
        apply bool_decide_eq_true_1, typeof_string in Hn
          as [noteType HnoteType]
      end.
      match goal with
      | Ho : bool_decide (typeof _ = js "object") = true |- _ =>
        apply bool_decide_eq_true_1 in Ho
      end.
      destruct (proj1 (typeof_object
                         (JsObject.get (js "fieldMappings") members)))
        as [mappings Hmappings].
      { split; [done|]. split; by apply negb_true_iff. }
      by exists members, deck, noteType, mappings.
  - intros (members & deck & noteType & mappings & -> & Hd & Hn & Hm).
    cbn [Json.truthy typeof negb member orb].
    rewrite Hd, Hn, Hm. reflexivity.
Qed.

End ConfigFacts.

(** X19.  [validateConfig] accepts a parsed document exactly when it is
    an object whose members [preferredDeck] and [preferredNoteType] are
    strings and whose member [fieldMappings] is an object that is not an
    array.  Nothing else is looked at: further members are allowed, and
    the values inside [fieldMappings] need not be strings. *)
Theorem X19_validateConfig_accepts (config : Json.JsonValue) :
  ConfigurationManager.validateConfig config = true <->
  exists members deck noteType mappings,
    config = Json.JObject members
    /\ JsObject.get (JsString.js "preferredDeck") members
       = Some (Json.JString deck)
    /\ JsObject.get (JsString.js "preferredNoteType") members
       = Some (Json.JString noteType)
    /\ JsObject.get (JsString.js "fieldMappings") members
       = Some (Json.JObject mappings).
Proof. apply validateConfig_true. Qed.

Lemma X19_validateConfig_accepts_witness :
  ConfigurationManager.validateConfig
    (Json.JObject
       [ (JsString.js "preferredDeck", Json.JString (JsString.js "Mine"));
         (JsString.js "fieldMappings",
          Json.JObject [ (JsString.js "primary", Json.JNumber 5%Q) ]);
         (JsString.js "preferredNoteType", Json.JString []);
         (JsString.js "theme", Json.JNull) ])
  = true.
Proof.
  refine (proj2 (X19_validateConfig_accepts _) _).
  eexists _, _, _, _. split; [reflexivity|].
  split; [reflexivity|]. split; reflexivity.
Defined.

(** X20.  Whatever the file holds and whether or not it can be read or
    parsed, the configuration [loadConfig] returns passes
    [validateConfig]: it is the parsed file when that can be read and
    parsed and passes, and the default configuration in every other
    case. *)
Theorem X20_loadConfig_valid (disk : ConfigurationManager.Disk) :
  ConfigurationManager.validateConfig
    (snd (ConfigurationManager.loadConfig disk)) = true
  /\ (forall configData config,
        ConfigurationManager.readFile disk = inr configData ->
        ConfigurationManager.JSON_parse disk configData = inr config ->
        ConfigurationManager.validateConfig config = true ->
        ConfigurationManager.loadConfig disk = ([], config))
  /\ (snd (ConfigurationManager.loadConfig disk)
      = ConfigurationManager.getDefaultConfig
      \/ exists configData,
           ConfigurationManager.readFile disk = inr configData
           /\ ConfigurationManager.JSON_parse disk configData
              = inr (snd (ConfigurationManager.loadConfig disk))).
Proof.
  assert (Hdefault : ConfigurationManager.validateConfig
                       ConfigurationManager.getDefaultConfig = true)
    by (vm_compute; reflexivity).
  unfold ConfigurationManager.loadConfig.
  destruct (ConfigurationManager.readFile disk) as [e|configData];
    [split; [exact Hdefault | split; [done | by left]]|].
  destruct (ConfigurationManager.JSON_parse disk configData)
    as [e|config] eqn:Hparse.
  { split; [exact Hdefault|]. split; [|by left].
    intros ? ? [= <-]. by rewrite Hparse. }
  destruct (ConfigurationManager.validateConfig config) eqn:Hvalid;
    cbn [snd].
  - split; [exact Hvalid|]. split; [|right; by exists configData].
    intros ? ? [= <-]. rewrite Hparse. by intros [= <-].
  - split; [exact Hdefault|]. split; [|by left].
    intros ? ? [= <-]. rewrite Hparse. intros [= <-]. congruence.
Qed.

(* ------------------------------------------------------------------ *)
(** ** AnkiMCPServer: the tool methods *)
(* ------------------------------------------------------------------ *)

Section ServerFacts.
Import JsString JsObject AnkiMCPServer.
Context (this : Collaborators).

(** What [initializeUserConfig] does, case by case. *)
Lemma initializeUserConfig_run (st : ServerState) (log : list Call) :
  initializeUserConfig this st log
  = match userConfig st with
    | Some _ => (st, log, inr tt)
    | None =>
      match getNoteTypes (ankiClient this) with
      | inl e => (st, log ++ [CalledGetNoteTypes], inl (ThrownError e))
      | inr noteTypes =>
        match loadConfig (configManager this) with
        | inl e =>
          ({| userConfig := None; availableNoteTypes := noteTypes |},
           (log ++ [CalledGetNoteTypes]) ++ [CalledLoadConfig],
           inl (ThrownError e))
        | inr config =>
          ({| userConfig := Some config; availableNoteTypes := noteTypes |},
           (log ++ [CalledGetNoteTypes]) ++ [CalledLoadConfig],
           inr tt)
        end
      end
    end.
Proof.
  unfold initializeUserConfig, bind, getState, putState, await, ret.
  destruct st as [[config|] noteTypes0]; cbn [userConfig]; [done|].
  destruct (getNoteTypes (ankiClient this)) as [e|noteTypes]; [done|].
  cbn [userConfig availableNoteTypes].
  by destruct (loadConfig (configManager this)).
Qed.

Lemma initializeUserConfig_loaded (st : ServerState) (log : list Call) :
  is_Some (userConfig st) ->
  initializeUserConfig this st log = (st, log, inr tt).
Proof.
  intros [config Hc]. by rewrite initializeUserConfig_run, Hc.
Qed.

Lemma initializeUserConfig_success (st st1 : ServerState)
    (log log1 : list Call) :
  initializeUserConfig this st log = (st1, log1, inr tt) ->
  is_Some (userConfig st1).
Proof.
  rewrite initializeUserConfig_run.
  destruct (userConfig st) as [config|] eqn:Hc.
  - intros [= <- _]. by exists config.
  - destruct (getNoteTypes (ankiClient this)); [done|].
    destruct (loadConfig (configManager this)) as [e|config]; [done|].
    intros [= <- _]. by eexists.
Qed.

End ServerFacts.

(** X21.  [initializeUserConfig] loads once: when it succeeds the
    server holds a configuration, and from then on a further call makes
    no request and changes nothing.  A call sends at most two requests,
    the note types first and then the configuration. *)
Theorem X21_initializeUserConfig_once (this : AnkiMCPServer.Collaborators)
    (st : AnkiMCPServer.ServerState) :
  let first :=
    AnkiMCPServer.run (AnkiMCPServer.initializeUserConfig this) st in
  (AnkiMCPServer.outcomeOf first = inr tt ->
   is_Some (AnkiMCPServer.userConfig (AnkiMCPServer.stateOf first))
   /\ AnkiMCPServer.run (AnkiMCPServer.initializeUserConfig this)
        (AnkiMCPServer.stateOf first)
      = (AnkiMCPServer.stateOf first, [], inr tt))
  /\ AnkiMCPServer.logOf first
     ∈ [ [];
         [AnkiMCPServer.CalledGetNoteTypes];
         [AnkiMCPServer.CalledGetNoteTypes; AnkiMCPServer.CalledLoadConfig] ].
Proof.
  cbv zeta. unfold AnkiMCPServer.run.
  destruct (AnkiMCPServer.initializeUserConfig this st [])
    as [[st1 log1] out1] eqn:Hrun.
  unfold AnkiMCPServer.outcomeOf, AnkiMCPServer.stateOf, AnkiMCPServer.logOf.
  cbn [fst snd]. split.
  - intros ->. pose proof (initializeUserConfig_success _ _ _ _ _ Hrun) as Hs.
    split; [exact Hs|]. by apply initializeUserConfig_loaded.
  - rewrite initializeUserConfig_run in Hrun.
    destruct (AnkiMCPServer.userConfig st).
    { injection Hrun as _ <- _. left. }
    destruct (AnkiMCPServer.getNoteTypes _).
    { injection Hrun as _ <- _. right. left. }
    destruct (AnkiMCPServer.loadConfig _);
      injection Hrun as _ <- _; right; right; left.
Qed.

Lemma X21_initializeUserConfig_once_witness :
  AnkiMCPServer.run (AnkiMCPServer.initializeUserConfig deskServer) loaded
  = (loaded, [], inr tt).
Proof.
  refine (proj2 (proj1 (X21_initializeUserConfig_once deskServer
                          AnkiMCPServer.initial) _)).
  reflexivity.
Defined.

Section AddSmartCardFacts.
Import JsString JsObject AnkiMCPServer ServerProps.
Context (this : Collaborators).

(** What [addSmartCard] does once the configuration is loaded. *)
Lemma addSmartCard_run (args : AddSmartCardArgs.t) (st : ServerState) :
  let started := initializeUserConfig this st [] in
  exists response,
    run (addSmartCard this args) st
    = match outcomeOf started, userConfig (stateOf started) with
      | inl e, _ => (stateOf started, logOf started, inl e)
      | inr _, None => (stateOf started, logOf started, inl ThrownTypeError)
      | inr _, Some config =>
        let note := noteOf this config args in
        if (length (keys (fields note)) =? 0)%nat
        then (stateOf started, logOf started, inl NoFieldsMapped)
        else
          (stateOf started, logOf started ++ [CalledAddNote note],
           match addNote (ankiClient this) note with
           | inl e => inl (ThrownError e)
           | inr noteId => inr (response noteId)
           end)
      end.
Proof.
  cbv zeta. unfold run, addSmartCard, bind.
  destruct (initializeUserConfig this st []) as [[st1 log1] [e|[]]].
  { by exists (fun _ => {| content := [] |}). }
  unfold outcomeOf, stateOf, logOf, getState. cbn [fst snd].
  destruct (userConfig st1) as [config|].
  2:{ by exists (fun _ => {| content := [] |}). }
  unfold noteOf. cbn [fields].
  destruct (length (keys (applyMapping (fieldMapper this)
                            (fieldMappings config)
                            (AddSmartCardArgs.content args))) =? 0)%nat.
  { by exists (fun _ => {| content := [] |}). }
  unfold await, ret. eexists (fun noteId => _).
  destruct (addNote (ankiClient this) _); reflexivity.
Qed.

Lemma initializeUserConfig_requests (st : ServerState) :
  Forall (fun call => call = CalledGetNoteTypes \/ call = CalledLoadConfig)
         (logOf (initializeUserConfig this st [])).
Proof.
  rewrite initializeUserConfig_run. unfold logOf.
  destruct (userConfig st); [done|].
  destruct (getNoteTypes (ankiClient this)); cbn [fst snd app].
  { repeat constructor. }
  destruct (loadConfig (configManager this)); cbn [fst snd app];
    repeat constructor; by right.
Qed.

Lemma initializeUserConfig_reads (st : ServerState) :
  Forall (fun call => writes call = false)
         (logOf (initializeUserConfig this st [])).
Proof.
  eapply Forall_impl; [apply initializeUserConfig_requests|].
  by intros call [-> | ->].
Qed.

End AddSmartCardFacts.

(** X22.  [addSmartCard] never sends a note without fields.  Every
    note it hands to [addNote] carries the fields [applyMapping] made of
    the content under the configured mapping, and these are not empty;
    its deck is the deck of the arguments when that is given and not
    the empty string, and the preferred deck of the configuration
    otherwise; the note is the last request and the only one that
    writes. *)
Theorem X22_addSmartCard_note
    (this : AnkiMCPServer.Collaborators)
    (args : AnkiMCPServer.AddSmartCardArgs.t)
    (st : AnkiMCPServer.ServerState) (note : AnkiMCPServer.AnkiNote) :
  let settled := AnkiMCPServer.run (AnkiMCPServer.addSmartCard this args) st in
  AnkiMCPServer.CalledAddNote note ∈ AnkiMCPServer.logOf settled ->
  exists config before,
    AnkiMCPServer.userConfig (AnkiMCPServer.stateOf settled) = Some config
    /\ AnkiMCPServer.logOf settled
       = before ++ [AnkiMCPServer.CalledAddNote note]
    /\ Forall (fun call => ServerProps.writes call = false) before
    /\ AnkiMCPServer.fields note <> []
    /\ AnkiMCPServer.fields note
       = AnkiMCPServer.applyMapping (AnkiMCPServer.fieldMapper this)
           (AnkiMCPServer.fieldMappings config)
           (AnkiMCPServer.AddSmartCardArgs.content args)
    /\ AnkiMCPServer.deckName note
       = match AnkiMCPServer.AddSmartCardArgs.deck args with
         | Some (c :: deck) => c :: deck
         | _ => AnkiMCPServer.preferredDeck config
         end.
Proof.
  cbv zeta. destruct (addSmartCard_run this args st) as [response ->].
  pose proof (initializeUserConfig_reads this st) as Hr.
  revert Hr.
  destruct (AnkiMCPServer.initializeUserConfig this st [])
    as [[st1 log1] out1].
  unfold AnkiMCPServer.outcomeOf, AnkiMCPServer.stateOf, AnkiMCPServer.logOf.
  cbn [fst snd]. intros Hreads.
  assert (Hnot : AnkiMCPServer.CalledAddNote note ∉ log1).
  { intros Hin. rewrite Forall_forall in Hreads.
    by specialize (Hreads _ Hin). }
  destruct out1 as [e|[]]; [done|].
  destruct (AnkiMCPServer.userConfig st1) as [config|] eqn:Hconfig; [|done].
  cbv zeta.
  destruct (_ =? 0)%nat eqn:Hlen; [done|]. cbn [fst snd].
  intros [Hin | Hin%list_elem_of_singleton]%elem_of_app; [done|].
  injection Hin as ->.
  exists config, log1. split; [done|]. split; [done|]. split; [done|].
  split; [|split; [done|]].
  - apply Nat.eqb_neq in Hlen. intros Hnil. apply Hlen.
    unfold JsObject.keys. by rewrite Hnil.
  - unfold ServerProps.noteOf. cbn [AnkiMCPServer.deckName].
    by destruct (AnkiMCPServer.AddSmartCardArgs.deck args) as [[|c deck]|].
Qed.

Lemma X22_addSmartCard_note_witness :
  let note :=
    {| AnkiMCPServer.deckName := JsString.js "Default";
       AnkiMCPServer.modelName := JsString.js "Basic";
       AnkiMCPServer.fields := [ (JsString.js "Front", JsString.js "apple") ];
       AnkiMCPServer.tags := [] |} in
  exists config before,
    AnkiMCPServer.userConfig
      (AnkiMCPServer.stateOf
         (AnkiMCPServer.run
            (AnkiMCPServer.addSmartCard deskServer
               {| AnkiMCPServer.AddSmartCardArgs.content :=
                    [ (JsString.js "primary", JsString.js "apple") ];
                  AnkiMCPServer.AddSmartCardArgs.deck := Some [];
                  AnkiMCPServer.AddSmartCardArgs.noteType := None;
                  AnkiMCPServer.AddSmartCardArgs.tags := None |})
            AnkiMCPServer.initial))
    = Some config
    /\ AnkiMCPServer.logOf
         (AnkiMCPServer.run
            (AnkiMCPServer.addSmartCard deskServer
               {| AnkiMCPServer.AddSmartCardArgs.content :=
                    [ (JsString.js "primary", JsString.js "apple") ];
                  AnkiMCPServer.AddSmartCardArgs.deck := Some [];
                  AnkiMCPServer.AddSmartCardArgs.noteType := None;
                  AnkiMCPServer.AddSmartCardArgs.tags := None |})
            AnkiMCPServer.initial)
       = before ++ [AnkiMCPServer.CalledAddNote note].
Proof.
  cbv zeta.
  destruct (X22_addSmartCard_note deskServer
              {| AnkiMCPServer.AddSmartCardArgs.content :=
                   [ (JsString.js "primary", JsString.js "apple") ];
                 AnkiMCPServer.AddSmartCardArgs.deck := Some [];
                 AnkiMCPServer.AddSmartCardArgs.noteType := None;
                 AnkiMCPServer.AddSmartCardArgs.tags := None |}
              AnkiMCPServer.initial
              {| AnkiMCPServer.deckName := JsString.js "Default";
                 AnkiMCPServer.modelName := JsString.js "Basic";
                 AnkiMCPServer.fields :=
                   [ (JsString.js "Front", JsString.js "apple") ];
                 AnkiMCPServer.tags := [] |})
    as (config & before & Hconfig & Hlog & _).
  - vm_compute. repeat constructor.
  - by exists config, before.
Defined.

(** X23.  With the mapper of this repository and a configuration
    already loaded, [addSmartCard] refuses with "No fields were mapped"
    exactly when every pair of the content is passed over by the
    configured mapping (its label has no target key, being mapped to
    the empty name or being neither mapped nor the name of a member of
    [Object.prototype]; or the key is [__proto__]; or its text is
    blank); it then sends no request at all.  In every other case
    it sends exactly one request, the note, and fails only with the
    error that request is rejected with.  The state of the server is
    left as it was. *)
Theorem X23_addSmartCard_refuses (this : AnkiMCPServer.Collaborators)
    (args : AnkiMCPServer.AddSmartCardArgs.t)
    (st : AnkiMCPServer.ServerState) (config : AnkiMCPServer.UserConfig) :
  let settled := AnkiMCPServer.run (AnkiMCPServer.addSmartCard this args) st in
  AnkiMCPServer.applyMapping (AnkiMCPServer.fieldMapper this)
  = FieldMapper.applyMapping ->
  AnkiMCPServer.userConfig st = Some config ->
  AnkiMCPServer.stateOf settled = st
  /\ (Forall (Props.skipped (AnkiMCPServer.fieldMappings config))
             (AnkiMCPServer.AddSmartCardArgs.content args)
      -> AnkiMCPServer.logOf settled = []
         /\ AnkiMCPServer.outcomeOf settled
            = inl AnkiMCPServer.NoFieldsMapped)
  /\ (~ Forall (Props.skipped (AnkiMCPServer.fieldMappings config))
               (AnkiMCPServer.AddSmartCardArgs.content args)
      -> AnkiMCPServer.logOf settled
         = [AnkiMCPServer.CalledAddNote
              (ServerProps.noteOf this config args)]
         /\ forall error,
              AnkiMCPServer.outcomeOf settled = inl error ->
              exists rejection,
                error = AnkiMCPServer.ThrownError rejection
                /\ AnkiMCPServer.addNote (AnkiMCPServer.ankiClient this)
                     (ServerProps.noteOf this config args)
                   = inl rejection).
Proof.
  cbv zeta. intros Hmapper Hconfig.
  destruct (addSmartCard_run this args st) as [response ->].
  rewrite (initializeUserConfig_loaded this st []) by (by exists config).
  unfold AnkiMCPServer.outcomeOf, AnkiMCPServer.stateOf, AnkiMCPServer.logOf.
  cbn [fst snd]. rewrite Hconfig. cbv zeta.
  pose proof (applyMapping_nil_iff (AnkiMCPServer.fieldMappings config)
                (AnkiMCPServer.AddSmartCardArgs.content args)) as Hnil.
  assert (Hfields :
    AnkiMCPServer.fields (ServerProps.noteOf this config args)
    = FieldMapper.applyMapping (AnkiMCPServer.fieldMappings config)
        (AnkiMCPServer.AddSmartCardArgs.content args)).
  { unfold ServerProps.noteOf. cbn [AnkiMCPServer.fields].
    by rewrite Hmapper. }
  revert Hnil Hfields.
  generalize (ServerProps.noteOf this config args).
  generalize (FieldMapper.applyMapping (AnkiMCPServer.fieldMappings config)
                (AnkiMCPServer.AddSmartCardArgs.content args)).
  intros mappedFields note Hnil ->.
  destruct mappedFields as [|entry mappedFields]; cbn [length JsObject.keys
    map Nat.eqb fst snd app].
  - split; [done|]. split; [done|]. intros Hn. exfalso. by apply Hn, Hnil.
  - split; [done|]. split.
    + intros Hall. by apply Hnil in Hall.
    + intros _. split; [done|]. intros error.
      destruct (AnkiMCPServer.addNote (AnkiMCPServer.ankiClient this) note)
        as [rejection|noteId]; [|done].
      intros [= <-]. by exists rejection.
Qed.

Lemma X23_addSmartCard_refuses_witness :
  AnkiMCPServer.logOf
    (AnkiMCPServer.run
       (AnkiMCPServer.addSmartCard deskServer
          {| AnkiMCPServer.AddSmartCardArgs.content :=
               [ (JsString.js "notes", JsString.js "N");
                 (JsString.js "primary", JsString.js "  ") ];
             AnkiMCPServer.AddSmartCardArgs.deck := None;
             AnkiMCPServer.AddSmartCardArgs.noteType := None;
             AnkiMCPServer.AddSmartCardArgs.tags := None |})
       loaded) = []
  /\ AnkiMCPServer.outcomeOf
       (AnkiMCPServer.run
          (AnkiMCPServer.addSmartCard deskServer
             {| AnkiMCPServer.AddSmartCardArgs.content :=
                  [ (JsString.js "notes", JsString.js "N");
                    (JsString.js "primary", JsString.js "  ") ];
                AnkiMCPServer.AddSmartCardArgs.deck := None;
                AnkiMCPServer.AddSmartCardArgs.noteType := None;
                AnkiMCPServer.AddSmartCardArgs.tags := None |})
          loaded)
     = inl AnkiMCPServer.NoFieldsMapped.
Proof.
  refine (proj1 (proj2 (X23_addSmartCard_refuses deskServer _ loaded
                          deskConfig _ _)) _).
  - reflexivity.
  - reflexivity.
  - apply Forall_cons. split; [left; reflexivity|].
    apply Forall_cons. split; [do 2 right; reflexivity|].
    constructor.
Defined.

Section ConfigureFacts.
Import JsString JsObject AnkiMCPServer ServerProps.
Context `{JsonHost} (this : Collaborators).

(** What [configureAnkiSetup] does, given what the initialization
    did. *)
Lemma configureAnkiSetup_run (args : ConfigureAnkiSetupArgs.t)
    (st : ServerState) (log : list Call) :
  let started := initializeUserConfig this st log in
  exists response,
    configureAnkiSetup this args st log
    = match outcomeOf started with
      | inl e => (stateOf started, logOf started, inl e)
      | inr _ =>
        let config := configOf args (userConfig (stateOf started)) in
        ({| userConfig := Some config;
            availableNoteTypes := availableNoteTypes (stateOf started) |},
         (logOf started
          ++ [CalledCreateDeck (ConfigureAnkiSetupArgs.deck args)])
         ++ [CalledSaveConfig config],
         match saveConfig (configManager this) config with
         | inl e => inl (ThrownError e)
         | inr _ => inr response
         end)
      end.
Proof.
  cbv zeta. unfold configureAnkiSetup, bind.
  destruct (initializeUserConfig this st log) as [[st1 log1] [e|[]]].
  { by exists {| content := [] |}. }
  unfold outcomeOf, stateOf, logOf, catch, await, getState, putState, ret.
  cbn [fst snd]. unfold configOf, JsObject.empty. eexists.
  destruct (createDeck (ankiClient this) (ConfigureAnkiSetupArgs.deck args));
    cbn [userConfig availableNoteTypes];
    destruct (saveConfig (configManager this) _); reflexivity.
Qed.

End ConfigureFacts.

(** X24.  Once the initialization has succeeded, [configureAnkiSetup]
    replaces the configuration held by the server by the deck and note
    type of the arguments, with the mapping of the arguments or, when
    there is none, the mapping held before; it then asks for the deck to
    be created and for the configuration to be saved, in this order.
    Whether the deck could be created makes no difference, and when the
    save is rejected the method fails with that error while the server
    keeps the new configuration. *)
Theorem X24_configureAnkiSetup_replaces `{JsonHost}
    (this : AnkiMCPServer.Collaborators)
    (args : AnkiMCPServer.ConfigureAnkiSetupArgs.t)
    (st : AnkiMCPServer.ServerState) :
  let started :=
    AnkiMCPServer.run (AnkiMCPServer.initializeUserConfig this) st in
  let settled :=
    AnkiMCPServer.run (AnkiMCPServer.configureAnkiSetup this args) st in
  let config :=
    ServerProps.configOf args
      (AnkiMCPServer.userConfig (AnkiMCPServer.stateOf started)) in
  AnkiMCPServer.outcomeOf started = inr tt ->
  AnkiMCPServer.userConfig (AnkiMCPServer.stateOf settled) = Some config
  /\ AnkiMCPServer.logOf settled
     = AnkiMCPServer.logOf started
       ++ [ AnkiMCPServer.CalledCreateDeck
              (AnkiMCPServer.ConfigureAnkiSetupArgs.deck args);
            AnkiMCPServer.CalledSaveConfig config ]
  /\ forall error,
       AnkiMCPServer.outcomeOf settled = inl error <->
       exists rejection,
         error = AnkiMCPServer.ThrownError rejection
         /\ AnkiMCPServer.saveConfig (AnkiMCPServer.configManager this) config
            = inl rejection.
Proof.
  cbv zeta. unfold AnkiMCPServer.run. intros Hstarted.
  destruct (configureAnkiSetup_run this args st []) as [response ->].
  rewrite Hstarted.
  unfold AnkiMCPServer.outcomeOf, AnkiMCPServer.stateOf, AnkiMCPServer.logOf.
  cbn [fst snd AnkiMCPServer.userConfig]. split; [done|].
  split; [by rewrite <- app_assoc|].
  intros error.
  destruct (AnkiMCPServer.saveConfig _ _) as [rejection|[]]; split.
  - intros [= <-]. by exists rejection.
  - by intros (? & -> & [= ->]).
  - done.
  - by intros (? & _ & ?).
Qed.

Lemma X24_configureAnkiSetup_replaces_witness :
  AnkiMCPServer.userConfig
    (AnkiMCPServer.stateOf
       (AnkiMCPServer.run
          (AnkiMCPServer.configureAnkiSetup (H := plainJson) deskServer
             {| AnkiMCPServer.ConfigureAnkiSetupArgs.deck :=
                  JsString.js "Japanese";
                AnkiMCPServer.ConfigureAnkiSetupArgs.noteType :=
                  JsString.js "Cloze";
                AnkiMCPServer.ConfigureAnkiSetupArgs.fieldMappings := None |})
          AnkiMCPServer.initial))
  = Some {| AnkiMCPServer.preferredDeck := JsString.js "Japanese";
            AnkiMCPServer.preferredNoteType := JsString.js "Cloze";
            AnkiMCPServer.fieldMappings :=
              AnkiMCPServer.fieldMappings deskConfig |}.
Proof.
  refine (proj1 (X24_configureAnkiSetup_replaces (H := plainJson) deskServer
                   _ AnkiMCPServer.initial _)).
  reflexivity.
Defined.

Section AnalysisToolFacts.
Import JsString JsObject AnkiMCPServer ServerProps.
Context `{JsonHost} (this : Collaborators).

Lemma initializeUserConfig_log (st : ServerState) (log : list Call) :
  initializeUserConfig this st log
  = (stateOf (initializeUserConfig this st []),
     log ++ logOf (initializeUserConfig this st []),
     outcomeOf (initializeUserConfig this st [])).
Proof.
  rewrite !initializeUserConfig_run. unfold stateOf, logOf, outcomeOf.
  destruct (userConfig st); cbn [fst snd]; [by rewrite app_nil_r|].
  destruct (getNoteTypes (ankiClient this)); cbn [fst snd]; [done|].
  destruct (loadConfig (configManager this)); cbn [fst snd];
    by rewrite <- app_assoc.
Qed.

(** What [analyzeExistingDeck] does, given what the initialization
    did. *)
Lemma analyzeExistingDeck_run (args : AnalyzeExistingDeckArgs.t)
    (st : ServerState) :
  let started := initializeUserConfig this st [] in
  let sampleSize :=
    Some (sampleSizeOr5 (AnalyzeExistingDeckArgs.sampleSize args)) in
  run (analyzeExistingDeck this args) st
  = match outcomeOf started with
    | inl e => (stateOf started, logOf started, inl e)
    | inr _ =>
      (stateOf started,
       logOf started
       ++ [CalledAnalyzeDeck (AnalyzeExistingDeckArgs.deck args) sampleSize],
       match analyzeDeck (deckAnalyzer this)
               (AnalyzeExistingDeckArgs.deck args) sampleSize with
       | inl e => inl (ThrownError e)
       | inr analysisResult =>
         inr {| content :=
                  [ {| text := generateReport (deckAnalyzer this)
                                 analysisResult |} ] |}
       end)
    end.
Proof.
  cbv zeta. unfold run, analyzeExistingDeck, bind.
  destruct (initializeUserConfig this st []) as [[st1 log1] [e|[]]]; [done|].
  unfold outcomeOf, stateOf, logOf, await, ret. cbn [fst snd].
  by destruct (analyzeDeck (deckAnalyzer this) _ _).
Qed.

(** What [autoConfigureFromDeck] does when it is asked to apply. *)
Lemma autoConfigureFromDeck_apply (deck : jsstring) (st : ServerState) :
  let args :=
    {| AutoConfigureFromDeckArgs.deck := deck;
       AutoConfigureFromDeckArgs.confirm := Some true |} in
  let fetched analysis cardIds card :=
    configureAnkiSetup this
      {| ConfigureAnkiSetupArgs.deck := deck;
         ConfigureAnkiSetupArgs.noteType := Types.modelName card;
         ConfigureAnkiSetupArgs.fieldMappings :=
           Some (Types.suggestedMappings analysis) |}
      st
      [ CalledAnalyzeDeck deck None;
        CalledFindCards (DeckAnalyzer.deckQuery deck);
        CalledGetCardsInfo [cardIds !! 0] ] in
  run (autoConfigureFromDeck this args) st
  = match analyzeDeck (deckAnalyzer this) deck None with
    | inl e => (st, [CalledAnalyzeDeck deck None], inl (ThrownError e))
    | inr analysis =>
      match findCards (ankiClient this) (DeckAnalyzer.deckQuery deck) with
      | inl e =>
        (st, [ CalledAnalyzeDeck deck None;
               CalledFindCards (DeckAnalyzer.deckQuery deck) ],
         inl (ThrownError e))
      | inr cardIds =>
        match getCardsInfo (ankiClient this) [cardIds !! 0] with
        | inl e =>
          (st, [ CalledAnalyzeDeck deck None;
                 CalledFindCards (DeckAnalyzer.deckQuery deck);
                 CalledGetCardsInfo [cardIds !! 0] ],
           inl (ThrownError e))
        | inr [] =>
          (st, [ CalledAnalyzeDeck deck None;
                 CalledFindCards (DeckAnalyzer.deckQuery deck);
                 CalledGetCardsInfo [cardIds !! 0] ],
           inl ThrownTypeError)
        | inr (card :: _) => fetched analysis cardIds card
        end
      end
    end.
Proof.
  cbv zeta. unfold run, autoConfigureFromDeck, bind, await.
  cbn [AutoConfigureFromDeckArgs.deck AutoConfigureFromDeckArgs.confirm
       default negb app].
  destruct (analyzeDeck (deckAnalyzer this) deck None) as [e|analysis];
    [done|].
  change (negb (default false (Some true))) with false. cbv iota.
  destruct (findCards (ankiClient this) (DeckAnalyzer.deckQuery deck))
    as [e|cardIds]; [done|]. cbn [app].
  destruct (getCardsInfo (ankiClient this) [cardIds !! 0])
    as [e|[|card cardsInfo]]; done.
Qed.

End AnalysisToolFacts.

(** X25.  [analyzeExistingDeck] never asks the analyzer for a sample of
    size zero, nor leaves the size open: a size of 0 is replaced by 5
    just as a missing size is, so both give the same run as the size 5;
    any other size is passed on as it is.  The method writes nothing,
    and asks for the analysis only after the initialization
    succeeded. *)
Theorem X25_analyzeExistingDeck_size
    (this : AnkiMCPServer.Collaborators) (deck : jsstring)
    (sampleSize : option Z) (st : AnkiMCPServer.ServerState) :
  let tool size :=
    AnkiMCPServer.run
      (AnkiMCPServer.analyzeExistingDeck this
         {| AnkiMCPServer.AnalyzeExistingDeckArgs.deck := deck;
            AnkiMCPServer.AnalyzeExistingDeckArgs.sampleSize := size |})
      st in
  tool (Some 0%Z) = tool (Some 5%Z)
  /\ tool None = tool (Some 5%Z)
  /\ Forall (fun call => ServerProps.writes call = false)
            (AnkiMCPServer.logOf (tool sampleSize))
  /\ forall asked size,
       AnkiMCPServer.CalledAnalyzeDeck asked size
       ∈ AnkiMCPServer.logOf (tool sampleSize) ->
       asked = deck
       /\ (exists n, size = Some n /\ n <> 0%Z
                     /\ (sampleSize = Some n \/ n = 5%Z))
       /\ AnkiMCPServer.outcomeOf
            (AnkiMCPServer.run (AnkiMCPServer.initializeUserConfig this) st)
          = inr tt.
Proof.
  cbv beta zeta. rewrite !analyzeExistingDeck_run. cbv zeta.
  cbn [AnkiMCPServer.AnalyzeExistingDeckArgs.deck
       AnkiMCPServer.AnalyzeExistingDeckArgs.sampleSize].
  split; [done|]. split; [done|].
  pose proof (initializeUserConfig_requests this st) as Hrequests.
  unfold AnkiMCPServer.run. revert Hrequests.
  destruct (AnkiMCPServer.initializeUserConfig this st [])
    as [[st1 log1] out1].
  unfold AnkiMCPServer.outcomeOf, AnkiMCPServer.stateOf, AnkiMCPServer.logOf.
  cbn [fst snd]. intros Hrequests.
  assert (Hreads : Forall (fun call => ServerProps.writes call = false) log1).
  { eapply Forall_impl; [exact Hrequests|]. by intros call [-> | ->]. }
  assert (Hnone : forall asked size,
             AnkiMCPServer.CalledAnalyzeDeck asked size ∉ log1).
  { intros asked size Hin. rewrite Forall_forall in Hrequests.
    by destruct (Hrequests _ Hin). }
  destruct out1 as [e|[]]; cbn [fst snd].
  - split; [done|]. intros asked size Hin. by apply Hnone in Hin.
  - split.
    + apply Forall_app. split; [done | by repeat constructor].
    + intros asked size [Hin | Hin%list_elem_of_singleton]%elem_of_app.
      { by apply Hnone in Hin. }
      injection Hin as -> ->. split; [done|]. split; [|done].
      exists (AnkiMCPServer.sampleSizeOr5 sampleSize).
      split; [done|]. unfold AnkiMCPServer.sampleSizeOr5.
      destruct sampleSize as [n|]; [|split; [lia | by right]].
      destruct (Z.eqb_spec n 0); split; try lia; by left.
Qed.

Lemma X25_analyzeExistingDeck_size_witness :
  AnkiMCPServer.run
    (AnkiMCPServer.analyzeExistingDeck deskServer
       {| AnkiMCPServer.AnalyzeExistingDeckArgs.deck := JsString.js "Japanese";
          AnkiMCPServer.AnalyzeExistingDeckArgs.sampleSize := Some 0%Z |})
    loaded
  = AnkiMCPServer.run
      (AnkiMCPServer.analyzeExistingDeck deskServer
         {| AnkiMCPServer.AnalyzeExistingDeckArgs.deck :=
              JsString.js "Japanese";
            AnkiMCPServer.AnalyzeExistingDeckArgs.sampleSize := Some 5%Z |})
      loaded.
Proof.
  exact (proj1 (X25_analyzeExistingDeck_size deskServer
                  (JsString.js "Japanese") None loaded)).
Defined.

(** X26.  Without confirmation (the flag missing or false),
    [autoConfigureFromDeck] is a dry run: its only request is the
    analysis of the deck with the default sample size, it neither loads
    nor changes the configuration of the server, and on success its
    text is the report of the analysis followed by the hint to run the
    tool again with [confirm: true]. *)
Theorem X26_autoConfigureFromDeck_dry_run `{JsonHost}
    (this : AnkiMCPServer.Collaborators)
    (args : AnkiMCPServer.AutoConfigureFromDeckArgs.t)
    (st : AnkiMCPServer.ServerState) :
  let settled :=
    AnkiMCPServer.run (AnkiMCPServer.autoConfigureFromDeck this args) st in
  AnkiMCPServer.AutoConfigureFromDeckArgs.confirm args <> Some true ->
  AnkiMCPServer.stateOf settled = st
  /\ AnkiMCPServer.logOf settled
     = [ AnkiMCPServer.CalledAnalyzeDeck
           (AnkiMCPServer.AutoConfigureFromDeckArgs.deck args) None ]
  /\ forall analysis,
       AnkiMCPServer.analyzeDeck (AnkiMCPServer.deckAnalyzer this)
         (AnkiMCPServer.AutoConfigureFromDeckArgs.deck args) None
       = inr analysis ->
       AnkiMCPServer.outcomeOf settled
       = inr {| AnkiMCPServer.content :=
                  [ {| AnkiMCPServer.text :=
                         AnkiMCPServer.generateReport
                           (AnkiMCPServer.deckAnalyzer this) analysis
                         ++ AnkiMCPServer.confirmHint |} ] |}.
Proof.
  cbv zeta. intros Hconfirm.
  unfold AnkiMCPServer.run, AnkiMCPServer.autoConfigureFromDeck,
    AnkiMCPServer.bind, AnkiMCPServer.await.
  assert (negb (default false
                  (AnkiMCPServer.AutoConfigureFromDeckArgs.confirm args))
          = true) as ->.
  { by destruct (AnkiMCPServer.AutoConfigureFromDeckArgs.confirm args)
      as [[]|]. }
  destruct (AnkiMCPServer.analyzeDeck _ _ _) as [e|analysis];
    unfold AnkiMCPServer.stateOf, AnkiMCPServer.logOf,
      AnkiMCPServer.outcomeOf, AnkiMCPServer.ret; cbn [fst snd app].
  - done.
  - split; [done|]. split; [done|]. by intros ? [= <-].
Qed.

Lemma X26_autoConfigureFromDeck_dry_run_witness :
  AnkiMCPServer.stateOf
    (AnkiMCPServer.run
       (AnkiMCPServer.autoConfigureFromDeck (H := plainJson) deskServer
          {| AnkiMCPServer.AutoConfigureFromDeckArgs.deck :=
               JsString.js "Japanese";
             AnkiMCPServer.AutoConfigureFromDeckArgs.confirm := None |})
       AnkiMCPServer.initial)
  = AnkiMCPServer.initial.
Proof.
  refine (proj1 (X26_autoConfigureFromDeck_dry_run (H := plainJson)
                   deskServer _ AnkiMCPServer.initial _)).
  discriminate.
Defined.

Lemma autoConfigureFromDeck_applied `{JsonHost}
    (this : AnkiMCPServer.Collaborators) (deck : jsstring)
    (st : AnkiMCPServer.ServerState)
    (response : AnkiMCPServer.ToolResponse) :
  let settled :=
    AnkiMCPServer.run
      (AnkiMCPServer.autoConfigureFromDeck this
         {| AnkiMCPServer.AutoConfigureFromDeckArgs.deck := deck;
            AnkiMCPServer.AutoConfigureFromDeckArgs.confirm := Some true |})
      st in
  AnkiMCPServer.outcomeOf settled = inr response ->
  exists analysis cardIds card cardsInfo,
    AnkiMCPServer.analyzeDeck (AnkiMCPServer.deckAnalyzer this) deck None
    = inr analysis
    /\ AnkiMCPServer.findCards (AnkiMCPServer.ankiClient this)
         (DeckAnalyzer.deckQuery deck)
       = inr cardIds
    /\ AnkiMCPServer.getCardsInfo (AnkiMCPServer.ankiClient this)
         [cardIds !! 0]
       = inr (card :: cardsInfo)
    /\ let config :=
         {| AnkiMCPServer.preferredDeck := deck;
            AnkiMCPServer.preferredNoteType := Types.modelName card;
            AnkiMCPServer.fieldMappings := Types.suggestedMappings analysis
         |} in
       AnkiMCPServer.userConfig (AnkiMCPServer.stateOf settled) = Some config
       /\ AnkiMCPServer.logOf settled
          = [ AnkiMCPServer.CalledAnalyzeDeck deck None;
              AnkiMCPServer.CalledFindCards (DeckAnalyzer.deckQuery deck);
              AnkiMCPServer.CalledGetCardsInfo [cardIds !! 0] ]
            ++ AnkiMCPServer.logOf
                 (AnkiMCPServer.run
                    (AnkiMCPServer.initializeUserConfig this) st)
            ++ [ AnkiMCPServer.CalledCreateDeck deck;
                 AnkiMCPServer.CalledSaveConfig config ].
Proof.
  cbv zeta. rewrite autoConfigureFromDeck_apply. cbv zeta.
  destruct (AnkiMCPServer.analyzeDeck _ deck None) as [e|analysis]
    eqn:Hanalysis; [done|].
  destruct (AnkiMCPServer.findCards _ _) as [e|cardIds] eqn:Hfind; [done|].
  destruct (AnkiMCPServer.getCardsInfo _ _) as [e|[|card cardsInfo]]
    eqn:Hinfo; [done..|].
  match goal with
  | |- context [AnkiMCPServer.configureAnkiSetup this ?args st ?log] =>
    destruct (configureAnkiSetup_run this args st log) as [text ->]
  end.
  rewrite initializeUserConfig_log. unfold AnkiMCPServer.run.
  destruct (AnkiMCPServer.initializeUserConfig this st [])
    as [[st1 log1] out1].
  unfold AnkiMCPServer.outcomeOf, AnkiMCPServer.stateOf, AnkiMCPServer.logOf.
  cbn [fst snd]. destruct out1 as [e|[]]; [done|]. cbn [fst snd].
  intros Hout. exists analysis, cardIds, card, cardsInfo.
  split; [done|]. split; [done|]. split; [done|].
  split; [done|]. by rewrite <- !app_assoc.
Qed.

(** X27.  When [autoConfigureFromDeck] is confirmed and succeeds, the
    configuration it stores and saves has the deck of the arguments,
    the mapping the analysis suggested, and as note type the note type
    of the first card of a second fetch, which asks for the first id of
    a second lookup only; the primary note type found by the analysis
    is not used.  The requests are the analysis, the lookup and the
    fetch, then those of the initialization, then the creation of the
    deck and the save. *)
Theorem X27_autoConfigureFromDeck_applies `{JsonHost}
    (this : AnkiMCPServer.Collaborators) (deck : jsstring)
    (st : AnkiMCPServer.ServerState)
    (response : AnkiMCPServer.ToolResponse) :
  let settled :=
    AnkiMCPServer.run
      (AnkiMCPServer.autoConfigureFromDeck this
         {| AnkiMCPServer.AutoConfigureFromDeckArgs.deck := deck;
            AnkiMCPServer.AutoConfigureFromDeckArgs.confirm := Some true |})
      st in
  AnkiMCPServer.outcomeOf settled = inr response ->
  exists analysis cardIds card cardsInfo,
    AnkiMCPServer.analyzeDeck (AnkiMCPServer.deckAnalyzer this) deck None
    = inr analysis
    /\ AnkiMCPServer.findCards (AnkiMCPServer.ankiClient this)
         (DeckAnalyzer.deckQuery deck)
       = inr cardIds
    /\ AnkiMCPServer.getCardsInfo (AnkiMCPServer.ankiClient this)
         [cardIds !! 0]
       = inr (card :: cardsInfo)
    /\ let config :=
         {| AnkiMCPServer.preferredDeck := deck;
            AnkiMCPServer.preferredNoteType := Types.modelName card;
            AnkiMCPServer.fieldMappings := Types.suggestedMappings analysis
         |} in
       AnkiMCPServer.userConfig (AnkiMCPServer.stateOf settled) = Some config
       /\ AnkiMCPServer.logOf settled
          = [ AnkiMCPServer.CalledAnalyzeDeck deck None;
              AnkiMCPServer.CalledFindCards (DeckAnalyzer.deckQuery deck);
              AnkiMCPServer.CalledGetCardsInfo [cardIds !! 0] ]
            ++ AnkiMCPServer.logOf
                 (AnkiMCPServer.run
                    (AnkiMCPServer.initializeUserConfig this) st)
            ++ [ AnkiMCPServer.CalledCreateDeck deck;
                 AnkiMCPServer.CalledSaveConfig config ].
Proof. apply autoConfigureFromDeck_applied. Qed.


Lemma X27_autoConfigureFromDeck_applies_witness :
  exists response analysis cardIds card cardsInfo,
    AnkiMCPServer.outcomeOf
      (AnkiMCPServer.run
         (AnkiMCPServer.autoConfigureFromDeck (H := plainJson) deskServer
            {| AnkiMCPServer.AutoConfigureFromDeckArgs.deck :=
                 JsString.js "Japanese";
               AnkiMCPServer.AutoConfigureFromDeckArgs.confirm := Some true |})
         AnkiMCPServer.initial)
    = inr response
    /\ AnkiMCPServer.analyzeDeck (AnkiMCPServer.deckAnalyzer deskServer)
         (JsString.js "Japanese") None
       = inr analysis
    /\ AnkiMCPServer.findCards (AnkiMCPServer.ankiClient deskServer)
         (DeckAnalyzer.deckQuery (JsString.js "Japanese"))
       = inr cardIds
    /\ AnkiMCPServer.getCardsInfo (AnkiMCPServer.ankiClient deskServer)
         [cardIds !! 0]
       = inr (card :: cardsInfo).
Proof.
  destruct (AnkiMCPServer.outcomeOf
              (AnkiMCPServer.run
                 (AnkiMCPServer.autoConfigureFromDeck (H := plainJson)
                    deskServer
                    {| AnkiMCPServer.AutoConfigureFromDeckArgs.deck :=
                         JsString.js "Japanese";
                       AnkiMCPServer.AutoConfigureFromDeckArgs.confirm :=
                         Some true |})
                 AnkiMCPServer.initial))
    as [e|response] eqn:Hout.
  - exfalso. vm_compute in Hout. discriminate Hout.
  - destruct (X27_autoConfigureFromDeck_applies (H := plainJson) deskServer
                (JsString.js "Japanese") AnkiMCPServer.initial response Hout)
      as (analysis & cardIds & card & cardsInfo & Ha & Hf & Hi & _).
    by exists response, analysis, cardIds, card, cardsInfo.
Defined.

Section ProductionFacts.
Import JsString JsObject AnkiMCPServer ServerProps.
Context `{Host}.

(** A result of the analyzer of this repository carries a mapping made
    by [suggestMappings] for the keys of a sample set, none of which
    names a member of [Object.prototype]. *)
Lemma analyzeDeck_suggested (client : DeckAnalyzer.AnkiConnectClient)
    (deck : jsstring) (sampleSize : option Z)
    (result : Types.DeckAnalysisResult) :
  snd (DeckAnalyzer.run client
         (DeckAnalyzer.analyzeDeck DeckAnalyzer.fieldMapperOf
            deck sampleSize) [])
  = inr result ->
  exists noteType,
    Types.suggestedMappings result = FieldMapper.suggestMappings noteType
    /\ Forall Props.ordinary (Types.fields noteType).
Proof.
  rewrite analyzeDeck_run. cbv zeta.
  destruct (DeckAnalyzer.findCards client (DeckAnalyzer.deckQuery deck))
    as [e|ids]; [done|].
  destruct ids as [|id ids]; [done|]. cbn [snd].
  destruct (DeckAnalyzer.getCardsInfo client _) as [e|cardsInfo]; [done|].
  destruct (getFieldSamples_shape cardsInfo) as [Hthrows Hreturns].
  destruct (existsb Props.breaksCard cardsInfo).
  { by rewrite (Hthrows eq_refl). }
  destruct (Hreturns eq_refl) as (fieldSamples & -> & _ & Hkeys & _).
  intros Hresult%(inj inr). subst result.
  cbn [Types.suggestedMappings DeckAnalyzer.suggestMappings
       DeckAnalyzer.fieldMapperOf].
  eexists. split; [reflexivity|]. cbn [Types.fields].
  apply Forall_forall. intros f Hf. by apply Hkeys in Hf as [? _].
Qed.

Lemma suggested_relabels (noteType : Types.AnkiNoteType)
    (content : dict jsstring) :
  Forall Props.ordinary (Types.fields noteType) ->
  NoDup (keys content) ->
  Forall (fun entry => Props.ordinary (fst entry)) content ->
  FieldMapper.applyMapping (FieldMapper.suggestMappings noteType) content
  ≡ₚ Props.relabel (FieldMapper.suggestMappings noteType) content
  /\ (Forall (fun f => PlainObject.arrayIndex f = None)
             (map snd (FieldMapper.suggestMappings noteType)) ->
      FieldMapper.applyMapping (FieldMapper.suggestMappings noteType) content
      = Props.relabel (FieldMapper.suggestMappings noteType) content).
Proof.
  intros Hord Hlabels Hknown.
  destruct (suggestMappings_inv noteType) as [Hfields Hnd].
  assert (Htargets : Forall Props.ordinary
                       (map snd (FieldMapper.suggestMappings noteType))).
  { rewrite Forall_forall in Hord, Hfields. apply Forall_forall.
    intros f Hf. by apply Hord, Hfields. }
  revert Hnd Htargets. clear Hfields.
  generalize (FieldMapper.suggestMappings noteType).
  intros mapping Hnd Htargets.
  apply (applyLoop_relabel mapping content [] Hnd Htargets);
    [|done|done].
  eapply Forall_impl; [exact Hknown|]. intros entry Hentry. by left.
Qed.

End ProductionFacts.

(** X28.  With the wiring of [main] (the analyzer and the server share
    the client and the mapper of this repository), a confirmed
    [autoConfigureFromDeck] that succeeds leaves the server with a
    mapping in which every label is one of the ten labels of the
    pattern table, no two labels share a field, and no field is named
    like a member of [Object.prototype].  So [applyMapping] under the
    stored configuration merges nothing when the labels of the content
    are distinct and none of them is such a name: the result holds
    exactly the pairs of the content with each label replaced by its
    field, the pairs passed over being dropped; they come in content
    order when no field of the mapping is an array index. *)
Theorem X28_autoConfigured_mapping `{Host} `{JsonHost}
    (client : AnkiMCPServer.AnkiConnectClient)
    (manager : AnkiMCPServer.ConfigurationManager)
    (deck : jsstring) (st : AnkiMCPServer.ServerState)
    (response : AnkiMCPServer.ToolResponse) :
  let settled :=
    AnkiMCPServer.run
      (AnkiMCPServer.autoConfigureFromDeck
         (AnkiMCPServer.production client manager)
         {| AnkiMCPServer.AutoConfigureFromDeckArgs.deck := deck;
            AnkiMCPServer.AutoConfigureFromDeckArgs.confirm := Some true |})
      st in
  AnkiMCPServer.outcomeOf settled = inr response ->
  exists config,
    AnkiMCPServer.userConfig (AnkiMCPServer.stateOf settled) = Some config
    /\ AnkiMCPServer.preferredDeck config = deck
    /\ NoDup (map snd (AnkiMCPServer.fieldMappings config))
    /\ Forall (fun label => label ∈ Props.patternLabels)
              (JsObject.keys (AnkiMCPServer.fieldMappings config))
    /\ Forall Props.ordinary (map snd (AnkiMCPServer.fieldMappings config))
    /\ forall content,
         NoDup (JsObject.keys content) ->
         Forall (fun entry => Props.ordinary (fst entry)) content ->
         FieldMapper.applyMapping (AnkiMCPServer.fieldMappings config) content
         ≡ₚ Props.relabel (AnkiMCPServer.fieldMappings config) content
         /\ (Forall (fun f => PlainObject.arrayIndex f = None)
                    (map snd (AnkiMCPServer.fieldMappings config)) ->
             FieldMapper.applyMapping
               (AnkiMCPServer.fieldMappings config) content
             = Props.relabel (AnkiMCPServer.fieldMappings config) content).
Proof.
  cbv zeta. intros Hout.
  destruct (autoConfigureFromDeck_applied _ deck st response Hout)
    as (analysis & cardIds & card & cardsInfo & Hanalysis & _ & _ & Hconfig
        & _).
  cbv zeta in Hconfig. eexists. split; [exact Hconfig|].
  cbn [AnkiMCPServer.preferredDeck AnkiMCPServer.fieldMappings].
  split; [done|].
  cbn [AnkiMCPServer.production AnkiMCPServer.deckAnalyzer
       AnkiMCPServer.analyzeDeck] in Hanalysis.
  apply analyzeDeck_suggested in Hanalysis as (noteType & -> & Hord).
  destruct (suggestMappings_inv noteType) as [Hfields Hnd].
  destruct (suggestMappings_labels noteType) as [_ Hlabels].
  split; [exact Hnd|]. split; [exact Hlabels|]. split.
  - rewrite Forall_forall in Hord, Hfields. apply Forall_forall.
    intros f Hf. by apply Hord, Hfields.
  - intros content. by apply suggested_relabels.
Qed.

Lemma X28_autoConfigured_mapping_witness :
  exists response config,
    AnkiMCPServer.outcomeOf
      (AnkiMCPServer.run
         (AnkiMCPServer.autoConfigureFromDeck (H := plainJson)
            (AnkiMCPServer.production (H := asciiHost)
               deskClient deskManager)
            {| AnkiMCPServer.AutoConfigureFromDeckArgs.deck :=
                 JsString.js "Japanese";
               AnkiMCPServer.AutoConfigureFromDeckArgs.confirm := Some true |})
         AnkiMCPServer.initial)
    = inr response
    /\ AnkiMCPServer.userConfig
         (AnkiMCPServer.stateOf
            (AnkiMCPServer.run
               (AnkiMCPServer.autoConfigureFromDeck (H := plainJson)
                  (AnkiMCPServer.production (H := asciiHost)
                     deskClient deskManager)
                  {| AnkiMCPServer.AutoConfigureFromDeckArgs.deck :=
                       JsString.js "Japanese";
                     AnkiMCPServer.AutoConfigureFromDeckArgs.confirm :=
                       Some true |})
               AnkiMCPServer.initial))
       = Some config
    /\ NoDup (map snd (AnkiMCPServer.fieldMappings config)).
Proof.
  destruct (AnkiMCPServer.outcomeOf
              (AnkiMCPServer.run
                 (AnkiMCPServer.autoConfigureFromDeck (H := plainJson)
                    (AnkiMCPServer.production (H := asciiHost)
                       deskClient deskManager)
                    {| AnkiMCPServer.AutoConfigureFromDeckArgs.deck :=
                         JsString.js "Japanese";
                       AnkiMCPServer.AutoConfigureFromDeckArgs.confirm :=
                         Some true |})
                 AnkiMCPServer.initial))
    as [e|response] eqn:Hout.
  - exfalso. vm_compute in Hout. discriminate Hout.
  - destruct (X28_autoConfigured_mapping (H := asciiHost) (H0 := plainJson)
                deskClient deskManager
                (JsString.js "Japanese") AnkiMCPServer.initial response Hout)
      as (config & Hconfig & _ & Hnd & _).
    by exists response, config.
Defined.

(* ------------------------------------------------------------------ *)
(** ** AnkiConnectClient: note types and decks *)
(* ------------------------------------------------------------------ *)

Section ClientFacts.
Import JsString AnkiConnectClient.

Lemma startsWith_other (c d : N) (s p : jsstring) :
  c <> d -> startsWith (c :: s) (d :: p) = false.
Proof.
  intros Hne. cbn [startsWith]. rewrite bool_decide_eq_false_2; [done|].
  by intros ->.
Qed.

(** A prefix without the first character of the phrase neither hides
    nor creates an occurrence of it. *)
Lemma includes_after (prefix s : jsstring) (d : N) (p : jsstring) :
  Forall (fun c => c <> d) prefix ->
  includes (prefix ++ s) (d :: p) = includes s (d :: p).
Proof.
  induction 1 as [|c prefix Hc _ IH]; [done|].
  cbn [app]. cbn [includes]. fold (includes (prefix ++ s) (d :: p)).
  by rewrite (startsWith_other c d _ _ Hc), IH.
Qed.

Lemma wrapped_alreadyExists (text : jsstring) :
  includes (js "AnkiConnect error: " ++ text) alreadyExists
  = includes text alreadyExists.
Proof.
  assert (Hphrase : alreadyExists = 0x64%N :: js "eck already exists")
    by (vm_compute; reflexivity).
  rewrite Hphrase. apply includes_after.
  apply (bool_decide_unpack _). vm_compute. exact I.
Qed.

(** The loop of [getNoteTypes]. *)
Lemma fieldsLoop_spec (transport : Transport) (names : list jsstring)
    (noteTypes : list Types.AnkiNoteType) (log : list Request) :
  let settled := fieldsLoop transport names noteTypes log in
  (forall result,
     snd settled = inr result <->
     exists described,
       result = noteTypes ++ described
       /\ map Types.name described = names
       /\ Forall (fun noteType =>
                    sendRequest
                      (modelFieldNames transport (Types.name noteType))
                    = inr (Types.fields noteType))
                 described)
  /\ (forall result,
        snd settled = inr result ->
        fst settled = log ++ map SentModelFieldNames names)
  /\ (forall e,
        snd settled = inl e ->
        exists asked name rest,
          names = asked ++ name :: rest
          /\ Forall (fun earlier =>
                       exists fields,
                         sendRequest (modelFieldNames transport earlier)
                         = inr fields)
                    asked
          /\ fst settled = log ++ map SentModelFieldNames (asked ++ [name])
          /\ sendRequest (modelFieldNames transport name) = inl e).
Proof.
  cbv zeta. revert noteTypes log.
  induction names as [|name names IH]; intros noteTypes log.
  - cbn [fieldsLoop fst snd]. split; [|split].
    + intros result. split.
      * intros [= <-]. exists []. by rewrite app_nil_r.
      * intros (described & -> & Hnames & _).
        apply map_eq_nil in Hnames as ->. by rewrite app_nil_r.
    + intros _ _. cbn [map]. by rewrite app_nil_r.
    + done.
  - cbn [fieldsLoop].
    destruct (sendRequest (modelFieldNames transport name))
      as [e|fields] eqn:Hsend.
    + cbn [fst snd]. split; [|split].
      * intros result. split; [done|].
        intros (described & _ & Hnames & Hall).
        destruct described as [|noteType described]; [done|].
        injection Hnames as Hname _. apply Forall_cons in Hall as [Hok _].
        rewrite Hname in Hok. congruence.
      * done.
      * intros e' [= <-]. exists [], name, names.
        split; [done|]. split; [constructor | done].
    + destruct (IH (noteTypes
                    ++ [ {| Types.name := name; Types.fields := fields |} ])
                   (log ++ [SentModelFieldNames name]))
        as (Hresult & Hdone & Hfail).
      split; [|split].
      * intros result. rewrite Hresult. split.
        -- intros (described & -> & Hn & Hall).
           exists ({| Types.name := name; Types.fields := fields |}
                   :: described).
           split; [by rewrite <- app_assoc|].
           split; [by cbn [map]; rewrite Hn|].
           by apply Forall_cons.
        -- intros (described & -> & Hn & Hall).
           destruct described as [|noteType described]; [done|].
           injection Hn as Hname Hn. apply Forall_cons in Hall as [Hok Hall].
           rewrite Hname, Hsend in Hok. injection Hok as Hfields.
           exists described. split; [|done].
           rewrite <- app_assoc. cbn [app]. do 2 f_equal.
           destruct noteType as [name' fields']. cbn in Hname, Hfields.
           by subst.
      * intros result Hout. rewrite (Hdone result Hout).
        by rewrite <- app_assoc.
      * intros e He. destruct (Hfail e He)
          as (asked & failing & rest & -> & Hasked & Hlog & Hsent).
        exists (name :: asked), failing, rest.
        split; [done|]. split; [|split; [|done]].
        -- apply Forall_cons. split; [by exists fields | done].
        -- by rewrite Hlog, <- app_assoc.
Qed.

End ClientFacts.

(** X29.  [getNoteTypes] asks for the names of the note types and then
    for the fields of each name, one request per name in the order of
    the names.  It succeeds exactly when all of these requests do, and
    then returns one note type per name, in that order, with the
    fields that were answered for it; otherwise it stops at the first
    request that fails and passes its error on: the requests before it
    succeeded, it is the last request sent, and its error is the error
    of [getNoteTypes]. *)
Theorem X29_getNoteTypes_in_order (transport : AnkiConnectClient.Transport) :
  let settled := AnkiConnectClient.getNoteTypes transport in
  (forall noteTypes,
     snd settled = inr noteTypes <->
     AnkiConnectClient.sendRequest (AnkiConnectClient.modelNames transport)
     = inr (map Types.name noteTypes)
     /\ Forall (fun noteType =>
                  AnkiConnectClient.sendRequest
                    (AnkiConnectClient.modelFieldNames transport
                       (Types.name noteType))
                  = inr (Types.fields noteType))
               noteTypes)
  /\ (forall noteTypes,
        snd settled = inr noteTypes ->
        fst settled
        = AnkiConnectClient.SentModelNames
          :: map AnkiConnectClient.SentModelFieldNames
               (map Types.name noteTypes))
  /\ (forall e,
        snd settled = inl e ->
        (fst settled = [AnkiConnectClient.SentModelNames]
         /\ AnkiConnectClient.sendRequest
              (AnkiConnectClient.modelNames transport) = inl e)
        \/ exists names asked name rest,
             AnkiConnectClient.sendRequest
               (AnkiConnectClient.modelNames transport) = inr names
             /\ names = asked ++ name :: rest
             /\ Forall (fun earlier =>
                          exists fields,
                            AnkiConnectClient.sendRequest
                              (AnkiConnectClient.modelFieldNames
                                 transport earlier)
                            = inr fields)
                       asked
             /\ fst settled
                = AnkiConnectClient.SentModelNames
                  :: map AnkiConnectClient.SentModelFieldNames
                       (asked ++ [name])
             /\ AnkiConnectClient.sendRequest
                  (AnkiConnectClient.modelFieldNames transport name)
                = inl e).
Proof.
  cbv zeta. unfold AnkiConnectClient.getNoteTypes.
  destruct (AnkiConnectClient.sendRequest
              (AnkiConnectClient.modelNames transport)) as [e|names] eqn:Hn.
  { cbn [fst snd]. split; [|split].
    - intros noteTypes. split; [done | by intros [? _]].
    - done.
    - intros e' [= <-]. by left. }
  destruct (fieldsLoop_spec transport names []
              [AnkiConnectClient.SentModelNames])
    as (Hresult & Hdone & Hfail).
  cbv zeta in *. split; [|split].
  - intros noteTypes. rewrite Hresult. split.
    + intros (described & -> & Hd & Hall). cbn [app]. by rewrite Hd.
    + intros [[= ->] Hall]. by exists noteTypes.
  - intros noteTypes Hout. rewrite (Hdone noteTypes Hout). cbn [app].
    apply Hresult in Hout as (described & -> & Hd & _). cbn [app].
    by rewrite Hd.
  - intros e He. right.
    destruct (Hfail e He)
      as (asked & name & rest & Hnames & Hasked & Hlog & Hsent).
    exists names, asked, name, rest. by rewrite Hlog.
Qed.

Lemma X29_getNoteTypes_in_order_witness :
  fst (AnkiConnectClient.getNoteTypes twoModels)
  = [ AnkiConnectClient.SentModelNames;
      AnkiConnectClient.SentModelFieldNames (JsString.js "Basic");
      AnkiConnectClient.SentModelFieldNames (JsString.js "Cloze") ].
Proof.
  destruct (proj2 (proj2 (X29_getNoteTypes_in_order twoModels))
              (DeckAnalyzer.Error
                 (JsString.js "AnkiConnect error: model was not found")))
    as [[_ Hnames] | (names & asked & name & rest & Hnames & Hsplit & _
                      & Hlog & _)].
  - vm_compute. reflexivity.
  - vm_compute in Hnames. discriminate Hnames.
  - vm_compute. reflexivity.
Defined.

(** X30.  [createDeck] sends one request and succeeds exactly when
    AnkiConnect reports no error, or reports (or the transport throws)
    an error whose text contains "deck already exists"; the prefix
    [sendRequest] puts before the text of AnkiConnect never hides or
    fakes that phrase.  An empty error text counts as no error.  Any
    other error is passed on as [sendRequest] made it. *)
Theorem X30_createDeck_tolerates (transport : AnkiConnectClient.Transport)
    (deckName : jsstring) :
  let settled := AnkiConnectClient.createDeck transport deckName in
  fst settled = [AnkiConnectClient.SentCreateDeck deckName]
  /\ (snd settled = inr tt <->
      match AnkiConnectClient.createDeckAction transport deckName with
      | inl (DeckAnalyzer.Error message) =>
        JsString.includes message AnkiConnectClient.alreadyExists = true
      | inr data =>
        AnkiConnectClient.error data = None
        \/ AnkiConnectClient.error data = Some []
        \/ exists text,
             AnkiConnectClient.error data = Some text
             /\ JsString.includes text AnkiConnectClient.alreadyExists = true
      end)
  /\ (forall e,
        snd settled = inl e ->
        AnkiConnectClient.sendRequest
          (AnkiConnectClient.createDeckAction transport deckName)
        = inl e).
Proof.
  cbv zeta. unfold AnkiConnectClient.createDeck, AnkiConnectClient.sendRequest.
  destruct (AnkiConnectClient.createDeckAction transport deckName)
    as [[message]|[[] [text|]]]; cbn [AnkiConnectClient.error
      AnkiConnectClient.result JsString.truthyO].
  - destruct (JsString.includes message AnkiConnectClient.alreadyExists);
      cbn [fst snd]; split; try done; split; try done.
  - change (default [] (Some text)) with text.
    destruct text as [|c text]; cbn [JsString.truthy fst snd].
    + split; [done|]. split; [|done]. split; [intros _; by right; left|done].
    + rewrite wrapped_alreadyExists.
      destruct (JsString.includes (c :: text) AnkiConnectClient.alreadyExists)
        eqn:Hinc; cbn [fst snd]; split; try done; split; try done.
      * split; [|done]. intros _. right. right. by exists (c :: text).
      * split; [done|].
        intros [? | [? | (text' & [= <-] & Hinc')]]; [done..|]. congruence.
  - cbn [fst snd]. split; [done|]. split; [|done].
    split; [intros _; by left | done].
Qed.

Lemma X30_createDeck_tolerates_witness :
  snd (AnkiConnectClient.createDeck twoModels (JsString.js "Japanese"))
  = inr tt.
Proof.
  refine (proj2 (proj1 (proj2 (X30_createDeck_tolerates twoModels
                                 (JsString.js "Japanese")))) _).
  right. right. eexists. split; reflexivity.
Defined.
